(** * Time-splatting trainer (time-splatting/train.py): a shallow embedding

    The trainer fits two populations of Gaussian primitives (an albedo
    population and an optional shading population) to a time-lapse.  This
    development models the parts of [train.py] that decide how the temporal
    kernel modulates opacity, how the runner is constructed, how one
    training iteration is ordered, what a checkpoint holds and how the
    learning-rate schedules evolve.

    Tensors are modelled over the real numbers: a 1-D tensor is a [list R],
    a 2-D tensor a list of rows; where a statement turns on rounding, the
    lines concerned are given in binary32 as well.  The rasterizer, the
    optimizers' update rule and the density-control strategies are external
    collaborators (gsplat, torch); they appear as section variables or as
    recorded calls. *)

From Stdlib Require Import String.
From Stdlib Require Import Reals Lra Lia ZArith Bool Arith List Sorted.
From Stdlib Require SpecFloat.
Import ListNotations.
Open Scope string_scope.
Open Scope R_scope.

(** ** Exceptions and the error monad *)

Inductive Exn : Type :=
| KeyError (key : string)
| RuntimeError (msg : string)
| ValueError (msg : string)
| AssertionError (msg : string)
| TypeError (msg : string)
| NameError (name : string)
| AttributeError (name : string)
| IndexError (msg : string)
| ZeroDivisionError.

Inductive result (A : Type) : Type :=
| Ok (a : A)
| Err (e : Exn).
Arguments Ok {A} a.
Arguments Err {A} e.

Definition bind {A B : Type} (m : result A) (k : A -> result B) : result B :=
  match m with
  | Ok a => k a
  | Err e => Err e
  end.

Notation "x <- m ;; k" := (bind m (fun x => k))
  (at level 61, m at next level, right associativity).

Fixpoint mapM {A B : Type} (f : A -> result B) (l : list A) : result (list B) :=
  match l with
  | [] => Ok []
  | a :: l' => b <- f a ;; bs <- mapM f l' ;; Ok (b :: bs)
  end.

(** ** Tensors and broadcasting *)

Inductive Tensor : Type :=
| T1 (v : list R)
| T2 (m : list (list R)).

Definition map2 {A B C : Type} (f : A -> B -> C) (xs : list A) (ys : list B) : list C :=
  map (fun p => f (fst p) (snd p)) (combine xs ys).

(** Elementwise binary operation on two 1-D tensors with torch's
    broadcasting: equal sizes, or one of them of size 1. *)
Definition bcast2 (f : R -> R -> R) (xs ys : list R) : result (list R) :=
  if Nat.eqb (length xs) (length ys) then Ok (map2 f xs ys)
  else if Nat.eqb (length xs) 1 then Ok (map (f (hd 0 xs)) ys)
  else if Nat.eqb (length ys) 1 then Ok (map (fun x => f x (hd 0 ys)) xs)
  else Err (RuntimeError "The size of tensor a must match the size of tensor b").

(** The same on two 2-D tensors: the leading dimension broadcasts too. *)
Definition bcast_rows (f : R -> R -> R) (A B : list (list R)) : result (list (list R)) :=
  if Nat.eqb (length A) (length B)
  then mapM (fun p => bcast2 f (fst p) (snd p)) (combine A B)
  else if Nat.eqb (length A) 1 then mapM (bcast2 f (hd [] A)) B
  else if Nat.eqb (length B) 1 then mapM (fun a => bcast2 f a (hd [] B)) A
  else Err (RuntimeError "The size of tensor a must match the size of tensor b").

(** [x.sum(dim=-1)] on one row *)
Definition sum_last (row : list R) : R := fold_right Rplus 0 row.

Definition sigmoid (x : R) : R := 1 / (1 + exp (- x)).

(** ** Parameter dictionaries *)

(** [torch.nn.ParameterDict]: insertion-ordered, keyed by group name. *)
Definition ParameterDict : Type := list (string * Tensor).

Fixpoint lookup {V : Type} (k : string) (d : list (string * V)) : option V :=
  match d with
  | [] => None
  | (k', v) :: d' => if String.eqb k k' then Some v else lookup k d'
  end.

Definition keys {V : Type} (d : list (string * V)) : list string := map fst d.

(** [splats[k]] where the code goes on to use it as a 1-D tensor *)
Definition get1 (splats : ParameterDict) (k : string) : result (list R) :=
  match lookup k splats with
  | Some (T1 v) => Ok v
  | Some (T2 _) => Err (RuntimeError "expected a 1-D tensor")
  | None => Err (KeyError k)
  end.

(** [splats[k]] where the code goes on to use it as a 2-D tensor *)
Definition get2 (splats : ParameterDict) (k : string) : result (list (list R)) :=
  match lookup k splats with
  | Some (T2 m) => Ok m
  | Some (T1 _) => Err (RuntimeError "expected a 2-D tensor")
  | None => Err (KeyError k)
  end.

(** ** The temporal kernel inside [Runner.rasterize_splats] *)

(** Lines 484-498: [time_delta = times[None, ...] - time_means], then
    [time_anisotropic = time_delta] (the Cholesky coupling is inside a string
    literal and never runs), then [time_delta = time_anisotropic / time_scales]
    with [time_scales = exp(splats["time_scales"])]. *)
Definition normalized_time_delta (splats : ParameterDict) (times : list R)
  : result (list (list R)) :=
  time_means <- get2 splats "times" ;;
  log_time_scales <- get2 splats "time_scales" ;;
  let time_scales := map (map exp) log_time_scales in
  time_delta <- bcast_rows Rminus [times] time_means ;;
  let time_anisotropic := time_delta in
  bcast_rows Rdiv time_anisotropic time_scales.

(** Line 500: [time_alpha = exp(-0.5 * (time_delta * time_delta).sum(dim=-1))] *)
Definition time_alpha (splats : ParameterDict) (times : list R) : result (list R) :=
  time_delta <- normalized_time_delta splats times ;;
  Ok (map (fun row => exp (- 0.5 * sum_last (map (fun x => x * x) row))) time_delta).

(** Lines 477 and 502: the opacities handed to the rasterizer,
    [sigmoid(splats["opacities"]) * time_alpha]. *)
Definition effective_opacities (splats : ParameterDict) (times : list R)
  : result (list R) :=
  logit_opacities <- get1 splats "opacities" ;;
  let opacities := map sigmoid logit_opacities in
  alpha <- time_alpha splats times ;;
  bcast2 Rmult opacities alpha.

(** [splat_cholesky]: the unit lower-triangular factor built from
    [time_anisos]; defined by the runner, called from nowhere that runs. *)
Definition tril_indices (d : nat) : list (nat * nat) :=
  flat_map (fun i => map (fun j => (i, j)) (seq 0 i)) (seq 0 d).

Definition index_of (p : nat * nat) (l : list (nat * nat)) : option nat :=
  (fix go (l : list (nat * nat)) (n : nat) : option nat :=
     match l with
     | [] => None
     | q :: l' =>
         if Nat.eqb (fst p) (fst q) && Nat.eqb (snd p) (snd q) then Some n
         else go l' (S n)
     end) l 0%nat.

Definition cholesky_row_matrix (d : nat) (aniso : list R) : list (list R) :=
  map (fun i =>
         map (fun j =>
                if Nat.eqb i j then 1
                else match index_of (i, j) (tril_indices d) with
                     | Some n => nth n aniso 0
                     | None => 0
                     end)
             (seq 0 d))
      (seq 0 d).

Definition splat_cholesky (splats : ParameterDict) : result (list (list (list R))) :=
  times <- get2 splats "times" ;;
  let d := length (hd [] times) in
  if Nat.ltb 1 d
  then anisos <- get2 splats "time_anisos" ;;
       Ok (map (cholesky_row_matrix d) anisos)
  else Ok (map (fun _ => cholesky_row_matrix d []) times).

(** ** The kernel as the specification writes it *)

Fixpoint sum_upto (f : nat -> R) (n : nat) : R :=
  match n with
  | O => 0
  | S n' => f O + sum_upto (fun j => f (S j)) n'
  end.

(** normalized deviation of coordinate [j] *)
Definition deviation (t mean log_scale : list R) (j : nat) : R :=
  (nth j t 0 - nth j mean 0) / exp (nth j log_scale 0).

Definition kernel_spec (t mean log_scale : list R) : R :=
  exp (- 0.5 * sum_upto (fun j => (deviation t mean log_scale j) ^ 2) (length mean)).

(** A population whose temporal arrays have [n] rows of [d] columns and whose
    opacity array has [n] entries. *)
Definition rows_of_width (d : nat) (m : list (list R)) : bool :=
  forallb (fun row => Nat.eqb (length row) d) m.

Definition temporal_shape (splats : ParameterDict) (n d : nat) : bool :=
  match lookup "opacities" splats, lookup "times" splats, lookup "time_scales" splats with
  | Some (T1 ops), Some (T2 tm), Some (T2 ts) =>
      Nat.eqb (length ops) n && Nat.eqb (length tm) n && Nat.eqb (length ts) n
      && rows_of_width d tm && rows_of_width d ts
  | _, _, _ => false
  end.

(** Primitive [i]'s entry of a 1-D group and its row of a 2-D group. *)
Definition entry_of (splats : ParameterDict) (k : string) (i : nat) : option R :=
  match lookup k splats with
  | Some (T1 v) => nth_error v i
  | _ => None
  end.

Definition row_of (splats : ParameterDict) (k : string) (i : nat) : option (list R) :=
  match lookup k splats with
  | Some (T2 m) => nth_error m i
  | _ => None
  end.

(** The normalized deltas of one primitive, as lines 484-498 compute them
    when the shapes agree. *)
Definition normalized_row (t mean log_scale : list R) : list R :=
  map2 Rdiv (map2 Rminus t mean) (map exp log_scale).

(** ** Configuration *)

Record DefaultStrategyCfg : Type := {
  absgrad : bool;
  d_refine_start_iter : Z;
  d_refine_stop_iter : Z;
  d_refine_every : Z;
  reset_every : Z
}.

Record MCMCStrategyCfg : Type := {
  cap_max : Z;
  m_refine_start_iter : Z;
  m_refine_stop_iter : Z;
  m_refine_every : Z
}.

(** [Union[DefaultStrategy, MCMCStrategy]] *)
Inductive Strategy : Type :=
| DefaultStrategy (c : DefaultStrategyCfg)
| MCMCStrategy (c : MCMCStrategyCfg).

Record Config : Type := {
  compression : option string;
  max_steps : Z;
  eval_steps : list Z;
  save_steps : list Z;
  use_shading : bool;
  time_noise_scale : R;
  angle_noise_scale : R;
  init_num_pts : nat;
  init_extent : R;
  init_opa : R;
  init_scale : R;
  near_plane : R;
  far_plane : R;
  strategy : Strategy;
  shading_strategy : Strategy;
  antialiased : bool;
  packed : bool;
  sparse_grad : bool;
  visible_adam : bool;
  means_lr : R;
  scales_lr : R;
  opacities_lr : R;
  quats_lr : R;
  sh0_lr : R;
  app_opt : bool;
  use_bilagrid : bool;
  lpips_net : string
}.

(** ** Optimizers *)

Inductive OptimizerClass : Type := SparseAdam | SelectiveAdam | Adam.

Record Optimizer : Type := {
  opt_class : OptimizerClass;
  opt_name : string;
  opt_lr : R
}.

Definition with_lr (o : Optimizer) (lr : R) : Optimizer :=
  {| opt_class := opt_class o; opt_name := opt_name o; opt_lr := lr |}.

(** ** [create_splats_with_optimizers] *)

(** The tensors the function draws at random or derives from the dataset
    (points, colours, nearest-neighbour scales, orientations, time labels).
    [init_time_scales] stands for the tensor lines 227-229 derive from the
    time labels, [created_time_scales (init_times sample)] below; a
    statement that depends on its values says so. *)
Record InitSample : Type := {
  init_points : list (list R);
  init_colors : list (list R);
  init_log_scales : list (list R);
  init_quats : list (list R);
  init_times : list (list R);
  init_time_scales : list (list R)
}.

Definition logit (p : R) : R := ln (p / (1 - p)).

Definition create_splats_with_optimizers
    (sample : InitSample) (init_opacity : R)
    (means_lr' scales_lr' opacities_lr' quats_lr' sh0_lr' scene_scale : R)
    (sparse_grad' visible_adam' use_shading' : bool)
  : ParameterDict * list (string * Optimizer) :=
  let N := length (init_points sample) in
  let opacities := repeat (logit init_opacity) N in
  let times := init_times sample in
  let params : list (string * Tensor * R) :=
    ([ ("means", T2 (init_points sample), means_lr' * scene_scale);
      ("scales", T2 (init_log_scales sample), scales_lr');
      ("quats", T2 (init_quats sample), quats_lr');
      ("opacities", T1 opacities, opacities_lr');
      ("times", T2 times, means_lr' * scene_scale);
      ("time_scales", T2 (init_time_scales sample), scales_lr');
      ("colors", T2 (init_colors sample), sh0_lr') ]
    ++ (if use_shading'
        then let d := length (hd [] times) in
             let triu_len := (d * (d - 1) / 2)%nat in
             [ ("time_anisos", T2 (repeat (repeat 0 triu_len) N), quats_lr') ]
        else []))%list in
  let splats := map (fun p => (fst (fst p), snd (fst p))) params in
  let optimizer_class :=
    if sparse_grad' then SparseAdam
    else if visible_adam' then SelectiveAdam
    else Adam in
  let optimizers :=
    map (fun p => (fst (fst p),
                   {| opt_class := optimizer_class;
                      opt_name := fst (fst p);
                      opt_lr := snd p |})) params in
  (splats, optimizers).

(** ** Strategy interface (gsplat) as the runner calls it *)

(** What [initialize_state] returns.  [DefaultStrategy.initialize_state] has
    the signature [(self, scene_scale: float = 1.0)] and records the scale;
    [MCMCStrategy.initialize_state] has the signature [(self)]. *)
Inductive StrategyState : Type :=
| DefaultState (scene_scale : R)
| MCMCState.

Definition initialize_state (s : Strategy) (scene_scale_kw : option R)
  : result StrategyState :=
  match s, scene_scale_kw with
  | DefaultStrategy _, Some sc => Ok (DefaultState sc)
  | DefaultStrategy _, None => Ok (DefaultState 1)
  | MCMCStrategy _, None => Ok MCMCState
  | MCMCStrategy _, Some _ =>
      Err (TypeError "initialize_state() got an unexpected keyword argument 'scene_scale'")
  end.

Definition mem_string (k : string) (l : list string) : bool :=
  existsb (String.eqb k) l.

Definition subset_strings (a b : list string) : bool :=
  forallb (fun k => mem_string k b) a.

(** [check_sanity]: the parameter keys and the optimizer keys are the same
    set, and the four geometric groups are present. *)
Definition check_sanity (s : Strategy) (params : ParameterDict)
    (optimizers : list (string * Optimizer)) : result unit :=
  if subset_strings (keys params) (keys optimizers)
     && subset_strings (keys optimizers) (keys params)
     && subset_strings ["means"; "scales"; "quats"; "opacities"] (keys params)
  then Ok tt
  else Err (AssertionError "check_sanity").

(** ** The runner *)

Inductive Codec : Type := PngCompression.

Record Runner : Type := {
  cfg : Config;
  scene_scale : R;
  splats : ParameterDict;
  optimizers : list (string * Optimizer);
  shading_splats : option ParameterDict;
  shading_optimizers : list (string * Optimizer);
  strategy_state : StrategyState;
  shading_strategy_state : option StrategyState;
  compression_method : option Codec;
  app_module : option ParameterDict;
  app_optimizers : list Optimizer;
  bil_grid_optimizers : list Optimizer
}.

(** A call [callee.initialize_state(...)] as the constructor issues it. *)
Record InitCall : Type := {
  callee : Strategy;
  scene_scale_kw : option R
}.

Definition perform_init (call : InitCall) : result StrategyState :=
  initialize_state (callee call) (scene_scale_kw call).

(** Lines 351-358: the primary controller's state. *)
Definition strategy_init_dispatch (c : Config) (scale : R) : InitCall :=
  match strategy c with
  | DefaultStrategy _ => {| callee := strategy c; scene_scale_kw := Some scale |}
  | MCMCStrategy _ => {| callee := strategy c; scene_scale_kw := None |}
  end.

(** Lines 360-372: the shading controller's state.  The branch is chosen by
    [isinstance(self.cfg.strategy, ...)], the call goes to
    [self.cfg.shading_strategy]. *)
Definition shading_init_dispatch (c : Config) (scale : R) : option InitCall :=
  if use_shading c then
    Some match strategy c with
         | DefaultStrategy _ =>
             {| callee := shading_strategy c; scene_scale_kw := Some scale |}
         | MCMCStrategy _ =>
             {| callee := shading_strategy c; scene_scale_kw := None |}
         end
  else None.

Definition init_strategy_state (c : Config) (scale : R) : result StrategyState :=
  perform_init (strategy_init_dispatch c scale).

Definition init_shading_strategy_state (c : Config) (scale : R)
  : result (option StrategyState) :=
  match shading_init_dispatch c scale with
  | Some call => st <- perform_init call ;; Ok (Some st)
  | None => Ok None
  end.

(** Lines 374-380: the compression codec. *)
Definition init_compression (c : Config) : result (option Codec) :=
  match compression c with
  | None => Ok None
  | Some name =>
      if String.eqb name "png" then Ok (Some PngCompression)
      else Err (ValueError "Unknown compression strategy")
  end.

(** Lines 382-401: [assert feature_dim is not None] reads a name that is
    bound nowhere. *)
Definition init_app_optimizers (c : Config) : result (list Optimizer) :=
  if app_opt c then Err (NameError "feature_dim") else Ok [].

(** Lines 403-417 *)
Definition init_bil_grid_optimizers (c : Config) : list Optimizer :=
  if use_bilagrid c
  then [ {| opt_class := Adam; opt_name := "bil_grids"; opt_lr := 2 / 1000 |} ]
  else [].

(** Lines 423-433 *)
Definition init_lpips (c : Config) : result unit :=
  if String.eqb (lpips_net c) "alex" then Ok tt
  else if String.eqb (lpips_net c) "vgg" then Ok tt
  else Err (ValueError "Unknown LPIPS network").

(** [Runner.__init__]; [sample_init use_shading n] is what the random
    initialisation draws for a population of [n] primitives. *)
Definition Runner_init (sample_init : bool -> nat -> InitSample) (c : Config)
  : result Runner :=
  let scale := 11 / 10 in
  let '(splats0, optimizers0) :=
    create_splats_with_optimizers (sample_init false (init_num_pts c)) (init_opa c)
      (means_lr c) (scales_lr c) (opacities_lr c) (quats_lr c) (sh0_lr c) scale
      (sparse_grad c) (visible_adam c) false in
  _ <- check_sanity (strategy c) splats0 optimizers0 ;;
  shading <-
    (if use_shading c then
       let '(s, o) :=
         create_splats_with_optimizers (sample_init true (init_num_pts c)) (init_opa c)
           (means_lr c) (scales_lr c) (opacities_lr c) (quats_lr c) (sh0_lr c) scale
           (sparse_grad c) (visible_adam c) true in
       _ <- check_sanity (shading_strategy c) s o ;;
       Ok (Some s, o)
     else Ok (None, [])) ;;
  st <- init_strategy_state c scale ;;
  shading_st <- init_shading_strategy_state c scale ;;
  codec <- init_compression c ;;
  app_opts <- init_app_optimizers c ;;
  let bil := init_bil_grid_optimizers c in
  _ <- init_lpips c ;;
  Ok {| cfg := c;
        scene_scale := scale;
        splats := splats0;
        optimizers := optimizers0;
        shading_splats := fst shading;
        shading_optimizers := snd shading;
        strategy_state := st;
        shading_strategy_state := shading_st;
        compression_method := codec;
        app_module := None;
        app_optimizers := app_opts;
        bil_grid_optimizers := bil |}.

(** ** The rasterizer contract and [Runner.rasterize_splats] *)

Inductive RasterizeMode : Type := Classic | Antialiased.

Record Camera : Type := {
  camtoworlds : list (list R);
  Ks : list (list R);
  width : nat;
  height : nat
}.

(** Statistics bundle of one forward pass: [info["radii"]] is [C, N, 2],
    [info["gaussian_ids"]] lists the touched primitives in packed mode. *)
Record Info : Type := {
  radii : list (list (list Z));
  gaussian_ids : list nat
}.

(** The keyword arguments [rasterization] is called with; [ra_camera] stands
    for [viewmats = inv(camtoworlds)], [Ks], [width] and [height]. *)
Record RasterArgs : Type := {
  ra_means : list (list R);
  ra_quats : list (list R);
  ra_scales : list (list R);
  ra_opacities : list R;
  ra_colors : list (list R);
  ra_camera : Camera;
  ra_packed : bool;
  ra_absgrad : bool;
  ra_sparse_grad : bool;
  ra_rasterize_mode : RasterizeMode;
  ra_backgrounds : option (list (list R))
}.

(** Images are lists of pixels, a pixel a list of channels. *)
Record RasterOut : Type := {
  render_colors : list (list R);
  render_alphas : list (list R);
  out_info : Info
}.

Inductive Population : Type := Albedo | Shading.

Inductive PostArg : Type :=
| ArgPacked (packed : bool)
| ArgLr (lr : R).

Record Sample : Type := {
  s_camera : Camera;
  s_image : list (list R);
  s_image_id : Z;
  s_mask : option (list bool);
  s_time : list R;
  s_sun_angle : list (list R);
  s_alpha : list (list R)
}.

(** Everything the runner consumes without defining: the rasterization
    kernel, the appearance and bilateral-grid modules, the optimizer update
    rule, the strategies' step functions, the data loaders and the random
    draws of a step. *)
Record Collaborators : Type := {
  rasterization : RasterArgs -> RasterOut;
  app_module_forward : list (list R) -> Z -> list (list R);
  bilagrid_slice : list (list R) -> Z -> list (list R);
  optimizer_step : Population -> Optimizer -> option (list bool) -> Z -> Tensor -> Tensor;
  step_pre_backward : Strategy -> StrategyState -> Z -> Info -> StrategyState;
  step_post_backward :
    Strategy -> PostArg -> Z -> Info -> ParameterDict -> StrategyState
    -> ParameterDict * StrategyState;
  trainloader : Z -> Sample;
  randn : Z -> nat -> R;
  time_gap : R;
  sun_angle_std : R * R
}.

(** [render_colors[~masks] = 0] *)
Definition apply_mask (masks : option (list bool)) (img : list (list R)) : list (list R) :=
  match masks with
  | None => img
  | Some m => map2 (fun (keep : bool) px => if keep then px else map (fun _ => 0) px) m img
  end.

Definition strategy_absgrad (s : Strategy) : bool :=
  match s with
  | DefaultStrategy c => absgrad c
  | MCMCStrategy _ => false
  end.

(** The arguments [rasterize_splats] builds for the rasterizer (lines
    472-541). *)
Definition rasterizer_args (env : Collaborators) (r : Runner)
    (splats' : ParameterDict) (times : list R) (cam : Camera)
    (rasterize_mode : option RasterizeMode) (image_id : Z)
    (backgrounds : option (list (list R)))
  : result RasterArgs :=
  means <- get2 splats' "means" ;;
  quats <- get2 splats' "quats" ;;
  log_scales <- get2 splats' "scales" ;;
  let scales := map (map exp) log_scales in
  opacities <- effective_opacities splats' times ;;
  colors <-
    (if app_opt (cfg r)
     then features <- get2 (splats r) "features" ;;
          raw <- get2 splats' "colors" ;;
          summed <- bcast_rows Rplus (app_module_forward env features image_id) raw ;;
          Ok (map (map sigmoid) summed)
     else raw <- get2 splats' "colors" ;;
          Ok (map (map sigmoid) raw)) ;;
  let mode :=
    match rasterize_mode with
    | Some m => m
    | None => if antialiased (cfg r) then Antialiased else Classic
    end in
  Ok {| ra_means := means;
        ra_quats := quats;
        ra_scales := scales;
        ra_opacities := opacities;
        ra_colors := colors;
        ra_camera := cam;
        ra_packed := packed (cfg r);
        ra_absgrad := strategy_absgrad (strategy (cfg r));
        ra_sparse_grad := sparse_grad (cfg r);
        ra_rasterize_mode := mode;
        ra_backgrounds := backgrounds |}.

Definition rasterize_splats (env : Collaborators) (r : Runner)
    (splats' : ParameterDict) (times : list R) (cam : Camera)
    (masks : option (list bool)) (rasterize_mode : option RasterizeMode)
    (image_id : Z) (backgrounds : option (list (list R)))
  : result RasterOut :=
  args <- rasterizer_args env r splats' times cam rasterize_mode image_id backgrounds ;;
  let out := rasterization env args in
  Ok {| render_colors := apply_mask masks (render_colors out);
        render_alphas := render_alphas out;
        out_info := out_info out |}.

(** ** Compositing the shading render *)

(** Training, line 668: [colors = colors * shading_colors]. *)
Definition train_compose (colors shading_colors : list (list R))
  : result (list (list R)) :=
  bcast_rows Rmult colors shading_colors.

(** Evaluation, lines 959-961:
    [bkgd = torch.ones(1, 3)],
    [shading_colors = shading_colors + bkgd * (1.0 - shading_alphas)],
    [colors = colors * shading_colors]. *)
Definition eval_compose (colors shading_colors shading_alphas : list (list R))
  : result (list (list R)) :=
  let bkgd := [[1; 1; 1]] in
  white <- bcast_rows Rmult bkgd (map (map (fun a => 1 - a)) shading_alphas) ;;
  shading_colors' <- bcast_rows Rplus shading_colors white ;;
  bcast_rows Rmult colors shading_colors'.

Definition white_background : option (list (list R)) := Some [[1]].

Definition shading_of (r : Runner) : result ParameterDict :=
  match shading_splats r with
  | Some s => Ok s
  | None => Err (AttributeError "shading_splats")
  end.

Definition column (j : nat) (m : list (list R)) : list R :=
  map (fun row => nth j row 0) m.

Record Rendered : Type := {
  rd_colors : list (list R);
  rd_info : Info;
  rd_shading_info : option Info
}.

(** The forward pass of one training step, lines 618-685. *)
Definition train_render (env : Collaborators) (r : Runner) (step : Z) (data : Sample)
  : result Rendered :=
  let c := cfg r in
  let times :=
    map (fun t => t + randn env step 0%nat * time_gap env * time_noise_scale c)
        (s_time data) in
  out <- rasterize_splats env r (splats r) times (s_camera data) (s_mask data)
           None (s_image_id data) None ;;
  shaded <-
    (if use_shading c then
       let az := map (fun a => a + randn env step 1%nat * fst (sun_angle_std env)
                                    * angle_noise_scale c)
                     (column 0 (s_sun_angle data)) in
       let alt := map (fun a => a + randn env step 2%nat * snd (sun_angle_std env)
                                     * angle_noise_scale c)
                      (column 1 (s_sun_angle data)) in
       let times3 := (times ++ az ++ alt)%list in
       sh <- shading_of r ;;
       sout <- rasterize_splats env r sh times3 (s_camera data) (s_mask data)
                 None (s_image_id data) white_background ;;
       colors <- train_compose (render_colors out) (render_colors sout) ;;
       Ok (colors, Some (out_info sout))
     else Ok (render_colors out, None)) ;;
  let alphas := map (map (fun a => a / 255)) (s_alpha data) in
  colors <- bcast_rows Rmult (fst shaded) alphas ;;
  let colors' :=
    if use_bilagrid c then bilagrid_slice env colors (s_image_id data) else colors in
  Ok {| rd_colors := colors'; rd_info := out_info out; rd_shading_info := snd shaded |}.

(** One validation sample as [Runner.eval] reads it. *)
Record ValSample : Type := {
  v_camera : Camera;
  v_image : list (list R);
  v_mask : option (list bool);
  v_time : list R;
  v_sun_angles : list (list R)
}.

Definition row_at (i : nat) (m : list (list R)) : result (list R) :=
  match nth_error m i with
  | Some row => Ok row
  | None => Err (IndexError "index out of range")
  end.

Definition clamp01 (x : R) : R := Rmax 0 (Rmin x 1).

(** The render of one validation sample, lines 931-966. *)
Definition eval_render (env : Collaborators) (r : Runner) (data : ValSample)
  : result (list (list R)) :=
  let c := cfg r in
  let times := v_time data in
  out <- rasterize_splats env r (splats r) times (v_camera data) (v_mask data)
           None 0%Z None ;;
  colors <-
    (if use_shading c then
       a0 <- row_at 0 (v_sun_angles data) ;;
       a1 <- row_at 1 (v_sun_angles data) ;;
       let times3 := (times ++ a0 ++ a1)%list in
       sh <- shading_of r ;;
       sout <- rasterize_splats env r sh times3 (v_camera data) (v_mask data)
                 None 0%Z white_background ;;
       eval_compose (render_colors out) (render_colors sout) (render_alphas sout)
     else Ok (render_colors out)) ;;
  Ok (map (map clamp01) colors).

(** ** Learning-rate schedules (torch.optim.lr_scheduler) *)

(** The optimizer a schedule drives. *)
Inductive OptRef : Type := MeansOpt | BilGridOpt.

Fixpoint update {V : Type} (k : string) (f : V -> V) (d : list (string * V))
  : list (string * V) :=
  match d with
  | [] => []
  | (k', v) :: d' =>
      if String.eqb k k' then (k', f v) :: d' else (k', v) :: update k f d'
  end.

(** [self.optimizers["means"]] and [self.bil_grid_optimizers[0]] *)
Definition get_lr (r : Runner) (o : OptRef) : result R :=
  match o with
  | MeansOpt =>
      match lookup "means" (optimizers r) with
      | Some opt => Ok (opt_lr opt)
      | None => Err (KeyError "means")
      end
  | BilGridOpt =>
      match bil_grid_optimizers r with
      | opt :: _ => Ok (opt_lr opt)
      | [] => Err (IndexError "list index out of range")
      end
  end.

Definition set_optimizers (r : Runner) (os : list (string * Optimizer)) : Runner :=
  {| cfg := cfg r; scene_scale := scene_scale r; splats := splats r;
     optimizers := os;
     shading_splats := shading_splats r; shading_optimizers := shading_optimizers r;
     strategy_state := strategy_state r;
     shading_strategy_state := shading_strategy_state r;
     compression_method := compression_method r; app_module := app_module r;
     app_optimizers := app_optimizers r;
     bil_grid_optimizers := bil_grid_optimizers r |}.

Definition set_bil_grid_optimizers (r : Runner) (os : list Optimizer) : Runner :=
  {| cfg := cfg r; scene_scale := scene_scale r; splats := splats r;
     optimizers := optimizers r;
     shading_splats := shading_splats r; shading_optimizers := shading_optimizers r;
     strategy_state := strategy_state r;
     shading_strategy_state := shading_strategy_state r;
     compression_method := compression_method r; app_module := app_module r;
     app_optimizers := app_optimizers r;
     bil_grid_optimizers := os |}.

Definition set_lr (r : Runner) (o : OptRef) (lr : R) : Runner :=
  match o with
  | MeansOpt =>
      set_optimizers r (update "means" (fun opt => with_lr opt lr) (optimizers r))
  | BilGridOpt =>
      match bil_grid_optimizers r with
      | opt :: rest => set_bil_grid_optimizers r (with_lr opt lr :: rest)
      | [] => r
      end
  end.

(** [ExponentialLR(optimizer, gamma)] and
    [LinearLR(optimizer, start_factor, total_iters)] (end factor 1), each with
    its [last_epoch] counter. *)
Inductive BasicScheduler : Type :=
| ExponentialLR (target : OptRef) (gamma : R) (last_epoch : nat)
| LinearLR (target : OptRef) (start_factor : R) (total_iters : nat) (last_epoch : nat).

(** A scheduler of the [schedulers] list with its [_last_lr]. *)
Inductive Scheduler : Type :=
| Plain (s : BasicScheduler) (last_lr : R)
| ChainedScheduler (ss : list BasicScheduler) (last_lr : R).

Definition target_of (s : BasicScheduler) : OptRef :=
  match s with
  | ExponentialLR t _ _ => t
  | LinearLR t _ _ _ => t
  end.

(** The factor a basic scheduler multiplies the optimizer's current learning
    rate by when it moves to epoch [e] (torch's chainable form). *)
Definition step_factor (s : BasicScheduler) (e : nat) : R :=
  match s with
  | ExponentialLR _ gamma _ => gamma
  | LinearLR _ start total _ =>
      if Nat.ltb total e then 1
      else 1 + (1 - start) / (INR total * start + INR (e - 1) * (1 - start))
  end.

Definition advance_epoch (s : BasicScheduler) : BasicScheduler :=
  match s with
  | ExponentialLR t g e => ExponentialLR t g (S e)
  | LinearLR t st tot e => LinearLR t st tot (S e)
  end.

Definition epoch_of (s : BasicScheduler) : nat :=
  match s with
  | ExponentialLR _ _ e => e
  | LinearLR _ _ _ e => e
  end.

(** [scheduler.step()] of a basic scheduler *)
Definition basic_step (s : BasicScheduler) (r : Runner) : result (BasicScheduler * Runner) :=
  lr <- get_lr r (target_of s) ;;
  let s' := advance_epoch s in
  Ok (s', set_lr r (target_of s) (lr * step_factor s (epoch_of s'))).

Fixpoint chained_step (ss : list BasicScheduler) (r : Runner)
  : result (list BasicScheduler * Runner) :=
  match ss with
  | [] => Ok ([], r)
  | s :: rest =>
      p <- basic_step s r ;;
      q <- chained_step rest (snd p) ;;
      Ok (fst p :: fst q, snd q)
  end.

Definition scheduler_step (s : Scheduler) (r : Runner) : result (Scheduler * Runner) :=
  match s with
  | Plain b _ =>
      p <- basic_step b r ;;
      lr <- get_lr (snd p) (target_of b) ;;
      Ok (Plain (fst p) lr, snd p)
  | ChainedScheduler ss last =>
      p <- chained_step ss r ;;
      lr <- match rev ss with
            | b :: _ => get_lr (snd p) (target_of b)
            | [] => Ok last
            end ;;
      Ok (ChainedScheduler (fst p) lr, snd p)
  end.

Definition get_last_lr (s : Scheduler) : R :=
  match s with
  | Plain _ lr => lr
  | ChainedScheduler _ lr => lr
  end.

(** Lines 554-579 of [train]: the schedule list.  Constructing a [LinearLR]
    scales the optimizer's learning rate by its start factor. *)
Definition build_schedulers (r : Runner) : result (list Scheduler * Runner) :=
  let c := cfg r in
  if Z.eqb (max_steps c) 0 then Err ZeroDivisionError
  else
    let gamma := Rpower (1 / 100) (1 / IZR (max_steps c)) in
    lr0 <- get_lr r MeansOpt ;;
    let means_sched := Plain (ExponentialLR MeansOpt gamma 0) lr0 in
    if use_bilagrid c then
      base <- get_lr r BilGridOpt ;;
      let r' := set_lr r BilGridOpt (base * (1 / 100)) in
      Ok ([ means_sched;
            ChainedScheduler [ LinearLR BilGridOpt (1 / 100) 1000 0;
                               ExponentialLR BilGridOpt gamma 0 ]
                             (base * (1 / 100)) ],
          r')
    else Ok ([ means_sched ], r).

(** [for scheduler in schedulers: scheduler.step()] *)
Fixpoint step_all (ss : list Scheduler) (r : Runner) : result (list Scheduler * Runner) :=
  match ss with
  | [] => Ok ([], r)
  | s :: rest =>
      p <- scheduler_step s r ;;
      q <- step_all rest (snd p) ;;
      Ok (fst p :: fst q, snd q)
  end.

(** [n] consecutive advances of every schedule *)
Fixpoint advance_schedules (n : nat) (ss : list Scheduler) (r : Runner)
  : result (list Scheduler * Runner) :=
  match n with
  | O => Ok (ss, r)
  | S n' =>
      p <- step_all ss r ;;
      advance_schedules n' (fst p) (snd p)
  end.

(** The linear warm-up in closed form: from 0.01 to 1 over 1000 steps. *)
Definition warmup_factor (k : nat) : R :=
  1 / 100 + (1 - 1 / 100) * INR (Nat.min k 1000) / 1000.

(** ** One training iteration as a trace of collaborator calls *)

Inductive Owner : Type :=
| OwnPop (p : Population)
| OwnApp
| OwnBilGrid.

(** Values stored in the checkpoint dictionary. *)
Inductive CkValue : Type :=
| CkInt (n : Z)
| CkStateDict (d : ParameterDict).

Inductive Event : Type :=
| EvForward (pop : Population)
| EvPreBackward (pop : Population) (step : Z)
| EvBackward (step : Z)
| EvSaveCheckpoint (data : list (string * CkValue))
| EvSparsify (key : string)
| EvOptimizerStep (owner : Owner) (name : string) (mask : option (list bool))
| EvZeroGrad (owner : Owner) (name : string)
| EvSchedulerStep
| EvPostBackward (pop : Population) (variant : Strategy) (step : Z) (arg : PostArg)
| EvEval (step : Z)
| EvRunCompression (step : Z).

(** Computations that may raise, with the calls issued so far. *)
Definition M (A : Type) : Type := (list Event * result A)%type.

Definition ret {A : Type} (a : A) : M A := ([], Ok a).
Definition emit (e : Event) : M unit := ([e], Ok tt).
Definition lift {A : Type} (r : result A) : M A := ([], r).
Definition raise {A : Type} (e : Exn) : M A := ([], Err e).

Definition bindM {A B : Type} (m : M A) (k : A -> M B) : M B :=
  match m with
  | (tr, Ok a) => let (tr', b) := k a in ((tr ++ tr')%list, b)
  | (tr, Err e) => (tr, Err e)
  end.

Notation "x <~ m ;; k" := (bindM m (fun x => k))
  (at level 61, m at next level, right associativity).

Fixpoint forM {A S : Type} (f : A -> S -> M S) (l : list A) (s : S) : M S :=
  match l with
  | [] => ret s
  | a :: l' => s' <~ f a s ;; forM f l' s'
  end.

Definition set_splats (r : Runner) (p : ParameterDict) : Runner :=
  {| cfg := cfg r; scene_scale := scene_scale r; splats := p;
     optimizers := optimizers r;
     shading_splats := shading_splats r; shading_optimizers := shading_optimizers r;
     strategy_state := strategy_state r;
     shading_strategy_state := shading_strategy_state r;
     compression_method := compression_method r; app_module := app_module r;
     app_optimizers := app_optimizers r;
     bil_grid_optimizers := bil_grid_optimizers r |}.

Definition set_shading_splats (r : Runner) (p : ParameterDict) : Runner :=
  {| cfg := cfg r; scene_scale := scene_scale r; splats := splats r;
     optimizers := optimizers r;
     shading_splats := Some p; shading_optimizers := shading_optimizers r;
     strategy_state := strategy_state r;
     shading_strategy_state := shading_strategy_state r;
     compression_method := compression_method r; app_module := app_module r;
     app_optimizers := app_optimizers r;
     bil_grid_optimizers := bil_grid_optimizers r |}.

Definition set_strategy_state (r : Runner) (st : StrategyState) : Runner :=
  {| cfg := cfg r; scene_scale := scene_scale r; splats := splats r;
     optimizers := optimizers r;
     shading_splats := shading_splats r; shading_optimizers := shading_optimizers r;
     strategy_state := st;
     shading_strategy_state := shading_strategy_state r;
     compression_method := compression_method r; app_module := app_module r;
     app_optimizers := app_optimizers r;
     bil_grid_optimizers := bil_grid_optimizers r |}.

Definition set_shading_strategy_state (r : Runner) (st : StrategyState) : Runner :=
  {| cfg := cfg r; scene_scale := scene_scale r; splats := splats r;
     optimizers := optimizers r;
     shading_splats := shading_splats r; shading_optimizers := shading_optimizers r;
     strategy_state := strategy_state r;
     shading_strategy_state := Some st;
     compression_method := compression_method r; app_module := app_module r;
     app_optimizers := app_optimizers r;
     bil_grid_optimizers := bil_grid_optimizers r |}.

Definition shading_state_of (r : Runner) : result StrategyState :=
  match shading_strategy_state r with
  | Some st => Ok st
  | None => Err (AttributeError "shading_strategy_state")
  end.

Definition shading_info_of (rd : Rendered) : result Info :=
  match rd_shading_info rd with
  | Some i => Ok i
  | None => Err (NameError "shading_info")
  end.

(** [step in [i - 1 for i in steps]] *)
Definition is_step_of (step : Z) (steps : list Z) : bool :=
  existsb (fun i => Z.eqb step (i - 1)) steps.

(** Lines 687-702 *)
Definition pre_backward (env : Collaborators) (r : Runner) (step : Z) (rd : Rendered)
  : M Runner :=
  let c := cfg r in
  let st := step_pre_backward env (strategy c) (strategy_state r) step (rd_info rd) in
  _ <~ emit (EvPreBackward Albedo step) ;;
  let r1 := set_strategy_state r st in
  if use_shading c then
    sst <~ lift (shading_state_of r1) ;;
    sinfo <~ lift (shading_info_of rd) ;;
    let sst' := step_pre_backward env (shading_strategy c) sst step sinfo in
    _ <~ emit (EvPreBackward Shading step) ;;
    ret (set_shading_strategy_state r1 sst')
  else ret r1.

(** Lines 790-792: the checkpoint dictionary. *)
Definition checkpoint_data (r : Runner) (step : Z) : result (list (string * CkValue)) :=
  let data := [ ("step", CkInt step); ("splats", CkStateDict (splats r)) ] in
  if app_opt (cfg r) then
    match app_module r with
    | Some m => Ok (data ++ [ ("app_module", CkStateDict m) ])%list
    | None => Err (AttributeError "app_module")
    end
  else Ok data.

(** Lines 776-793 *)
Definition save_checkpoint (r : Runner) (step : Z) : M unit :=
  let c := cfg r in
  if is_step_of step (save_steps c) || Z.eqb step (max_steps c - 1) then
    data <~ lift (checkpoint_data r step) ;;
    emit (EvSaveCheckpoint data)
  else ret tt.

(** Lines 795-808 *)
Definition sparsify_gradients (r : Runner) : M unit :=
  let c := cfg r in
  if sparse_grad c then
    if packed c then
      forM (fun k (_ : unit) => emit (EvSparsify k)) (keys (splats r)) tt
    else raise (AssertionError "Sparse gradients only work with packed mode.")
  else ret tt.

(** [(info["radii"] > 0).all(-1).any(0)] *)
Definition radii_visible (radii' : list (list (list Z))) : list bool :=
  let per_camera := map (map (forallb (fun x => Z.ltb 0 x))) radii' in
  match per_camera with
  | [] => []
  | first :: rest => fold_left (map2 orb) rest first
  end.

(** [zeros_like(opacities).scatter_(0, gaussian_ids, 1)] *)
Definition scatter_mask (n : nat) (ids : list nat) : result (list bool) :=
  if forallb (fun i => Nat.ltb i n) ids
  then Ok (map (fun i => existsb (Nat.eqb i) ids) (seq 0 n))
  else Err (RuntimeError "index out of bounds").

(** Lines 810-818: the visibility mask, built from the albedo pass's [info]
    and the albedo population's opacities. *)
Definition visibility_mask (r : Runner) (info : Info) : result (option (list bool)) :=
  let c := cfg r in
  if visible_adam c then
    if packed c then
      ops <- get1 (splats r) "opacities" ;;
      m <- scatter_mask (length ops) (gaussian_ids info) ;;
      Ok (Some m)
    else Ok (Some (radii_visible (radii info)))
  else Ok None.

Definition step_param (env : Collaborators) (pop : Population) (step : Z)
    (mask : option (list bool)) (o : string * Optimizer) (params : ParameterDict)
  : M ParameterDict :=
  _ <~ emit (EvOptimizerStep (OwnPop pop) (fst o) mask) ;;
  _ <~ emit (EvZeroGrad (OwnPop pop) (fst o)) ;;
  ret (update (fst o) (optimizer_step env pop (snd o) mask step) params).

Definition step_aux (owner : Owner) (o : Optimizer) (_ : unit) : M unit :=
  _ <~ emit (EvOptimizerStep owner (opt_name o) None) ;;
  emit (EvZeroGrad owner (opt_name o)).

(** Lines 820-839: the optimizer loops.  The shading loop passes the same
    [visibility_mask] variable as the albedo loop. *)
Definition optimize (env : Collaborators) (r : Runner) (step : Z)
    (mask : option (list bool)) : M Runner :=
  let c := cfg r in
  p <~ forM (step_param env Albedo step mask) (optimizers r) (splats r) ;;
  let r1 := set_splats r p in
  _ <~ forM (step_aux OwnApp) (app_optimizers r1) tt ;;
  _ <~ forM (step_aux OwnBilGrid) (bil_grid_optimizers r1) tt ;;
  if use_shading c then
    sh <~ lift (shading_of r1) ;;
    sp <~ forM (step_param env Shading step mask) (shading_optimizers r1) sh ;;
    ret (set_shading_splats r1 sp)
  else ret r1.

(** Lines 840-841 *)
Definition step_schedulers (scheds : list Scheduler) (r : Runner)
  : M (list Scheduler * Runner) :=
  p <~ lift (step_all scheds r) ;;
  _ <~ forM (fun (_ : Scheduler) (_ : unit) => emit EvSchedulerStep) scheds tt ;;
  ret p.

(** [schedulers[0].get_last_lr()[0]] *)
Definition live_lr (scheds : list Scheduler) : result R :=
  match scheds with
  | s :: _ => Ok (get_last_lr s)
  | [] => Err (IndexError "list index out of range")
  end.

Definition post_arg (s : Strategy) (c : Config) (scheds : list Scheduler) : result PostArg :=
  match s with
  | DefaultStrategy _ => Ok (ArgPacked (packed c))
  | MCMCStrategy _ => lr <- live_lr scheds ;; Ok (ArgLr lr)
  end.

(** Lines 843-886: both controllers' [step_post_backward], each dispatched on
    its own strategy object. *)
Definition post_backward (env : Collaborators) (r : Runner) (scheds : list Scheduler)
    (step : Z) (rd : Rendered) : M Runner :=
  let c := cfg r in
  arg <~ lift (post_arg (strategy c) c scheds) ;;
  _ <~ emit (EvPostBackward Albedo (strategy c) step arg) ;;
  let res := step_post_backward env (strategy c) arg step (rd_info rd)
               (splats r) (strategy_state r) in
  let r1 := set_strategy_state (set_splats r (fst res)) (snd res) in
  if use_shading c then
    sarg <~ lift (post_arg (shading_strategy c) c scheds) ;;
    sh <~ lift (shading_of r1) ;;
    sst <~ lift (shading_state_of r1) ;;
    sinfo <~ lift (shading_info_of rd) ;;
    _ <~ emit (EvPostBackward Shading (shading_strategy c) step sarg) ;;
    let sres := step_post_backward env (shading_strategy c) sarg step sinfo sh sst in
    ret (set_shading_strategy_state (set_shading_splats r1 (fst sres)) (snd sres))
  else ret r1.

(** Lines 888-895.  [self.eval(step)] is recorded as a call: what can fail
    inside it is left to [Runner_eval] below.  [render_traj] starts by
    reading [self.cfg.disable_video], a field [Config] does not have, so the
    step does not complete whether or not the evaluation itself does; the
    error recorded here is the one of an evaluation that completes. *)
Definition periodic_eval (r : Runner) (step : Z) : M unit :=
  let c := cfg r in
  _ <~ (if is_step_of step (eval_steps c)
        then _ <~ emit (EvEval step) ;; raise (AttributeError "disable_video")
        else ret tt) ;;
  match compression c with
  | Some _ => if is_step_of step (eval_steps c) then emit (EvRunCompression step) else ret tt
  | None => ret tt
  end.

(** The body of the training loop, lines 594-908. *)
Definition train_step (env : Collaborators) (step : Z)
    (s : list Scheduler * Runner) : M (list Scheduler * Runner) :=
  let scheds := fst s in
  let r := snd s in
  let data := trainloader env step in
  rd <~ lift (train_render env r step data) ;;
  _ <~ emit (EvForward Albedo) ;;
  _ <~ (if use_shading (cfg r) then emit (EvForward Shading) else ret tt) ;;
  r1 <~ pre_backward env r step rd ;;
  _ <~ emit (EvBackward step) ;;
  _ <~ save_checkpoint r1 step ;;
  _ <~ sparsify_gradients r1 ;;
  mask <~ lift (visibility_mask r1 (rd_info rd)) ;;
  r2 <~ optimize env r1 step mask ;;
  p <~ step_schedulers scheds r2 ;;
  r3 <~ post_backward env (snd p) (fst p) step rd ;;
  _ <~ periodic_eval r3 step ;;
  ret (fst p, r3).

Definition steps_of (max_steps' : Z) : list Z :=
  map Z.of_nat (seq 0 (Z.to_nat max_steps')).

(** [Runner.train] *)
Definition train (env : Collaborators) (r : Runner) : M (list Scheduler * Runner) :=
  s <~ lift (build_schedulers r) ;;
  forM (train_step env) (steps_of (max_steps (cfg r))) s.

(** [main] on the training branch ([cfg.ckpt is None]): construct, then train. *)
Definition main (env : Collaborators) (sample_init : bool -> nat -> InitSample)
    (c : Config) : M (list Scheduler * Runner) :=
  r <~ lift (Runner_init sample_init c) ;;
  train env r.

(** ** Reading traces *)

(** The stage of the iteration an event belongs to, in the order the
    specification lists the stages. *)
Definition phase_rank (e : Event) : nat :=
  match e with
  | EvForward _ => 0
  | EvPreBackward _ _ => 1
  | EvBackward _ => 2
  | EvSaveCheckpoint _ => 3
  | EvSparsify _ => 4
  | EvOptimizerStep _ _ _ => 5
  | EvZeroGrad _ _ => 5
  | EvSchedulerStep => 6
  | EvPostBackward _ _ _ _ => 7
  | EvEval _ => 8
  | EvRunCompression _ => 8
  end.

Definition is_update (e : Event) : bool :=
  match e with
  | EvOptimizerStep _ _ _ | EvZeroGrad _ _ | EvSchedulerStep => true
  | _ => false
  end.

(** The calls one optimizer loop issues. *)
Definition param_events (pop : Population) (mask : option (list bool))
    (opts : list (string * Optimizer)) : list Event :=
  flat_map (fun o => [EvOptimizerStep (OwnPop pop) (fst o) mask;
                      EvZeroGrad (OwnPop pop) (fst o)]) opts.

Definition aux_events (owner : Owner) (opts : list Optimizer) : list Event :=
  flat_map (fun o => [EvOptimizerStep owner (opt_name o) None;
                      EvZeroGrad owner (opt_name o)]) opts.

(** A checkpoint dictionary holds a population when one of its entries is
    that population's parameter dictionary. *)
Definition checkpoint_holds (data : list (string * CkValue)) (p : ParameterDict) : Prop :=
  exists k, lookup k data = Some (CkStateDict p).

(** The optimizer and schedule calls of one complete iteration. *)
Definition update_events (r : Runner) (mask : option (list bool))
    (scheds : list Scheduler) : list Event :=
  (param_events Albedo mask (optimizers r)
   ++ aux_events OwnApp (app_optimizers r)
   ++ aux_events OwnBilGrid (bil_grid_optimizers r)
   ++ (if use_shading (cfg r)
       then match shading_splats r with
            | Some _ => param_events Shading mask (shading_optimizers r)
            | None => []
            end
       else [])
   ++ repeat EvSchedulerStep (length scheds))%list.

(** A trace whose events follow the order of the stages. *)
Definition ordered (tr : list Event) : Prop :=
  StronglySorted (fun x y => (phase_rank x <= phase_rank y)%nat) tr.

(** Whether a computation ended in an [AssertionError]. *)
Definition raises_assertion {A : Type} (x : result A) : bool :=
  match x with
  | Err (AssertionError _) => true
  | _ => false
  end.

(** ** A one-primitive scene used to run the definitions *)

Definition demo_mcmc : Strategy :=
  MCMCStrategy {| cap_max := 1000000; m_refine_start_iter := 500;
                  m_refine_stop_iter := 25000; m_refine_every := 100 |}.

Definition demo_default : Strategy :=
  DefaultStrategy {| absgrad := false; d_refine_start_iter := 500;
                     d_refine_stop_iter := 15000; d_refine_every := 100;
                     reset_every := 100000 |}.

Definition demo_cfg (primary shading : Strategy)
    (packed' sparse_grad' visible_adam' use_bilagrid' : bool)
    (compression' : option string) : Config :=
  {| compression := compression';
     max_steps := 2;
     eval_steps := [];
     save_steps := [1%Z];
     use_shading := true;
     time_noise_scale := 1;
     angle_noise_scale := 4 / 10;
     init_num_pts := 1;
     init_extent := 1;
     init_opa := 1 / 2;
     init_scale := 1 / 10;
     near_plane := 1 / 100;
     far_plane := 10000000000;
     strategy := primary;
     shading_strategy := shading;
     antialiased := true;
     packed := packed';
     sparse_grad := sparse_grad';
     visible_adam := visible_adam';
     means_lr := 16 / 100000;
     scales_lr := 5 / 1000;
     opacities_lr := 5 / 100;
     quats_lr := 1 / 1000;
     sh0_lr := 25 / 10000;
     app_opt := false;
     use_bilagrid := use_bilagrid';
     lpips_net := "alex" |}.

Definition demo_sample_init (use_shading' : bool) (n : nat) : InitSample :=
  {| init_points := repeat [0; 0; 1] n;
     init_colors := repeat (if use_shading' then [0] else [0; 0; 0]) n;
     init_log_scales := repeat [0; 0; 0] n;
     init_quats := repeat [1; 0; 0; 0] n;
     init_times := repeat (if use_shading' then [0; 0; 0] else [0]) n;
     init_time_scales := repeat (if use_shading' then [0; 0; 0] else [0]) n |}.

Definition demo_camera : Camera :=
  {| camtoworlds := [[1; 0; 0; 0]; [0; 1; 0; 0]; [0; 0; 1; 0]; [0; 0; 0; 1]];
     Ks := [[1; 0; 0]; [0; 1; 0]; [0; 0; 1]];
     width := 1;
     height := 1 |}.

(** One pixel; the albedo pass sees its primitive, the shading pass covers
    half of the pixel and projects its primitive to a zero radius. *)
Definition demo_rasterization (args : RasterArgs) : RasterOut :=
  match ra_backgrounds args with
  | None =>
      {| render_colors := [[1 / 2; 1 / 2; 1 / 2]];
         render_alphas := [[1]];
         out_info := {| radii := [[[1%Z; 1%Z]]]; gaussian_ids := [0%nat] |} |}
  | Some _ =>
      {| render_colors := [[3 / 4]];
         render_alphas := [[1 / 2]];
         out_info := {| radii := [[[0%Z; 0%Z]]]; gaussian_ids := [] |} |}
  end.

Definition demo_sample : Sample :=
  {| s_camera := demo_camera;
     s_image := [[255; 255; 255]];
     s_image_id := 0;
     s_mask := None;
     s_time := [0];
     s_sun_angle := [[0; 0]];
     s_alpha := [[255]] |}.

Definition demo_val_sample : ValSample :=
  {| v_camera := demo_camera;
     v_image := [[255; 255; 255]];
     v_mask := None;
     v_time := [0];
     v_sun_angles := [[0]; [0]] |}.

Definition demo_env : Collaborators :=
  {| rasterization := demo_rasterization;
     app_module_forward := fun features _ => features;
     bilagrid_slice := fun colors _ => colors;
     optimizer_step := fun _ _ _ _ p => p;
     step_pre_backward := fun _ st _ _ => st;
     step_post_backward := fun _ _ _ _ p st => (p, st);
     trainloader := fun _ => demo_sample;
     randn := fun _ _ => 0;
     time_gap := 1;
     sun_angle_std := (1, 1) |}.

(** Two primitives with one temporal dimension. *)
Definition demo_population : ParameterDict :=
  [ ("means", T2 [[0; 0; 1]; [1; 0; 1]]);
    ("scales", T2 [[0; 0; 0]; [0; 0; 0]]);
    ("quats", T2 [[1; 0; 0; 0]; [1; 0; 0; 0]]);
    ("opacities", T1 [0; 1]);
    ("times", T2 [[0]; [1]]);
    ("time_scales", T2 [[0]; [0]]);
    ("colors", T2 [[0; 0; 0]; [0; 0; 0]]) ].


(** ** Further definitions for the properties of the whole run *)

Definition is_backward (e : Event) : bool :=
  match e with
  | EvBackward _ => true
  | _ => false
  end.

(** The one-primitive configuration with a chosen number of steps and chosen
    evaluation steps. *)
Definition demo_cfg_steps (n : Z) (evals : list Z) : Config :=
  {| compression := None;
     max_steps := n;
     eval_steps := evals;
     save_steps := [];
     use_shading := true;
     time_noise_scale := 1;
     angle_noise_scale := 4 / 10;
     init_num_pts := 1;
     init_extent := 1;
     init_opa := 1 / 2;
     init_scale := 1 / 10;
     near_plane := 1 / 100;
     far_plane := 10000000000;
     strategy := demo_mcmc;
     shading_strategy := demo_mcmc;
     antialiased := true;
     packed := false;
     sparse_grad := false;
     visible_adam := false;
     means_lr := 16 / 100000;
     scales_lr := 5 / 1000;
     opacities_lr := 5 / 100;
     quats_lr := 1 / 1000;
     sh0_lr := 25 / 10000;
     app_opt := false;
     use_bilagrid := false;
     lpips_net := "alex" |}.

(** A trace in stage order none of whose events belongs to a stage before
    [lo]. *)
Definition staged (lo : nat) (tr : list Event) : Prop :=
  ordered tr /\ Forall (fun e => (lo <= phase_rank e)%nat) tr.

(** The search loop of [index_of], started at position [n]. *)
Section IndexFrom.
Variable p : nat * nat.

Fixpoint index_from (l : list (nat * nat)) (n : nat) : option nat :=
  match l with
  | [] => None
  | q :: l' =>
      if Nat.eqb (fst p) (fst q) && Nat.eqb (snd p) (snd q) then Some n
      else index_from l' (S n)
  end.

End IndexFrom.

(** The one-primitive configuration with both noise scales at zero, and
    collaborators whose random draws are not zero. *)
Definition demo_cfg_quiet : Config :=
  {| compression := None;
     max_steps := 2;
     eval_steps := [];
     save_steps := [];
     use_shading := true;
     time_noise_scale := 0;
     angle_noise_scale := 0;
     init_num_pts := 1;
     init_extent := 1;
     init_opa := 1 / 2;
     init_scale := 1 / 10;
     near_plane := 1 / 100;
     far_plane := 10000000000;
     strategy := demo_mcmc;
     shading_strategy := demo_mcmc;
     antialiased := true;
     packed := false;
     sparse_grad := false;
     visible_adam := false;
     means_lr := 16 / 100000;
     scales_lr := 5 / 1000;
     opacities_lr := 5 / 100;
     quats_lr := 1 / 1000;
     sh0_lr := 25 / 10000;
     app_opt := false;
     use_bilagrid := false;
     lpips_net := "alex" |}.

Definition demo_env_noisy : Collaborators :=
  {| rasterization := demo_rasterization;
     app_module_forward := fun features _ => features;
     bilagrid_slice := fun colors _ => colors;
     optimizer_step := fun _ _ _ _ p => p;
     step_pre_backward := fun _ st _ _ => st;
     step_post_backward := fun _ _ _ _ p st => (p, st);
     trainloader := fun _ => demo_sample;
     randn := fun _ _ => 3;
     time_gap := 5;
     sun_angle_std := (2, 7) |}.

(** ** The evaluation-only branch of [main] (lines 1231-1243) *)

(** A checkpoint file as [torch.load] returns it. *)
Definition Checkpoint : Type := list (string * CkValue).

(** [torch.cat] of two tensors along dimension 0: the tensors have the same
    number of dimensions and the same trailing sizes; a 1-D tensor without
    entries is skipped. *)
Definition cat2 (a b : Tensor) : result Tensor :=
  match a, b with
  | T1 x, T1 y => Ok (T1 (x ++ y)%list)
  | T2 x, T2 y =>
      if rows_of_width (length (hd [] (x ++ y)%list)) (x ++ y)%list
      then Ok (T2 (x ++ y)%list)
      else Err (RuntimeError "Sizes of tensors must match except in dimension 0")
  | T1 [], T2 y => Ok (T2 y)
  | T2 x, T1 [] => Ok (T2 x)
  | _, _ => Err (RuntimeError "Tensors must have same number of dimensions")
  end.

(** [torch.cat(tensors)].  On an empty list it raises; which exception
    depends on the installed torch (the repository pins no version), so the
    exception is [cat_empty], a parameter. *)
Fixpoint torch_cat (cat_empty : Exn) (ts : list Tensor) : result Tensor :=
  match ts with
  | [] => Err cat_empty
  | t :: rest =>
      match rest with
      | [] => Ok t
      | _ :: _ => u <- torch_cat cat_empty rest ;; cat2 t u
      end
  end.

(** [ckpt["splats"][k]] *)
Definition ckpt_tensor (k : string) (ckpt : Checkpoint) : result Tensor :=
  match lookup "splats" ckpt with
  | Some (CkStateDict d) =>
      match lookup k d with
      | Some t => Ok t
      | None => Err (KeyError k)
      end
  | Some (CkInt _) => Err (TypeError "'int' object is not subscriptable")
  | None => Err (KeyError "splats")
  end.

(** [ckpts[0]["step"]] *)
Definition ckpt_step (ckpts : list Checkpoint) : result Z :=
  match ckpts with
  | [] => Err (IndexError "list index out of range")
  | ckpt :: _ =>
      match lookup "step" ckpt with
      | Some (CkInt n) => Ok n
      | Some (CkStateDict _) => Err (TypeError "step")
      | None => Err (KeyError "step")
      end
  end.

(** Lines 1237-1239: every parameter group of the albedo population is
    replaced by the concatenation of the checkpoints' tensors of that name;
    the step is the first checkpoint's. *)
Definition load_checkpoints (cat_empty : Exn) (r : Runner) (ckpts : list Checkpoint)
  : result (Runner * Z) :=
  loaded <- mapM (fun kv : string * Tensor =>
                    ts <- mapM (ckpt_tensor (fst kv)) ckpts ;;
                    t <- torch_cat cat_empty ts ;;
                    Ok (fst kv, t))
                 (splats r) ;;
  step <- ckpt_step ckpts ;;
  Ok (set_splats r loaded, step).

(** [Runner.eval] (lines 911-1017) as far as it can fail on its own: every
    batch of the validation loader ([batch_size=1]) is rendered, then the
    time spent is divided by the number of batches.  The metrics and the
    files it writes are not modelled. *)
Definition Runner_eval (env : Collaborators) (r : Runner) (valset : list ValSample)
  : result unit :=
  _ <- mapM (eval_render env r) valset ;;
  if Nat.eqb (length valset) 0 then Err ZeroDivisionError else Ok tt.

(** [main] on the evaluation-only branch ([cfg.ckpt] is a list of files):
    construct, load, [eval], [render_traj], compression. *)
Definition main_from_checkpoints (env : Collaborators) (cat_empty : Exn)
    (sample_init : bool -> nat -> InitSample) (c : Config)
    (ckpts : list Checkpoint) (valset : list ValSample) : M unit :=
  r <~ lift (Runner_init sample_init c) ;;
  p <~ lift (load_checkpoints cat_empty r ckpts) ;;
  _ <~ emit (EvEval (snd p)) ;;
  _ <~ lift (Runner_eval env (fst p) valset) ;;
  _ <~ raise (A := unit) (AttributeError "disable_video") ;;
  match compression c with
  | Some _ => emit (EvRunCompression (snd p))
  | None => ret tt
  end.

(** A validation batch as the loader delivers it: one sample, so one row of
    sun angles. *)
Definition demo_val_batch : ValSample :=
  {| v_camera := demo_camera;
     v_image := [[255; 255; 255]];
     v_mask := None;
     v_time := [0];
     v_sun_angles := [[0; 0]] |}.

(** ** The time a viewer frame is rendered at (lines 1135-1148) *)

(** [bisect.bisect_left(a, x)] on a sorted list: the position of the first
    entry that is not below [x]. *)
Fixpoint bisect_left (a : list Z) (x : Z) : nat :=
  match a with
  | [] => 0%nat
  | y :: a' => if Z.ltb y x then S (bisect_left a' x) else 0%nat
  end.

(** [l[i]] for an index that is not negative *)
Definition index {A : Type} (l : list A) (i : nat) : result A :=
  match nth_error l i with
  | Some a => Ok a
  | None => Err (IndexError "list index out of range")
  end.

(** From [days_elapsed] on: the two recorded days around it and the linear
    interpolation between their normalized times. *)
Definition viewer_time (unique_days : list Z) (days_linspace : list R)
    (days_elapsed : Z) : result R :=
  let left_idx := Nat.max (bisect_left unique_days days_elapsed - 1) 0 in
  let right_idx :=
    if Nat.ltb (left_idx + 1) (length unique_days) then (left_idx + 1)%nat
    else left_idx in
  left <- index unique_days left_idx ;;
  right <- index unique_days right_idx ;;
  let t := (IZR days_elapsed - IZR left) / (IZR right - IZR left + 1 / 100000000) in
  l <- index days_linspace left_idx ;;
  r <- index days_linspace right_idx ;;
  Ok (l * (1 - t) + r * t).

(** ** The loss of one training step (lines 703-753) *)

(** The coefficients of the loss in [Config]. *)
Record LossConfig : Type := {
  ssim_lambda : R;
  opacity_reg : R;
  scale_reg : R
}.

Definition entries (t : Tensor) : list R :=
  match t with
  | T1 v => v
  | T2 m => concat m
  end.

(** [torch.abs(f(x)).mean()] on a tensor with at least one entry *)
Definition mean_abs (f : R -> R) (t : Tensor) : R :=
  fold_right Rplus 0 (map (fun x => Rabs (f x)) (entries t))
  / INR (length (entries t)).

(** [d[k]] *)
Definition group (d : ParameterDict) (k : string) : result Tensor :=
  match lookup k d with
  | Some t => Ok t
  | None => Err (KeyError k)
  end.

(** Every parameter group holds at least one value. *)
Definition populated (d : ParameterDict) : bool :=
  forallb (fun kv : string * Tensor =>
             match entries (snd kv) with
             | [] => false
             | _ :: _ => true
             end) d.

(** The photometric loss from its two external terms [F.l1_loss] and
    [1 - fused_ssim], the total variation of the bilateral grids, and the
    opacity and scale regularizers. *)
Definition training_loss (lc : LossConfig) (r : Runner) (l1loss ssimloss tv : R)
  : result R :=
  let c := cfg r in
  let loss0 := l1loss * (1 - ssim_lambda lc) + ssimloss * ssim_lambda lc in
  let loss1 := if use_bilagrid c then loss0 + 10 * tv else loss0 in
  loss2 <-
    (if Rlt_dec 0 (opacity_reg lc) then
       o <- group (splats r) "opacities" ;;
       let loss := loss1 + opacity_reg lc * mean_abs sigmoid o in
       if use_shading c then
         sh <- shading_of r ;;
         so <- group sh "opacities" ;;
         Ok (loss + opacity_reg lc * mean_abs sigmoid so)
       else Ok loss
     else Ok loss1) ;;
  if Rlt_dec 0 (scale_reg lc) then
    s <- group (splats r) "scales" ;;
    ts <- group (splats r) "time_scales" ;;
    let loss :=
      loss2 + scale_reg lc * mean_abs exp s + scale_reg lc * mean_abs exp ts in
    if use_shading c then
      sh <- shading_of r ;;
      ss <- group sh "scales" ;;
      sts <- group sh "time_scales" ;;
      Ok (loss + scale_reg lc * mean_abs exp ss + scale_reg lc * mean_abs exp sts)
    else Ok loss
  else Ok loss2.
(** ** The time scales a population is created with (lines 227-229) *)

(** [torch.std(times, dim=0, keepdim=True)]: the unbiased estimate, one
    value for each column. *)
Definition std_dim0 (times : list (list R)) : list R :=
  let N := length times in
  map (fun j =>
         let col := column j times in
         let mean := sum_last col / INR N in
         sqrt (sum_last (map (fun x => (x - mean) * (x - mean)) col) / INR (N - 1)))
      (seq 0 (length (hd [] times))).

(** [torch.log(torch.zeros_like(times) + std * 3)] *)
Definition created_time_scales (times : list (list R)) : list (list R) :=
  map (fun _ : list R => map (fun s => ln (0 + s * 3)) (std_dim0 times)) times.

(** Two primitives with different time labels, and the configuration that
    asks for two. *)
Definition demo_pair_times (use_shading' : bool) : list (list R) :=
  if use_shading' then [[0; 0; 0]; [1; 2; 3]] else [[0]; [1]].

Definition demo_pair_sample_init (use_shading' : bool) (n : nat) : InitSample :=
  {| init_points := [[0; 0; 1]; [1; 0; 1]];
     init_colors := repeat (if use_shading' then [0] else [0; 0; 0]) 2;
     init_log_scales := repeat [0; 0; 0] 2;
     init_quats := repeat [1; 0; 0; 0] 2;
     init_times := demo_pair_times use_shading';
     init_time_scales := created_time_scales (demo_pair_times use_shading') |}.

Definition demo_cfg_pair : Config :=
  {| compression := None;
     max_steps := 2;
     eval_steps := [];
     save_steps := [];
     use_shading := true;
     time_noise_scale := 1;
     angle_noise_scale := 4 / 10;
     init_num_pts := 2;
     init_extent := 1;
     init_opa := 1 / 2;
     init_scale := 1 / 10;
     near_plane := 1 / 100;
     far_plane := 10000000000;
     strategy := demo_mcmc;
     shading_strategy := demo_mcmc;
     antialiased := true;
     packed := false;
     sparse_grad := false;
     visible_adam := false;
     means_lr := 16 / 100000;
     scales_lr := 5 / 1000;
     opacities_lr := 5 / 100;
     quats_lr := 1 / 1000;
     sh0_lr := 25 / 10000;
     app_opt := false;
     use_bilagrid := false;
     lpips_net := "alex" |}.

(** ** The temporal kernel in binary32 *)






(** * Properties *)

(** ** Lists, broadcasting and the error monad *)

Lemma mapM_ok {A B : Type} (f : A -> result B) (g : A -> B) (l : list A) :
  (forall a, In a l -> f a = Ok (g a)) -> mapM f l = Ok (map g l).
Proof.
  induction l as [|a l IH]; intros H; simpl.
  - reflexivity.
  - rewrite (H a (or_introl eq_refl)). simpl.
    rewrite IH by (intros b Hb; apply H; right; exact Hb).
    reflexivity.
Qed.

Lemma map2_length {A B C : Type} (f : A -> B -> C) (xs : list A) (ys : list B) :
  length xs = length ys -> length (map2 f xs ys) = length xs.
Proof.
  intros H. unfold map2. rewrite length_map, length_combine, <- H.
  apply Nat.min_id.
Qed.

Lemma nth_error_map2 {A B C : Type} (f : A -> B -> C) :
  forall (xs : list A) (ys : list B) (i : nat) (x : A) (y : B),
    nth_error xs i = Some x -> nth_error ys i = Some y ->
    nth_error (map2 f xs ys) i = Some (f x y).
Proof.
  induction xs as [|a xs IH]; intros ys i x y Hx Hy.
  - destruct i; discriminate.
  - destruct ys as [|b ys]; [destruct i; discriminate|].
    destruct i as [|i]; simpl in *.
    + injection Hx as ->. injection Hy as ->. reflexivity.
    + apply IH; assumption.
Qed.

Lemma bcast2_same_length (f : R -> R -> R) (xs ys : list R) :
  length xs = length ys -> bcast2 f xs ys = Ok (map2 f xs ys).
Proof.
  intros H. unfold bcast2. rewrite H, Nat.eqb_refl. reflexivity.
Qed.

Lemma rows_of_width_In (d : nat) (m : list (list R)) (row : list R) :
  rows_of_width d m = true -> In row m -> length row = d.
Proof.
  unfold rows_of_width. rewrite forallb_forall. intros H Hin.
  apply Nat.eqb_eq. apply H. exact Hin.
Qed.

Lemma rows_of_width_nth (d : nat) (m : list (list R)) (i : nat) (row : list R) :
  rows_of_width d m = true -> nth_error m i = Some row -> length row = d.
Proof.
  intros H Hn. eapply rows_of_width_In; [exact H|].
  eapply nth_error_In; exact Hn.
Qed.

(** A query vector against [n] rows of its own width. *)
Lemma bcast_rows_query (f : R -> R -> R) (t : list R) (B : list (list R)) :
  rows_of_width (length t) B = true ->
  bcast_rows f [t] B = Ok (map (map2 f t) B).
Proof.
  intros HB. unfold bcast_rows.
  assert (Hrows : mapM (bcast2 f t) B = Ok (map (map2 f t) B)).
  { apply mapM_ok. intros b Hb. apply bcast2_same_length.
    symmetry. eapply rows_of_width_In; eassumption. }
  destruct (Nat.eqb (length [t]) (length B)) eqn:E.
  - apply Nat.eqb_eq in E. destruct B as [|b [|b' B]]; try discriminate.
    simpl. simpl in Hrows. exact Hrows.
  - simpl. exact Hrows.
Qed.

Lemma bcast_rows_same_shape (f : R -> R -> R) (d : nat) :
  forall A B : list (list R),
    length A = length B ->
    rows_of_width d A = true -> rows_of_width d B = true ->
    bcast_rows f A B = Ok (map2 (map2 f) A B).
Proof.
  intros A B HL HA HB. unfold bcast_rows. rewrite HL, Nat.eqb_refl.
  unfold map2 at 1. apply mapM_ok. intros [a b] Hin. simpl.
  apply bcast2_same_length.
  rewrite (rows_of_width_In d A a HA (in_combine_l _ _ _ _ Hin)).
  rewrite (rows_of_width_In d B b HB (in_combine_r _ _ _ _ Hin)).
  reflexivity.
Qed.

Lemma rows_of_width_map (d : nat) (g : list R -> list R) (m : list (list R)) :
  (forall row, length row = d -> length (g row) = d) ->
  rows_of_width d m = true -> rows_of_width d (map g m) = true.
Proof.
  intros Hg. unfold rows_of_width. rewrite !forallb_forall.
  intros H row Hin. apply in_map_iff in Hin as [row0 [<- Hin0]].
  apply Nat.eqb_eq. apply Hg. apply Nat.eqb_eq. apply H. exact Hin0.
Qed.

(** ** The temporal kernel *)

Lemma sigmoid_pos (x : R) : 0 < sigmoid x.
Proof.
  unfold sigmoid. pose proof (exp_pos (- x)).
  apply Rdiv_lt_0_compat; lra.
Qed.

Lemma sum_upto_ext (f g : nat -> R) (n : nat) :
  (forall j, (j < n)%nat -> f j = g j) -> sum_upto f n = sum_upto g n.
Proof.
  revert f g. induction n as [|n IH]; intros f g H; simpl.
  - reflexivity.
  - rewrite (H O) by lia. f_equal. apply IH. intros j Hj. apply H. lia.
Qed.

Lemma sum_upto_nonneg (f : nat -> R) (n : nat) :
  (forall j, (j < n)%nat -> 0 <= f j) -> 0 <= sum_upto f n.
Proof.
  revert f. induction n as [|n IH]; intros f H; simpl.
  - lra.
  - pose proof (H O ltac:(lia)).
    pose proof (IH (fun j => f (S j)) (fun j Hj => H (S j) ltac:(lia))). lra.
Qed.

Lemma sum_upto_zero (f : nat -> R) (n : nat) :
  (forall j, (j < n)%nat -> 0 <= f j) ->
  sum_upto f n = 0 -> forall j, (j < n)%nat -> f j = 0.
Proof.
  revert f. induction n as [|n IH]; intros f Hpos Hsum j Hj; [lia|].
  simpl in Hsum.
  pose proof (Hpos O ltac:(lia)) as H0.
  pose proof (sum_upto_nonneg (fun j => f (S j)) n
                (fun j Hj => Hpos (S j) ltac:(lia))) as Hrest.
  destruct j as [|j]; [lra|].
  apply (IH (fun j => f (S j))); try lia; try lra.
  intros k Hk. apply Hpos. lia.
Qed.

(** Raising one term of the sum and keeping the others raises the sum. *)
Lemma sum_upto_one_larger (f g : nat -> R) (n j : nat) :
  (j < n)%nat ->
  (forall k, (k < n)%nat -> k <> j -> f k = g k) ->
  f j < g j ->
  sum_upto f n < sum_upto g n.
Proof.
  revert f g j. induction n as [|n IH]; intros f g j Hj Hsame Hlt; [lia|].
  simpl. destruct j as [|j].
  - rewrite (sum_upto_ext (fun k => f (S k)) (fun k => g (S k)) n).
    + lra.
    + intros k Hk. apply Hsame; lia.
  - rewrite (Hsame O) by lia.
    apply Rplus_lt_compat_l.
    apply (IH (fun k => f (S k)) (fun k => g (S k)) j); try lia; try assumption.
    intros k Hk Hne. apply Hsame; lia.
Qed.

Lemma sum_squares_normalized_row :
  forall mean t log_scale : list R,
    length t = length mean -> length log_scale = length mean ->
    sum_last (map (fun x => x * x) (normalized_row t mean log_scale))
    = sum_upto (fun j => (deviation t mean log_scale j) ^ 2) (length mean).
Proof.
  induction mean as [|b mean IH]; intros t ls Ht Hls.
  - destruct t; [|discriminate]. reflexivity.
  - destruct t as [|a t]; [discriminate|].
    destruct ls as [|l ls]; [discriminate|].
    simpl in Ht, Hls.
    specialize (IH t ls ltac:(lia) ltac:(lia)).
    change (normalized_row (a :: t) (b :: mean) (l :: ls))
      with ((a - b) / exp l :: normalized_row t mean ls).
    change (length (b :: mean)) with (S (length mean)).
    cbn [map sum_last fold_right sum_upto].
    fold (sum_last (map (fun x => x * x) (normalized_row t mean ls))).
    rewrite IH.
    change (deviation (a :: t) (b :: mean) (l :: ls) 0) with ((a - b) / exp l).
    change (fun j => deviation (a :: t) (b :: mean) (l :: ls) (S j) ^ 2)
      with (fun j => deviation t mean ls j ^ 2).
    ring.
Qed.

Lemma kernel_row_is_spec (t mean log_scale : list R) :
  length t = length mean -> length log_scale = length mean ->
  exp (- 0.5 * sum_last (map (fun x => x * x) (normalized_row t mean log_scale)))
  = kernel_spec t mean log_scale.
Proof.
  intros Ht Hls. unfold kernel_spec.
  rewrite sum_squares_normalized_row by assumption. reflexivity.
Qed.

Lemma kernel_spec_pos (t mean log_scale : list R) : 0 < kernel_spec t mean log_scale.
Proof. apply exp_pos. Qed.

Lemma deviation_zero_iff (t mean log_scale : list R) (j : nat) :
  deviation t mean log_scale j = 0 <-> nth j t 0 = nth j mean 0.
Proof.
  unfold deviation. pose proof (exp_pos (nth j log_scale 0)) as He.
  split; intros H.
  - apply Rmult_eq_compat_r with (r := exp (nth j log_scale 0)) in H.
    unfold Rdiv in H. rewrite Rmult_assoc, Rinv_l, Rmult_1_r, Rmult_0_l in H by lra.
    lra.
  - rewrite H. unfold Rdiv. ring_simplify. reflexivity.
Qed.

Lemma kernel_spec_one_iff (t mean log_scale : list R) :
  length t = length mean ->
  kernel_spec t mean log_scale = 1 <-> t = mean.
Proof.
  intros Hlen. unfold kernel_spec. split; intros H.
  - rewrite <- exp_0 in H. apply exp_inv in H.
    assert (Hsum : sum_upto (fun j => deviation t mean log_scale j ^ 2) (length mean) = 0)
      by lra.
    apply (nth_ext t mean 0 0 Hlen). intros j Hj.
    apply (deviation_zero_iff t mean log_scale j).
    pose proof (sum_upto_zero _ _ (fun k _ => pow2_ge_0 (deviation t mean log_scale k))
                  Hsum j ltac:(lia)) as Hz.
    simpl in Hz. apply Rsqr_0_uniq. unfold Rsqr. lra.
  - subst t. rewrite <- exp_0. f_equal.
    rewrite (sum_upto_ext _ (fun _ => 0)).
    + assert (Hz : forall n, sum_upto (fun _ => 0) n = 0).
      { induction n as [|n IHn]; simpl; [reflexivity|]. rewrite IHn. lra. }
      rewrite Hz. lra.
    + intros j _.
      replace (deviation mean mean log_scale j) with 0; [simpl; ring|].
      symmetry. apply deviation_zero_iff. reflexivity.
Qed.

Lemma kernel_spec_decreasing (t t' mean log_scale : list R) (j : nat) :
  (j < length mean)%nat ->
  (forall k, k <> j -> nth k t' 0 = nth k t 0) ->
  Rabs (nth j t 0 - nth j mean 0) / exp (nth j log_scale 0)
  < Rabs (nth j t' 0 - nth j mean 0) / exp (nth j log_scale 0) ->
  kernel_spec t' mean log_scale < kernel_spec t mean log_scale.
Proof.
  intros Hj Hsame Hlt. unfold kernel_spec. apply exp_increasing.
  assert (Hs : sum_upto (fun k => deviation t mean log_scale k ^ 2) (length mean)
               < sum_upto (fun k => deviation t' mean log_scale k ^ 2) (length mean)).
  { apply (sum_upto_one_larger _ _ _ j Hj).
    - intros k _ Hk. unfold deviation. rewrite (Hsame k Hk). reflexivity.
    - pose proof (exp_pos (nth j log_scale 0)) as He.
      assert (Habs : forall x, Rabs (deviation x mean log_scale j)
                               = Rabs (nth j x 0 - nth j mean 0) / exp (nth j log_scale 0)).
      { intros x. unfold deviation, Rdiv. rewrite Rabs_mult.
        rewrite (Rabs_right (/ exp (nth j log_scale 0))); [reflexivity|].
        apply Rle_ge, Rlt_le, Rinv_0_lt_compat, He. }
      rewrite <- !Habs in Hlt.
      rewrite <- (pow2_abs (deviation t mean log_scale j)).
      rewrite <- (pow2_abs (deviation t' mean log_scale j)).
      pose proof (Rabs_pos (deviation t mean log_scale j)).
      nra. }
  lra.
Qed.

Lemma temporal_shape_inv (splats : ParameterDict) (n d : nat) :
  temporal_shape splats n d = true ->
  exists ops tm ts,
    lookup "opacities" splats = Some (T1 ops)
    /\ lookup "times" splats = Some (T2 tm)
    /\ lookup "time_scales" splats = Some (T2 ts)
    /\ length ops = n /\ length tm = n /\ length ts = n
    /\ rows_of_width d tm = true /\ rows_of_width d ts = true.
Proof.
  unfold temporal_shape. intros H.
  destruct (lookup "opacities" splats) as [[ops|]|]; try discriminate.
  destruct (lookup "times" splats) as [[|tm]|]; try discriminate.
  destruct (lookup "time_scales" splats) as [[|ts]|]; try discriminate.
  repeat (apply andb_prop in H; destruct H as [H ?]).
  exists ops, tm, ts.
  repeat split; try reflexivity; try (apply Nat.eqb_eq; assumption); assumption.
Qed.

(** On a well-shaped population the pipeline of lines 484-498 succeeds and
    yields, row by row, the coordinate-wise deltas over the time scales. *)
Lemma normalized_time_delta_rows (splats : ParameterDict) (t : list R) (n d : nat)
    (tm ts : list (list R)) :
  lookup "times" splats = Some (T2 tm) ->
  lookup "time_scales" splats = Some (T2 ts) ->
  length tm = n -> length ts = n ->
  rows_of_width d tm = true -> rows_of_width d ts = true ->
  length t = d ->
  normalized_time_delta splats t
  = Ok (map2 (map2 Rdiv) (map (map2 Rminus t) tm) (map (map exp) ts)).
Proof.
  intros Htm Hts Ln1 Ln2 Wtm Wts Lt.
  unfold normalized_time_delta, get2. rewrite Htm, Hts. simpl.
  rewrite bcast_rows_query by (rewrite Lt; exact Wtm). simpl.
  apply (bcast_rows_same_shape Rdiv d).
  - rewrite !length_map. lia.
  - apply rows_of_width_map; [|exact Wtm].
    intros row Hrow. rewrite map2_length; lia.
  - apply rows_of_width_map; [|exact Wts].
    intros row Hrow. rewrite length_map. exact Hrow.
Qed.

Lemma normalized_time_delta_nth (t : list R) (tm ts : list (list R)) (i : nat)
    (m ls : list R) :
  nth_error tm i = Some m -> nth_error ts i = Some ls ->
  nth_error (map2 (map2 Rdiv) (map (map2 Rminus t) tm) (map (map exp) ts)) i
  = Some (normalized_row t m ls).
Proof.
  intros Hm Hls. unfold normalized_row.
  apply nth_error_map2.
  - rewrite nth_error_map, Hm. reflexivity.
  - rewrite nth_error_map, Hls. reflexivity.
Qed.

(** The opacity array handed to the rasterizer, entry by entry. *)
Lemma effective_opacities_nth (splats : ParameterDict) (t : list R) (n d i : nat)
    (lo : R) (m ls : list R) :
  temporal_shape splats n d = true ->
  length t = d ->
  entry_of splats "opacities" i = Some lo ->
  row_of splats "times" i = Some m ->
  row_of splats "time_scales" i = Some ls ->
  exists out,
    effective_opacities splats t = Ok out
    /\ length out = n
    /\ nth_error out i = Some (sigmoid lo * kernel_spec t m ls).
Proof.
  intros Hshape Lt Hlo Hm Hls.
  destruct (temporal_shape_inv _ _ _ Hshape)
    as (ops & tm & ts & Eo & Etm & Ets & Lo & Ltm & Lts & Wtm & Wts).
  unfold entry_of in Hlo. rewrite Eo in Hlo.
  unfold row_of in Hm, Hls. rewrite Etm in Hm. rewrite Ets in Hls.
  unfold effective_opacities, get1, time_alpha. rewrite Eo. simpl.
  rewrite (normalized_time_delta_rows splats t n d tm ts) by assumption.
  simpl.
  set (rows := map2 (map2 Rdiv) (map (map2 Rminus t) tm) (map (map exp) ts)).
  assert (Lrows : length rows = n).
  { unfold rows. rewrite map2_length; rewrite !length_map; lia. }
  rewrite bcast2_same_length by (rewrite !length_map; lia).
  eexists. split; [reflexivity|]. split.
  - rewrite map2_length; rewrite !length_map; lia.
  - pose proof (rows_of_width_nth d tm i m Wtm Hm) as Lm.
    pose proof (rows_of_width_nth d ts i ls Wts Hls) as Lls.
    rewrite <- (kernel_row_is_spec t m ls) by lia.
    apply (nth_error_map2 Rmult).
    + rewrite nth_error_map, Hlo. reflexivity.
    + rewrite nth_error_map. unfold rows.
      rewrite (normalized_time_delta_nth t tm ts i m ls Hm Hls). reflexivity.
Qed.




(** What [rasterize_splats] hands to the rasterizer as opacities is the
    array of lines 477-502. *)
Lemma rasterizer_args_opacities (env : Collaborators) (r : Runner)
    (splats : ParameterDict) (t : list R) (cam : Camera)
    (mode : option RasterizeMode) (image_id : Z) (bg : option (list (list R)))
    (args : RasterArgs) :
  rasterizer_args env r splats t cam mode image_id bg = Ok args ->
  effective_opacities splats t = Ok (ra_opacities args).
Proof.
  unfold rasterizer_args.
  destruct (get2 splats "means"); cbn [bind]; [|discriminate].
  destruct (get2 splats "quats"); cbn [bind]; [|discriminate].
  destruct (get2 splats "scales"); cbn [bind]; [|discriminate].
  destruct (effective_opacities splats t); cbn [bind]; [|discriminate].
  match goal with |- bind ?c _ = _ -> _ => destruct c end; cbn [bind]; [|discriminate].
  intros H. injection H as <-. reflexivity.
Qed.




(** Evaluate the model on a concrete input, leaving real arithmetic as it
    stands. *)
Ltac run_model :=
  cbv -[Rplus Rmult Rminus Rdiv Rinv Ropp exp Rpower IZR ln sigmoid].

Ltac run_model_in H :=
  cbv -[Rplus Rmult Rminus Rdiv Rinv Ropp exp Rpower IZR ln sigmoid] in H.

(** ** Compositing in training and in evaluation *)

Lemma clamp01_id (x : R) : 0 <= x <= 1 -> clamp01 x = x.
Proof.
  intros [H0 H1]. unfold clamp01.
  rewrite Rmin_left by exact H1. rewrite Rmax_right by exact H0. reflexivity.
Qed.

(** C10: with shading enabled, training multiplies the albedo render by the
    shading render (rasterized over a white background), evaluation first
    adds [1 * (1 - shading_alphas)] to the shading render (rasterized over the
    same white background) and then multiplies; on the one-pixel scene, with
    the same runner, camera, time and sun angles and a shading coverage of
    one half, the training pixel is 3/8 and the evaluation pixel 5/8. *)
Theorem train_and_eval_compose_shading_differently :
  (forall c1 c2 c3 s a : R,
      train_compose [[c1; c2; c3]] [[s]] = Ok [[c1 * s; c2 * s; c3 * s]]
      /\ eval_compose [[c1; c2; c3]] [[s]] [[a]]
         = Ok [[c1 * (s + 1 * (1 - a)); c2 * (s + 1 * (1 - a)); c3 * (s + 1 * (1 - a))]])
  /\ exists (r : Runner) (rd : Rendered) (ev : list (list R)),
       Runner_init demo_sample_init
         (demo_cfg demo_mcmc demo_mcmc false false false false None) = Ok r
       /\ Forall (Forall (fun a => a < 1))
            (render_alphas (demo_rasterization
               {| ra_means := []; ra_quats := []; ra_scales := []; ra_opacities := [];
                  ra_colors := []; ra_camera := demo_camera; ra_packed := false;
                  ra_absgrad := false; ra_sparse_grad := false;
                  ra_rasterize_mode := Antialiased;
                  ra_backgrounds := white_background |}))
       /\ train_render demo_env r 0 demo_sample = Ok rd
       /\ eval_render demo_env r demo_val_sample = Ok ev
       /\ nth 0 (nth 0 (rd_colors rd) []) 0 = 3 / 8
       /\ nth 0 (nth 0 ev []) 0 = 5 / 8
       /\ rd_colors rd <> ev.
Proof.
  split.
  - intros c1 c2 c3 s a. split; reflexivity.
  - eexists.
    exists {| rd_colors := [[1 / 2 * (3 / 4) * (255 / 255);
                                1 / 2 * (3 / 4) * (255 / 255);
                                1 / 2 * (3 / 4) * (255 / 255)]];
              rd_info := {| radii := [[[1%Z; 1%Z]]]; gaussian_ids := [0%nat] |};
              rd_shading_info :=
                Some {| radii := [[[0%Z; 0%Z]]]; gaussian_ids := [] |} |}.
    exists (map (map clamp01)
                [[1 / 2 * (3 / 4 + 1 * (1 - 1 / 2));
                  1 / 2 * (3 / 4 + 1 * (1 - 1 / 2));
                  1 / 2 * (3 / 4 + 1 * (1 - 1 / 2))]]).
    split; [reflexivity|].
    split; [repeat constructor; simpl; lra|].
    split; [reflexivity|].
    split; [reflexivity|].
    assert (Ht : nth 0 (nth 0 [[1 / 2 * (3 / 4) * (255 / 255);
                                 1 / 2 * (3 / 4) * (255 / 255);
                                 1 / 2 * (3 / 4) * (255 / 255)]] []) 0 = 3 / 8)
      by (simpl; lra).
    assert (He : nth 0 (nth 0 (map (map clamp01)
                                   [[1 / 2 * (3 / 4 + 1 * (1 - 1 / 2));
                                     1 / 2 * (3 / 4 + 1 * (1 - 1 / 2));
                                     1 / 2 * (3 / 4 + 1 * (1 - 1 / 2))]]) []) 0 = 5 / 8)
      by (simpl; rewrite clamp01_id; lra).
    split; [exact Ht|]. split; [exact He|].
    cbn [rd_colors]. intros Heq.
    rewrite Heq in Ht. rewrite He in Ht. lra.
Qed.

(** ** Construction of the runner *)

Lemma bind_ok_inv {A B : Type} (m : result A) (k : A -> result B) (b : B) :
  bind m k = Ok b -> exists a, m = Ok a /\ k a = Ok b.
Proof.
  destruct m as [a|e]; simpl; intros H; [exists a; auto | discriminate].
Qed.

Lemma bind_err {A B : Type} (m : result A) (k : A -> result B) :
  (forall a, exists e, k a = Err e) -> exists e, bind m k = Err e.
Proof.
  intros H. destruct m as [a|e]; simpl; [apply H | exists e; reflexivity].
Qed.

(** What a successfully constructed runner holds. *)
Lemma Runner_init_inv (sample_init : bool -> nat -> InitSample) (c : Config) (r : Runner) :
  Runner_init sample_init c = Ok r ->
  cfg r = c
  /\ (splats r, optimizers r)
     = create_splats_with_optimizers (sample_init false (init_num_pts c)) (init_opa c)
         (means_lr c) (scales_lr c) (opacities_lr c) (quats_lr c) (sh0_lr c) (11 / 10)
         (sparse_grad c) (visible_adam c) false
  /\ (if use_shading c
      then exists s,
          shading_splats r = Some s
          /\ (s, shading_optimizers r)
             = create_splats_with_optimizers (sample_init true (init_num_pts c))
                 (init_opa c) (means_lr c) (scales_lr c) (opacities_lr c) (quats_lr c)
                 (sh0_lr c) (11 / 10) (sparse_grad c) (visible_adam c) true
      else shading_splats r = None /\ shading_optimizers r = [])
  /\ init_strategy_state c (11 / 10) = Ok (strategy_state r)
  /\ init_shading_strategy_state c (11 / 10) = Ok (shading_strategy_state r)
  /\ init_compression c = Ok (compression_method r)
  /\ app_opt c = false
  /\ app_module r = None
  /\ app_optimizers r = []
  /\ bil_grid_optimizers r = init_bil_grid_optimizers c.
Proof.
  unfold Runner_init. intros H.
  destruct (create_splats_with_optimizers (sample_init false (init_num_pts c)) (init_opa c)
              (means_lr c) (scales_lr c) (opacities_lr c) (quats_lr c) (sh0_lr c)
              (11 / 10) (sparse_grad c) (visible_adam c) false) as [sp op] eqn:Ecreate.
  apply bind_ok_inv in H as (_ & _ & H).
  apply bind_ok_inv in H as (shading & Hshading & H).
  apply bind_ok_inv in H as (st & Hst & H).
  apply bind_ok_inv in H as (sst & Hsst & H).
  apply bind_ok_inv in H as (codec & Hcodec & H).
  apply bind_ok_inv in H as (apps & Happs & H).
  apply bind_ok_inv in H as (_ & _ & H).
  injection H as <-. simpl.
  unfold init_app_optimizers in Happs.
  destruct (app_opt c) eqn:Eapp; [discriminate|]. injection Happs as <-.
  repeat split; try assumption; try reflexivity.
  destruct (use_shading c).
  - destruct (create_splats_with_optimizers (sample_init true (init_num_pts c)) (init_opa c)
                (means_lr c) (scales_lr c) (opacities_lr c) (quats_lr c) (sh0_lr c)
                (11 / 10) (sparse_grad c) (visible_adam c) true) as [s o] eqn:Es.
    apply bind_ok_inv in Hshading as (_ & _ & Hshading).
    injection Hshading as <-. simpl. exists s. split; reflexivity.
  - injection Hshading as <-. simpl. split; reflexivity.
Qed.

Lemma Runner_init_compression_err (sample_init : bool -> nat -> InitSample) (c : Config) :
  (exists e, init_compression c = Err e) ->
  exists e, Runner_init sample_init c = Err e.
Proof.
  intros [e He]. unfold Runner_init.
  destruct (create_splats_with_optimizers (sample_init false (init_num_pts c)) (init_opa c)
              (means_lr c) (scales_lr c) (opacities_lr c) (quats_lr c) (sh0_lr c)
              (11 / 10) (sparse_grad c) (visible_adam c) false) as [sp op].
  apply bind_err; intros _.
  apply bind_err; intros shading.
  apply bind_err; intros st.
  apply bind_err; intros sst.
  rewrite He. exists e. reflexivity.
Qed.

(** C8: with a codec name other than "png" the constructor raises (the codec
    check itself raises [ValueError]), and [main] ends with that error before
    any call of the training loop; with no codec or with "png" the codec
    check passes. *)
Theorem unknown_compression_codec_fails_construction :
  forall (env : Collaborators) (sample_init : bool -> nat -> InitSample)
         (c : Config) (name : string),
    compression c = Some name ->
    String.eqb name "png" = false ->
    init_compression c = Err (ValueError "Unknown compression strategy")
    /\ (exists e, Runner_init sample_init c = Err e)
    /\ (exists e, main env sample_init c = ([], Err e))
    /\ (forall c' : Config,
           compression c' = None \/ compression c' = Some "png" ->
           exists codec, init_compression c' = Ok codec).
Proof.
  intros env sample_init c name Hc Hname.
  assert (Hcheck : init_compression c = Err (ValueError "Unknown compression strategy")).
  { unfold init_compression. rewrite Hc, Hname. reflexivity. }
  destruct (Runner_init_compression_err sample_init c (ex_intro _ _ Hcheck)) as [e He].
  split; [exact Hcheck|]. split; [exists e; exact He|]. split.
  - exists e. unfold main. rewrite He. reflexivity.
  - intros c' [H|H]; unfold init_compression; rewrite H.
    + exists None. reflexivity.
    + exists (Some PngCompression). reflexivity.
Qed.

Lemma unknown_compression_codec_witness :
  init_compression (demo_cfg demo_mcmc demo_mcmc false false false false (Some "jpeg"))
  = Err (ValueError "Unknown compression strategy")
  /\ (exists e, Runner_init demo_sample_init
                  (demo_cfg demo_mcmc demo_mcmc false false false false (Some "jpeg"))
                = Err e)
  /\ (exists e, main demo_env demo_sample_init
                  (demo_cfg demo_mcmc demo_mcmc false false false false (Some "jpeg"))
                = ([], Err e))
  /\ (forall c' : Config,
         compression c' = None \/ compression c' = Some "png" ->
         exists codec, init_compression c' = Ok codec).
Proof.
  apply (unknown_compression_codec_fails_construction demo_env demo_sample_init
           (demo_cfg demo_mcmc demo_mcmc false false false false (Some "jpeg")) "jpeg");
    reflexivity.
Defined.

(** C6 (the code departs from it): with an MCMC primary strategy and a
    Default shading strategy the constructor takes the MCMC branch for the
    shading controller and calls the Default strategy's [initialize_state]
    without the scene scale, so the shading state records scale 1 where the
    Default branch records 11/10; with the variants swapped the constructor
    raises.  The post-backward dispatch follows each controller's own
    variant. *)
Theorem shading_state_dispatch_follows_primary_strategy :
  shading_init_dispatch
    (demo_cfg demo_mcmc demo_default false false false false None) (11 / 10)
  = Some {| callee := demo_default; scene_scale_kw := None |}
  /\ strategy_init_dispatch
       (demo_cfg demo_default demo_default false false false false None) (11 / 10)
     = {| callee := demo_default; scene_scale_kw := Some (11 / 10) |}
  /\ (exists r,
         Runner_init demo_sample_init
           (demo_cfg demo_mcmc demo_default false false false false None) = Ok r
         /\ shading_strategy_state r = Some (DefaultState 1))
  /\ (exists msg,
         Runner_init demo_sample_init
           (demo_cfg demo_default demo_mcmc false false false false None)
         = Err (TypeError msg))
  /\ (forall (c : Config) (scheds : list Scheduler) (d : DefaultStrategyCfg),
         shading_strategy c = DefaultStrategy d ->
         post_arg (shading_strategy c) c scheds = Ok (ArgPacked (packed c))).
Proof.
  split; [reflexivity|]. split; [reflexivity|]. split; [|split].
  - eexists. split; reflexivity.
  - eexists. reflexivity.
  - intros c scheds d H. rewrite H. reflexivity.
Qed.

(** ** Learning-rate schedules *)

Lemma lookup_update_same {V : Type} (k : string) (f : V -> V) (d : list (string * V)) :
  lookup k (update k f d) = option_map f (lookup k d).
Proof.
  induction d as [|[k' v] d IH]; simpl; [reflexivity|].
  destruct (String.eqb k k') eqn:E; simpl; rewrite E; [reflexivity | exact IH].
Qed.

Lemma lookup_update_other {V : Type} (k k' : string) (f : V -> V) (d : list (string * V)) :
  String.eqb k k' = false -> lookup k (update k' f d) = lookup k d.
Proof.
  intros Hne. induction d as [|[k0 v] d IH]; simpl; [reflexivity|].
  destruct (String.eqb k' k0) eqn:E; simpl.
  - apply String.eqb_eq in E. subst k0. rewrite Hne. reflexivity.
  - destruct (String.eqb k k0); [reflexivity | exact IH].
Qed.

Lemma get_lr_set_lr_same (r : Runner) (o : OptRef) (x y : R) :
  get_lr r o = Ok x -> get_lr (set_lr r o y) o = Ok y.
Proof.
  destruct o; unfold get_lr, set_lr; simpl.
  - rewrite lookup_update_same.
    destruct (lookup "means" (optimizers r)); [reflexivity | discriminate].
  - destruct (bil_grid_optimizers r); [discriminate | reflexivity].
Qed.

Lemma get_lr_set_lr_other (r : Runner) (o o' : OptRef) (y : R) :
  o <> o' -> get_lr (set_lr r o y) o' = get_lr r o'.
Proof.
  destruct o, o'; intros Hne; try congruence; unfold get_lr, set_lr; simpl.
  - reflexivity.
  - destruct (bil_grid_optimizers r); reflexivity.
Qed.

Lemma cfg_set_lr (r : Runner) (o : OptRef) (y : R) : cfg (set_lr r o y) = cfg r.
Proof.
  destruct o; unfold set_lr; simpl; [reflexivity|].
  destruct (bil_grid_optimizers r); reflexivity.
Qed.

(** One advance of the position schedule multiplies the position learning
    rate by [gamma] and reports it. *)
Lemma means_schedule_step (r : Runner) (g a l : R) (e : nat) :
  get_lr r MeansOpt = Ok a ->
  exists r',
    scheduler_step (Plain (ExponentialLR MeansOpt g e) l) r
    = Ok (Plain (ExponentialLR MeansOpt g (S e)) (a * g), r')
    /\ get_lr r' MeansOpt = Ok (a * g)
    /\ get_lr r' BilGridOpt = get_lr r BilGridOpt.
Proof.
  intros Ha. exists (set_lr r MeansOpt (a * g)).
  unfold scheduler_step, basic_step. cbn [target_of]. rewrite Ha.
  cbn [bind fst snd advance_epoch epoch_of step_factor].
  rewrite (get_lr_set_lr_same r MeansOpt a (a * g) Ha).
  cbn [bind]. repeat split.
Qed.

Lemma warmup_factor_step (e : nat) :
  warmup_factor e * step_factor (LinearLR BilGridOpt (1 / 100) 1000 e) (S e)
  = warmup_factor (S e).
Proof.
  unfold warmup_factor, step_factor.
  destruct (Nat.ltb 1000 (S e)) eqn:E.
  - apply Nat.ltb_lt in E.
    rewrite !Nat.min_r by lia. ring.
  - apply Nat.ltb_ge in E.
    rewrite !Nat.min_l by lia.
    replace (S e - 1)%nat with e by lia.
    assert (H1000 : INR 1000 = 1000) by (rewrite INR_IZR_INZ; reflexivity).
    rewrite H1000, S_INR.
    pose proof (pos_INR e) as He.
    field. lra.
Qed.

Lemma warmup_factor_pos (k : nat) : 0 < warmup_factor k.
Proof.
  unfold warmup_factor. pose proof (pos_INR (Nat.min k 1000)). lra.
Qed.

(** One advance of the chained compositing-grid schedule. *)
Lemma chained_schedule_step (r : Runner) (g b l : R) (e e' : nat) :
  get_lr r BilGridOpt = Ok b ->
  exists r',
    scheduler_step
      (ChainedScheduler [LinearLR BilGridOpt (1 / 100) 1000 e;
                         ExponentialLR BilGridOpt g e'] l) r
    = Ok (ChainedScheduler [LinearLR BilGridOpt (1 / 100) 1000 (S e);
                            ExponentialLR BilGridOpt g (S e')]
            (b * step_factor (LinearLR BilGridOpt (1 / 100) 1000 e) (S e) * g), r')
    /\ get_lr r' BilGridOpt
       = Ok (b * step_factor (LinearLR BilGridOpt (1 / 100) 1000 e) (S e) * g)
    /\ get_lr r' MeansOpt = get_lr r MeansOpt.
Proof.
  intros Hb.
  set (f := step_factor (LinearLR BilGridOpt (1 / 100) 1000 e) (S e)).
  exists (set_lr (set_lr r BilGridOpt (b * f)) BilGridOpt (b * f * g)).
  pose proof (get_lr_set_lr_same r BilGridOpt b (b * f) Hb) as H1.
  pose proof (get_lr_set_lr_same _ BilGridOpt (b * f) (b * f * g) H1) as H2.
  unfold scheduler_step, chained_step, basic_step. cbn [target_of].
  rewrite Hb. cbn [bind fst snd advance_epoch epoch_of]. fold f.
  rewrite H1. cbn [bind fst snd step_factor rev app].
  cbn [bind target_of]. rewrite H2. cbn [bind].
  assert (Hne : BilGridOpt <> MeansOpt) by discriminate.
  repeat split.
  rewrite (get_lr_set_lr_other _ BilGridOpt MeansOpt _ Hne).
  rewrite (get_lr_set_lr_other _ BilGridOpt MeansOpt _ Hne).
  reflexivity.
Qed.

Lemma advance_means_only (g : R) :
  forall (n e : nat) (a l : R) (r : Runner),
    get_lr r MeansOpt = Ok a ->
    exists l' r',
      advance_schedules n [Plain (ExponentialLR MeansOpt g e) l] r
      = Ok ([Plain (ExponentialLR MeansOpt g (n + e)) l'], r')
      /\ get_lr r' MeansOpt = Ok (a * g ^ n).
Proof.
  induction n as [|n IH]; intros e a l r Ha.
  - exists l, r. cbn [advance_schedules]. split; [reflexivity|].
    rewrite Ha. f_equal. simpl. ring.
  - destruct (means_schedule_step r g a l e Ha) as (r1 & Hstep & Ha1 & _).
    destruct (IH (S e) (a * g) (a * g) r1 Ha1) as (l' & r' & Hadv & Ha').
    exists l', r'. cbn [advance_schedules step_all]. rewrite Hstep.
    cbn [bind fst snd]. rewrite Hadv. split.
    + replace (n + S e)%nat with (S n + e)%nat by lia. reflexivity.
    + rewrite Ha'. f_equal. simpl. ring.
Qed.

Lemma advance_with_grid (g : R) :
  forall (n e : nat) (a b l l2 : R) (r : Runner),
    get_lr r MeansOpt = Ok a ->
    get_lr r BilGridOpt = Ok (b * warmup_factor e) ->
    exists ss r',
      advance_schedules n
        [Plain (ExponentialLR MeansOpt g e) l;
         ChainedScheduler [LinearLR BilGridOpt (1 / 100) 1000 e;
                           ExponentialLR BilGridOpt g e] l2] r
      = Ok (ss, r')
      /\ get_lr r' MeansOpt = Ok (a * g ^ n)
      /\ get_lr r' BilGridOpt = Ok (b * warmup_factor (n + e) * g ^ n).
Proof.
  induction n as [|n IH]; intros e a b l l2 r Ha Hb.
  - eexists. exists r. cbn [advance_schedules]. split; [reflexivity|]. split.
    + rewrite Ha. f_equal. simpl. ring.
    + rewrite Hb. f_equal. simpl. ring.
  - destruct (means_schedule_step r g a l e Ha) as (r1 & Hstep & Ha1 & Hb1).
    rewrite Hb in Hb1.
    destruct (chained_schedule_step r1 g (b * warmup_factor e) l2 e e Hb1)
      as (r2 & Hstep2 & Hb2 & Ha2).
    rewrite Ha1 in Ha2.
    assert (Hb2' : get_lr r2 BilGridOpt = Ok ((b * g) * warmup_factor (S e))).
    { rewrite Hb2. f_equal. rewrite <- warmup_factor_step. ring. }
    destruct (IH (S e) (a * g) (b * g) (a * g)
                (b * warmup_factor e
                 * step_factor (LinearLR BilGridOpt (1 / 100) 1000 e) (S e) * g)
                r2 Ha2 Hb2') as (ss & r' & Hadv & Ha' & Hb').
    exists ss, r'. cbn [advance_schedules step_all]. rewrite Hstep.
    cbn [bind fst snd]. rewrite Hstep2. cbn [bind fst snd].
    rewrite Hadv. split; [reflexivity|]. split.
    + rewrite Ha'. f_equal. simpl. ring.
    + rewrite Hb'. f_equal.
      replace (n + S e)%nat with (S n + e)%nat by lia. simpl. ring.
Qed.

Lemma gamma_reaches_one_percent (n : Z) :
  (0 < n)%Z -> Rpower (1 / 100) (1 / IZR n) ^ Z.to_nat n = 1 / 100.
Proof.
  intros Hn.
  assert (Hpos : 0 < IZR n) by (apply IZR_lt; exact Hn).
  rewrite <- Rpower_pow by (apply exp_pos).
  rewrite Rpower_mult.
  rewrite INR_IZR_INZ, Z2Nat.id by lia.
  replace (1 / IZR n * IZR n) with 1 by (field; lra).
  apply Rpower_1. lra.
Qed.

Lemma created_means_lr (sample : InitSample) (o m s' ops q sh sc : R)
    (sg va us : bool) :
  lookup "means"
    (snd (create_splats_with_optimizers sample o m s' ops q sh sc sg va us))
  = Some {| opt_class := if sg then SparseAdam else if va then SelectiveAdam else Adam;
            opt_name := "means";
            opt_lr := m * sc |}.
Proof. reflexivity. Qed.

(** C9: for a constructed runner with a positive step budget, the position
    schedule is exponential with factor [0.01 ^ (1 / max_steps)], so after
    [max_steps] advances the position learning rate is exactly one hundredth
    of its initial value; with the compositing grid enabled the second
    schedule chains a linear warm-up (start factor 0.01, 1000 steps) with an
    exponential decay of the same factor, so after [k] advances the grid's
    learning rate is its base rate times the warm-up factor times
    [gamma ^ k]. *)
Theorem position_lr_decays_to_one_percent :
  forall (sample_init : bool -> nat -> InitSample) (c : Config) (r : Runner),
    Runner_init sample_init c = Ok r ->
    (0 < max_steps c)%Z ->
    let gamma := Rpower (1 / 100) (1 / IZR (max_steps c)) in
    let lr0 := means_lr c * (11 / 10) in
    exists scheds r0,
      build_schedulers r = Ok (scheds, r0)
      /\ get_lr r MeansOpt = Ok lr0
      /\ nth_error scheds 0 = Some (Plain (ExponentialLR MeansOpt gamma 0) lr0)
      /\ (exists scheds' r',
             advance_schedules (Z.to_nat (max_steps c)) scheds r0 = Ok (scheds', r')
             /\ get_lr r' MeansOpt = Ok (lr0 * (1 / 100)))
      /\ (use_bilagrid c = true ->
           tl scheds
           = [ChainedScheduler [LinearLR BilGridOpt (1 / 100) 1000 0;
                                ExponentialLR BilGridOpt gamma 0]
                (2 / 1000 * (1 / 100))]
           /\ forall k : nat,
               exists sk rk,
                 advance_schedules k scheds r0 = Ok (sk, rk)
                 /\ get_lr rk BilGridOpt = Ok (2 / 1000 * warmup_factor k * gamma ^ k)).
Proof.
  intros sample_init c r Hinit Hsteps gamma lr0.
  destruct (Runner_init_inv sample_init c r Hinit)
    as (Hcfg & Hcreate & _ & _ & _ & _ & _ & _ & _ & Hbil).
  assert (Hmeans : get_lr r MeansOpt = Ok lr0).
  { unfold get_lr.
    replace (optimizers r) with (snd (splats r, optimizers r)) by reflexivity.
    rewrite Hcreate, created_means_lr. reflexivity. }
  unfold build_schedulers. rewrite Hcfg.
  destruct (Z.eqb (max_steps c) 0) eqn:Ez; [apply Z.eqb_eq in Ez; lia|].
  fold gamma. rewrite Hmeans. cbn [bind].
  destruct (use_bilagrid c) eqn:Ebil.
  - assert (Hgrid : get_lr r BilGridOpt = Ok (2 / 1000)).
    { unfold get_lr. rewrite Hbil. unfold init_bil_grid_optimizers.
      rewrite Ebil. reflexivity. }
    rewrite Hgrid. cbn [bind].
    set (r0 := set_lr r BilGridOpt (2 / 1000 * (1 / 100))).
    assert (Hm0 : get_lr r0 MeansOpt = Ok lr0).
    { unfold r0. rewrite get_lr_set_lr_other by discriminate. exact Hmeans. }
    assert (Hb0 : get_lr r0 BilGridOpt = Ok (2 / 1000 * warmup_factor 0)).
    { unfold r0. rewrite (get_lr_set_lr_same r BilGridOpt _ _ Hgrid).
      f_equal. unfold warmup_factor. simpl. lra. }
    eexists. exists r0. split; [reflexivity|]. split; [reflexivity|].
    split; [reflexivity|]. split.
    + destruct (advance_with_grid gamma (Z.to_nat (max_steps c)) 0 lr0 (2 / 1000)
                  lr0 (2 / 1000 * (1 / 100)) r0 Hm0 Hb0) as (ss & r' & Hadv & Ha & _).
      exists ss, r'. split; [exact Hadv|].
      rewrite Ha. unfold gamma. rewrite gamma_reaches_one_percent by exact Hsteps.
      reflexivity.
    + intros _. split; [reflexivity|]. intros k.
      destruct (advance_with_grid gamma k 0 lr0 (2 / 1000)
                  lr0 (2 / 1000 * (1 / 100)) r0 Hm0 Hb0) as (ss & r' & Hadv & _ & Hb).
      exists ss, r'. split; [exact Hadv|].
      rewrite Hb. rewrite Nat.add_0_r. reflexivity.
  - eexists. exists r. split; [reflexivity|]. split; [reflexivity|].
    split; [reflexivity|]. split; [|discriminate].
    destruct (advance_means_only gamma (Z.to_nat (max_steps c)) 0 lr0 lr0 r Hmeans)
      as (l' & r' & Hadv & Ha).
    eexists. exists r'. split; [exact Hadv|].
    rewrite Ha. unfold gamma. rewrite gamma_reaches_one_percent by exact Hsteps.
    reflexivity.
Qed.

(** ** Traces of the training iteration *)

Lemma trace_bindM {A B : Type} (m : M A) (k : A -> M B) :
  fst (bindM m k)
  = (fst m ++ match snd m with
              | Ok a => fst (k a)
              | Err _ => []
              end)%list.
Proof.
  destruct m as [tr [a|e]]; simpl.
  - destruct (k a); reflexivity.
  - rewrite app_nil_r. reflexivity.
Qed.

Lemma result_bindM {A B : Type} (m : M A) (k : A -> M B) :
  snd (bindM m k)
  = match snd m with
    | Ok a => snd (k a)
    | Err e => Err e
    end.
Proof.
  destruct m as [tr [a|e]]; simpl; [destruct (k a)|]; reflexivity.
Qed.

Lemma forM_step_param (env : Collaborators) (pop : Population) (step : Z)
    (mask : option (list bool)) :
  forall (opts : list (string * Optimizer)) (p : ParameterDict),
    fst (forM (step_param env pop step mask) opts p) = param_events pop mask opts
    /\ exists p', snd (forM (step_param env pop step mask) opts p) = Ok p'.
Proof.
  induction opts as [|o opts IH]; intros p.
  - split; [reflexivity | exists p; reflexivity].
  - cbn [forM]. rewrite trace_bindM, result_bindM.
    unfold step_param at 1 3. cbn.
    destruct (IH (update (fst o) (optimizer_step env pop (snd o) mask step) p))
      as [Htr [p' Hres]].
    unfold step_param at 1 in Htr. unfold step_param at 1 in Hres.
    split.
    + unfold param_events in *. cbn [flat_map app]. rewrite <- Htr. reflexivity.
    + exists p'. exact Hres.
Qed.

Lemma forM_step_aux (owner : Owner) :
  forall opts : list Optimizer,
    forM (step_aux owner) opts tt = (aux_events owner opts, Ok tt).
Proof.
  induction opts as [|o opts IH]; [reflexivity|].
  cbn [forM]. unfold step_aux at 1. cbn. rewrite IH. reflexivity.
Qed.

Ltac trace_ranks :=
  repeat first
    [ rewrite trace_bindM
    | apply Forall_app; split
    | apply Forall_nil
    | apply Forall_cons; [reflexivity|]
    | progress cbn [fst snd emit lift ret raise]
    | match goal with
      | |- context [match ?x with _ => _ end] => destruct x
      | |- context [if ?b then _ else _] => destruct b
      end ].

Lemma pre_backward_ranks (env : Collaborators) (r : Runner) (step : Z) (rd : Rendered) :
  Forall (fun e => phase_rank e = 1%nat) (fst (pre_backward env r step rd)).
Proof. unfold pre_backward. trace_ranks. Qed.

Lemma save_checkpoint_ranks (r : Runner) (step : Z) :
  Forall (fun e => phase_rank e = 3%nat) (fst (save_checkpoint r step)).
Proof. unfold save_checkpoint. trace_ranks. Qed.

Lemma forM_emit_ranks {A : Type} (ev : A -> Event) (k : nat) (l : list A) :
  (forall a, phase_rank (ev a) = k) ->
  Forall (fun e => phase_rank e = k) (fst (forM (fun a (_ : unit) => emit (ev a)) l tt))
  /\ snd (forM (fun a (_ : unit) => emit (ev a)) l tt) = Ok tt
  /\ length (fst (forM (fun a (_ : unit) => emit (ev a)) l tt)) = length l.
Proof.
  intros Hk. induction l as [|a l [IH1 [IH2 IH3]]].
  - repeat split. constructor.
  - cbn [forM]. rewrite trace_bindM, result_bindM. cbn [emit fst snd].
    repeat split.
    + constructor; [apply Hk | exact IH1].
    + exact IH2.
    + cbn [length app]. rewrite IH3. reflexivity.
Qed.

Lemma sparsify_gradients_ranks (r : Runner) :
  Forall (fun e => phase_rank e = 4%nat) (fst (sparsify_gradients r)).
Proof.
  unfold sparsify_gradients.
  destruct (sparse_grad (cfg r)); [|constructor].
  destruct (packed (cfg r)); [|constructor].
  apply (forM_emit_ranks EvSparsify 4). reflexivity.
Qed.

Lemma param_events_ranks (pop : Population) (mask : option (list bool))
    (opts : list (string * Optimizer)) :
  Forall (fun e => phase_rank e = 5%nat) (param_events pop mask opts).
Proof.
  induction opts as [|o opts IH]; [constructor|].
  unfold param_events. cbn [flat_map app]. repeat constructor. exact IH.
Qed.

Lemma aux_events_ranks (owner : Owner) (opts : list Optimizer) :
  Forall (fun e => phase_rank e = 5%nat) (aux_events owner opts).
Proof.
  induction opts as [|o opts IH]; [constructor|].
  unfold aux_events. cbn [flat_map app]. repeat constructor. exact IH.
Qed.

(** The optimizer loops: what they call, and what they leave untouched. *)
Lemma optimize_trace (env : Collaborators) (r : Runner) (step : Z)
    (mask : option (list bool)) :
  fst (optimize env r step mask)
  = (param_events Albedo mask (optimizers r)
     ++ aux_events OwnApp (app_optimizers r)
     ++ aux_events OwnBilGrid (bil_grid_optimizers r)
     ++ (if use_shading (cfg r)
         then match shading_splats r with
              | Some _ => param_events Shading mask (shading_optimizers r)
              | None => []
              end
         else []))%list.
Proof.
  unfold optimize. rewrite trace_bindM.
  destruct (forM_step_param env Albedo step mask (optimizers r) (splats r))
    as [Htr [p Hres]].
  rewrite Htr, Hres. f_equal.
  rewrite trace_bindM, forM_step_aux. cbn [fst snd set_splats app_optimizers].
  f_equal.
  rewrite trace_bindM, forM_step_aux.
  cbn [fst snd set_splats bil_grid_optimizers cfg]. f_equal.
  destruct (use_shading (cfg r)); [|reflexivity].
  rewrite trace_bindM. unfold shading_of. cbn [set_splats shading_splats].
  destruct (shading_splats r) as [sh|]; [|reflexivity].
  cbn [lift fst snd app]. rewrite trace_bindM.
  destruct (forM_step_param env Shading step mask (shading_optimizers r) sh)
    as [Htr' [p' Hres']].
  cbn [set_splats shading_optimizers]. rewrite Htr', Hres'. cbn [ret fst].
  apply app_nil_r.
Qed.

Lemma optimize_ranks (env : Collaborators) (r : Runner) (step : Z)
    (mask : option (list bool)) :
  Forall (fun e => phase_rank e = 5%nat) (fst (optimize env r step mask)).
Proof.
  rewrite optimize_trace.
  repeat (apply Forall_app; split);
    try apply param_events_ranks; try apply aux_events_ranks.
  destruct (use_shading (cfg r)); [|constructor].
  destruct (shading_splats r); [apply param_events_ranks | constructor].
Qed.

Lemma optimize_preserves (env : Collaborators) (r r2 : Runner) (step : Z)
    (mask : option (list bool)) :
  snd (optimize env r step mask) = Ok r2 ->
  cfg r2 = cfg r /\ optimizers r2 = optimizers r
  /\ bil_grid_optimizers r2 = bil_grid_optimizers r.
Proof.
  unfold optimize. rewrite result_bindM.
  destruct (forM_step_param env Albedo step mask (optimizers r) (splats r))
    as [_ [p Hres]].
  rewrite Hres. rewrite result_bindM, forM_step_aux. cbn [snd].
  rewrite result_bindM, forM_step_aux. cbn [snd set_splats cfg].
  destruct (use_shading (cfg r)).
  - rewrite result_bindM. unfold shading_of.
    cbn [set_splats shading_splats shading_optimizers].
    destruct (shading_splats r) as [sh|]; cbn [lift snd]; [|discriminate].
    rewrite result_bindM.
    destruct (forM_step_param env Shading step mask (shading_optimizers r) sh)
      as [_ [p' Hres']].
    cbn [set_splats shading_optimizers]. rewrite Hres'. cbn [ret snd].
    intros H. injection H as <-. repeat split.
  - cbn [ret snd]. intros H. injection H as <-. repeat split.
Qed.

Lemma pre_backward_preserves (env : Collaborators) (r r1 : Runner) (step : Z)
    (rd : Rendered) :
  snd (pre_backward env r step rd) = Ok r1 ->
  cfg r1 = cfg r /\ optimizers r1 = optimizers r
  /\ bil_grid_optimizers r1 = bil_grid_optimizers r
  /\ splats r1 = splats r /\ shading_splats r1 = shading_splats r
  /\ app_module r1 = app_module r
  /\ shading_optimizers r1 = shading_optimizers r
  /\ app_optimizers r1 = app_optimizers r.
Proof.
  unfold pre_backward. rewrite result_bindM. cbn [emit snd].
  destruct (use_shading (cfg r)).
  - rewrite result_bindM.
    destruct (shading_state_of _) as [sst|]; cbn [lift snd]; [|discriminate].
    rewrite result_bindM.
    destruct (shading_info_of rd) as [si|]; cbn [lift snd]; [|discriminate].
    rewrite result_bindM. cbn [emit ret snd].
    intros H. injection H as <-. repeat split.
  - cbn [ret snd]. intros H. injection H as <-. repeat split.
Qed.

Lemma step_schedulers_spec (scheds : list Scheduler) (r : Runner) :
  snd (step_schedulers scheds r) = step_all scheds r
  /\ Forall (fun e => phase_rank e = 6%nat) (fst (step_schedulers scheds r))
  /\ (forall p, step_all scheds r = Ok p ->
                fst (step_schedulers scheds r) = repeat EvSchedulerStep (length scheds)).
Proof.
  unfold step_schedulers.
  destruct (forM_emit_ranks (fun _ : Scheduler => EvSchedulerStep) 6 scheds
              (fun _ => eq_refl)) as (Hranks & Hok & Hlen).
  rewrite result_bindM, trace_bindM. cbn [lift fst snd].
  destruct (step_all scheds r) as [p|e].
  - rewrite result_bindM, trace_bindM, Hok. cbn [ret fst snd app].
    rewrite app_nil_r. repeat split; [exact Hranks|].
    intros _ _.
    clear Hranks Hok Hlen. induction scheds as [|s scheds IH]; [reflexivity|].
    cbn [forM length repeat]. rewrite trace_bindM. cbn [emit fst snd app].
    rewrite IH. reflexivity.
  - repeat split; [constructor | discriminate].
Qed.

Lemma post_backward_ranks (env : Collaborators) (r : Runner) (scheds : list Scheduler)
    (step : Z) (rd : Rendered) :
  Forall (fun e => phase_rank e = 7%nat) (fst (post_backward env r scheds step rd)).
Proof. unfold post_backward. trace_ranks. Qed.

(** Every post-backward call goes to the population's own strategy with the
    argument that strategy's variant takes. *)
Lemma post_backward_events (env : Collaborators) (r : Runner) (scheds : list Scheduler)
    (step : Z) (rd : Rendered) (ev : Event) :
  In ev (fst (post_backward env r scheds step rd)) ->
  exists pop arg,
    ev = EvPostBackward pop
           (match pop with Albedo => strategy (cfg r) | Shading => shading_strategy (cfg r) end)
           step arg
    /\ post_arg (match pop with
                 | Albedo => strategy (cfg r)
                 | Shading => shading_strategy (cfg r)
                 end) (cfg r) scheds = Ok arg
    /\ (pop = Shading -> use_shading (cfg r) = true).
Proof.
  unfold post_backward. rewrite trace_bindM. cbn [lift fst snd app].
  destruct (post_arg (strategy (cfg r)) (cfg r) scheds) as [arg|] eqn:Earg;
    [|intros []].
  rewrite trace_bindM. cbn [emit fst snd app].
  intros [<-|Hin].
  - exists Albedo, arg. repeat split; [exact Earg | discriminate].
  - cbn [set_strategy_state set_splats cfg] in Hin.
    destruct (use_shading (cfg r)) eqn:Eshading; [|destruct Hin].
    rewrite trace_bindM in Hin. cbn [lift fst snd app] in Hin.
    destruct (post_arg (shading_strategy (cfg r)) (cfg r) scheds) as [sarg|] eqn:Esarg;
      [|destruct Hin].
    rewrite trace_bindM in Hin. cbn [lift fst snd app] in Hin.
    destruct (shading_of _) as [sh|]; [|destruct Hin].
    rewrite trace_bindM in Hin. cbn [lift fst snd app] in Hin.
    destruct (shading_state_of _) as [sst|]; [|destruct Hin].
    rewrite trace_bindM in Hin. cbn [lift fst snd app] in Hin.
    destruct (shading_info_of rd) as [si|]; [|destruct Hin].
    rewrite trace_bindM in Hin. cbn [emit ret fst snd app] in Hin.
    destruct Hin as [<-|[]].
    exists Shading, sarg. repeat split. exact Esarg.
Qed.

Lemma post_backward_albedo_event (env : Collaborators) (r : Runner)
    (scheds : list Scheduler) (step : Z) (rd : Rendered) (arg : PostArg) :
  post_arg (strategy (cfg r)) (cfg r) scheds = Ok arg ->
  In (EvPostBackward Albedo (strategy (cfg r)) step arg)
     (fst (post_backward env r scheds step rd)).
Proof.
  intros Harg. unfold post_backward. rewrite trace_bindM, Harg.
  cbn [lift fst snd app]. rewrite trace_bindM. cbn [emit fst snd app].
  left. reflexivity.
Qed.

Lemma post_backward_ok_arg (env : Collaborators) (r r' : Runner)
    (scheds : list Scheduler) (step : Z) (rd : Rendered) :
  snd (post_backward env r scheds step rd) = Ok r' ->
  exists arg, post_arg (strategy (cfg r)) (cfg r) scheds = Ok arg
              /\ optimizers r' = optimizers r.
Proof.
  unfold post_backward. rewrite result_bindM. cbn [lift snd].
  destruct (post_arg (strategy (cfg r)) (cfg r) scheds) as [arg|]; [|discriminate].
  intros H. exists arg. split; [reflexivity|].
  rewrite result_bindM in H. cbn [emit snd set_strategy_state set_splats cfg] in H.
  destruct (use_shading (cfg r)).
  - rewrite result_bindM in H. cbn [lift snd] in H.
    destruct (post_arg (shading_strategy (cfg r)) (cfg r) scheds); [|discriminate].
    rewrite result_bindM in H. cbn [lift snd] in H.
    destruct (shading_of _); [|discriminate].
    rewrite result_bindM in H. cbn [lift snd] in H.
    destruct (shading_state_of _); [|discriminate].
    rewrite result_bindM in H. cbn [lift snd] in H.
    destruct (shading_info_of rd); [|discriminate].
    rewrite result_bindM in H. cbn [emit ret snd] in H.
    injection H as <-. reflexivity.
  - cbn [ret snd] in H. injection H as <-. reflexivity.
Qed.

Lemma periodic_eval_ranks (r : Runner) (step : Z) :
  Forall (fun e => phase_rank e = 8%nat) (fst (periodic_eval r step)).
Proof. unfold periodic_eval. trace_ranks. Qed.

(** The checkpoint stage emits at most the dictionary [checkpoint_data]
    builds. *)
Lemma save_checkpoint_events (r : Runner) (step : Z) (ev : Event) :
  In ev (fst (save_checkpoint r step)) ->
  exists data, ev = EvSaveCheckpoint data /\ checkpoint_data r step = Ok data.
Proof.
  unfold save_checkpoint.
  destruct (is_step_of step (save_steps (cfg r)) || Z.eqb step (max_steps (cfg r) - 1));
    [|intros []].
  rewrite trace_bindM. cbn [lift fst snd app].
  destruct (checkpoint_data r step) as [data|]; [|intros []].
  cbn [emit fst]. intros [<-|[]]. exists data. split; reflexivity.
Qed.

Lemma rank_in (k : nat) (tr : list Event) (ev : Event) :
  Forall (fun e => phase_rank e = k) tr -> In ev tr -> phase_rank ev = k.
Proof. intros H Hin. rewrite Forall_forall in H. apply H. exact Hin. Qed.

(** Where an event of one training iteration comes from: the stage that
    issued it, with every earlier stage completed. *)
Lemma train_step_event (env : Collaborators) (step : Z) (scheds : list Scheduler)
    (r : Runner) (ev : Event) :
  In ev (fst (train_step env step (scheds, r))) ->
  exists rd,
    train_render env r step (trainloader env step) = Ok rd
    /\ (phase_rank ev = 0%nat
        \/ In ev (fst (pre_backward env r step rd))
        \/ exists r1,
            snd (pre_backward env r step rd) = Ok r1
            /\ (ev = EvBackward step
                \/ In ev (fst (save_checkpoint r1 step))
                \/ (snd (save_checkpoint r1 step) = Ok tt
                    /\ (In ev (fst (sparsify_gradients r1))
                        \/ (snd (sparsify_gradients r1) = Ok tt
                            /\ exists mask,
                                visibility_mask r1 (rd_info rd) = Ok mask
                                /\ (In ev (fst (optimize env r1 step mask))
                                    \/ exists r2,
                                        snd (optimize env r1 step mask) = Ok r2
                                        /\ (In ev (fst (step_schedulers scheds r2))
                                            \/ exists p,
                                                step_all scheds r2 = Ok p
                                                /\ (In ev (fst (post_backward env (snd p) (fst p) step rd))
                                                    \/ exists r3,
                                                        snd (post_backward env (snd p) (fst p) step rd) = Ok r3
                                                        /\ In ev (fst (periodic_eval r3 step)))))))))).
Proof.
  unfold train_step. cbn [fst snd]. intros H.
  rewrite trace_bindM in H. cbn [lift fst snd app] in H.
  destruct (train_render env r step (trainloader env step)) as [rd|]; [|destruct H].
  exists rd. split; [reflexivity|].
  rewrite trace_bindM in H. cbn [emit fst snd app] in H.
  destruct H as [<-|H]; [left; reflexivity|].
  rewrite trace_bindM in H. apply in_app_or in H. destruct H as [H|H].
  { left. destruct (use_shading (cfg r)); cbn [emit ret fst] in H.
    - destruct H as [<-|[]]. reflexivity.
    - destruct H. }
  assert (H' : In ev (fst (r1 <~ pre_backward env r step rd;;
                           _ <~ emit (EvBackward step);;
                           _ <~ save_checkpoint r1 step;;
                           _ <~ sparsify_gradients r1;;
                           mask <~ lift (visibility_mask r1 (rd_info rd));;
                           r2 <~ optimize env r1 step mask;;
                           p <~ step_schedulers scheds r2;;
                           r3 <~ post_backward env (snd p) (fst p) step rd;;
                           _ <~ periodic_eval r3 step;; ret (fst p, r3))))
    by (destruct (use_shading (cfg r)); exact H).
  clear H. rename H' into H.
  rewrite trace_bindM in H. apply in_app_or in H. destruct H as [H|H].
  { right. left. exact H. }
  destruct (snd (pre_backward env r step rd)) as [r1|] eqn:Epre; [|destruct H].
  right. right. exists r1. split; [reflexivity|].
  rewrite trace_bindM in H. cbn [emit fst snd app] in H.
  destruct H as [<-|H]; [left; reflexivity|].
  rewrite trace_bindM in H. apply in_app_or in H. destruct H as [H|H].
  { right. left. exact H. }
  destruct (snd (save_checkpoint r1 step)) as [[]|] eqn:Esave; [|destruct H].
  right. right. split; [reflexivity|].
  rewrite trace_bindM in H. apply in_app_or in H. destruct H as [H|H].
  { left. exact H. }
  destruct (snd (sparsify_gradients r1)) as [[]|] eqn:Esp; [|destruct H].
  right. split; [reflexivity|].
  rewrite trace_bindM in H. cbn [lift fst snd app] in H.
  destruct (visibility_mask r1 (rd_info rd)) as [mask|]; [|destruct H].
  exists mask. split; [reflexivity|].
  rewrite trace_bindM in H. apply in_app_or in H. destruct H as [H|H].
  { left. exact H. }
  destruct (snd (optimize env r1 step mask)) as [r2|] eqn:Eopt; [|destruct H].
  right. exists r2. split; [reflexivity|].
  rewrite trace_bindM in H. apply in_app_or in H. destruct H as [H|H].
  { left. exact H. }
  destruct (step_schedulers_spec scheds r2) as (Hres & _ & _).
  rewrite Hres in H.
  destruct (step_all scheds r2) as [p|]; [|destruct H].
  right. exists p. split; [reflexivity|].
  rewrite trace_bindM in H. apply in_app_or in H. destruct H as [H|H].
  { left. exact H. }
  destruct (snd (post_backward env (snd p) (fst p) step rd)) as [r3|] eqn:Epost;
    [|destruct H].
  right. exists r3. split; [reflexivity|].
  rewrite trace_bindM in H. apply in_app_or in H. destruct H as [H|H].
  - exact H.
  - destruct (snd (periodic_eval r3 step)); destruct H.
Qed.

(** The stages an iteration went through when its trace holds an event of
    the optimizer loops or of a later stage. *)
Lemma train_step_late_event (env : Collaborators) (step : Z) (scheds : list Scheduler)
    (r : Runner) (ev : Event) :
  In ev (fst (train_step env step (scheds, r))) ->
  (5 <= phase_rank ev)%nat ->
  exists rd r1 mask,
    train_render env r step (trainloader env step) = Ok rd
    /\ snd (pre_backward env r step rd) = Ok r1
    /\ snd (save_checkpoint r1 step) = Ok tt
    /\ snd (sparsify_gradients r1) = Ok tt
    /\ visibility_mask r1 (rd_info rd) = Ok mask
    /\ (In ev (fst (optimize env r1 step mask))
        \/ exists r2 p,
            snd (optimize env r1 step mask) = Ok r2
            /\ step_all scheds r2 = Ok p
            /\ (phase_rank ev = 6%nat
                \/ In ev (fst (post_backward env (snd p) (fst p) step rd))
                \/ phase_rank ev = 8%nat)).
Proof.
  intros Hin Hrank.
  destruct (train_step_event env step scheds r ev Hin) as (rd & Hrd & H).
  destruct H as [H|[H|H]].
  { rewrite H in Hrank. lia. }
  { apply (rank_in 1 _ _ (pre_backward_ranks env r step rd)) in H.
    rewrite H in Hrank. lia. }
  destruct H as (r1 & Hpre & H).
  destruct H as [H|[H|H]].
  { rewrite H in Hrank. simpl in Hrank. lia. }
  { apply (rank_in 3 _ _ (save_checkpoint_ranks r1 step)) in H.
    rewrite H in Hrank. lia. }
  destruct H as (Hsave & H). destruct H as [H|H].
  { apply (rank_in 4 _ _ (sparsify_gradients_ranks r1)) in H.
    rewrite H in Hrank. lia. }
  destruct H as (Hsp & mask & Hmask & H).
  exists rd, r1, mask. repeat (split; [assumption|]).
  destruct H as [H|H]; [left; exact H|].
  destruct H as (r2 & Hopt & H). right.
  destruct (step_schedulers_spec scheds r2) as (_ & Hr & _).
  destruct H as [H|H].
  { destruct (step_all scheds r2) as [p|] eqn:Ep.
    - exists r2, p. repeat split; try assumption.
      left. exact (rank_in 6 _ _ Hr H).
    - exfalso. unfold step_schedulers in H. rewrite Ep in H. destruct H. }
  destruct H as (p & Hp & H). exists r2, p. repeat split; try assumption.
  destruct H as [H|H]; [right; left; exact H|].
  destruct H as (r3 & _ & H). right. right.
  exact (rank_in 8 _ _ (periodic_eval_ranks r3 step) H).
Qed.

(** A completed iteration went through every stage. *)
Lemma train_step_ok (env : Collaborators) (step : Z) (scheds : list Scheduler)
    (r : Runner) (out : list Scheduler * Runner) :
  snd (train_step env step (scheds, r)) = Ok out ->
  exists rd r1 mask r2 p r3,
    train_render env r step (trainloader env step) = Ok rd
    /\ snd (pre_backward env r step rd) = Ok r1
    /\ snd (save_checkpoint r1 step) = Ok tt
    /\ snd (sparsify_gradients r1) = Ok tt
    /\ visibility_mask r1 (rd_info rd) = Ok mask
    /\ snd (optimize env r1 step mask) = Ok r2
    /\ step_all scheds r2 = Ok p
    /\ snd (post_backward env (snd p) (fst p) step rd) = Ok r3
    /\ snd (periodic_eval r3 step) = Ok tt
    /\ out = (fst p, r3).
Proof.
  unfold train_step. cbn [fst snd]. intros H.
  rewrite result_bindM in H. cbn [lift snd] in H.
  destruct (train_render env r step (trainloader env step)) as [rd|]; [|discriminate].
  rewrite result_bindM in H. cbn [emit snd] in H.
  rewrite result_bindM in H.
  assert (H' : snd (r1 <~ pre_backward env r step rd;;
                    _ <~ emit (EvBackward step);;
                    _ <~ save_checkpoint r1 step;;
                    _ <~ sparsify_gradients r1;;
                    mask <~ lift (visibility_mask r1 (rd_info rd));;
                    r2 <~ optimize env r1 step mask;;
                    p <~ step_schedulers scheds r2;;
                    r3 <~ post_backward env (snd p) (fst p) step rd;;
                    _ <~ periodic_eval r3 step;; ret (fst p, r3)) = Ok out)
    by (destruct (use_shading (cfg r)); exact H).
  clear H. rename H' into H.
  rewrite result_bindM in H.
  destruct (snd (pre_backward env r step rd)) as [r1|] eqn:Epre; [|discriminate].
  rewrite result_bindM in H. cbn [emit snd] in H.
  rewrite result_bindM in H.
  destruct (snd (save_checkpoint r1 step)) as [[]|] eqn:Esave; [|discriminate].
  rewrite result_bindM in H.
  destruct (snd (sparsify_gradients r1)) as [[]|] eqn:Esp; [|discriminate].
  rewrite result_bindM in H. cbn [lift snd] in H.
  destruct (visibility_mask r1 (rd_info rd)) as [mask|] eqn:Emask; [|discriminate].
  rewrite result_bindM in H.
  destruct (snd (optimize env r1 step mask)) as [r2|] eqn:Eopt; [|discriminate].
  rewrite result_bindM in H.
  destruct (step_schedulers_spec scheds r2) as (Hres & _ & _).
  rewrite Hres in H.
  destruct (step_all scheds r2) as [p|] eqn:Ep; [|discriminate].
  rewrite result_bindM in H.
  destruct (snd (post_backward env (snd p) (fst p) step rd)) as [r3|] eqn:Epost;
    [|discriminate].
  rewrite result_bindM in H.
  destruct (snd (periodic_eval r3 step)) as [[]|] eqn:Eeval; [|discriminate].
  cbn [ret snd] in H. injection H as <-.
  exists rd, r1, mask, r2, p, r3. repeat split; assumption.
Qed.

(** The trace of an iteration whose stages up to the schedule advance all
    completed. *)
Lemma train_step_trace (env : Collaborators) (step : Z) (scheds : list Scheduler)
    (r r1 r2 : Runner) (rd : Rendered) (mask : option (list bool))
    (p : list Scheduler * Runner) :
  train_render env r step (trainloader env step) = Ok rd ->
  snd (pre_backward env r step rd) = Ok r1 ->
  snd (save_checkpoint r1 step) = Ok tt ->
  snd (sparsify_gradients r1) = Ok tt ->
  visibility_mask r1 (rd_info rd) = Ok mask ->
  snd (optimize env r1 step mask) = Ok r2 ->
  step_all scheds r2 = Ok p ->
  fst (train_step env step (scheds, r))
  = ((EvForward Albedo :: (if use_shading (cfg r) then [EvForward Shading] else []))
     ++ fst (pre_backward env r step rd)
     ++ [EvBackward step]
     ++ fst (save_checkpoint r1 step)
     ++ fst (sparsify_gradients r1)
     ++ fst (optimize env r1 step mask)
     ++ repeat EvSchedulerStep (length scheds)
     ++ fst (post_backward env (snd p) (fst p) step rd)
     ++ match snd (post_backward env (snd p) (fst p) step rd) with
        | Ok r3 => fst (periodic_eval r3 step)
        | Err _ => []
        end)%list.
Proof.
  intros Hrd Hpre Hsave Hsp Hmask Hopt Hp.
  destruct (step_schedulers_spec scheds r2) as (Hres & _ & Htr).
  assert (Htail :
    fst (r1 <~ pre_backward env r step rd;;
         _ <~ emit (EvBackward step);;
         _ <~ save_checkpoint r1 step;;
         _ <~ sparsify_gradients r1;;
         mask <~ lift (visibility_mask r1 (rd_info rd));;
         r2 <~ optimize env r1 step mask;;
         p <~ step_schedulers scheds r2;;
         r3 <~ post_backward env (snd p) (fst p) step rd;;
         _ <~ periodic_eval r3 step;; ret (fst p, r3))
    = (fst (pre_backward env r step rd)
       ++ [EvBackward step]
       ++ fst (save_checkpoint r1 step)
       ++ fst (sparsify_gradients r1)
       ++ fst (optimize env r1 step mask)
       ++ repeat EvSchedulerStep (length scheds)
       ++ fst (post_backward env (snd p) (fst p) step rd)
       ++ match snd (post_backward env (snd p) (fst p) step rd) with
          | Ok r3 => fst (periodic_eval r3 step)
          | Err _ => []
          end)%list).
  { rewrite trace_bindM, Hpre. f_equal.
    rewrite trace_bindM. cbn [emit fst snd app]. f_equal.
    rewrite trace_bindM, Hsave. f_equal.
    rewrite trace_bindM, Hsp. f_equal.
    rewrite trace_bindM, Hmask. cbn [lift fst snd app].
    rewrite trace_bindM, Hopt. f_equal.
    rewrite trace_bindM, Hres, Hp, (Htr p Hp). f_equal.
    rewrite trace_bindM. f_equal.
    destruct (snd (post_backward env (snd p) (fst p) step rd)) as [r3|]; [|reflexivity].
    rewrite trace_bindM.
    destruct (snd (periodic_eval r3 step)); cbn [ret fst]; apply app_nil_r. }
  unfold train_step. cbn [fst snd].
  rewrite trace_bindM, Hrd. cbn [lift fst snd app].
  rewrite trace_bindM. cbn [emit fst snd app]. f_equal.
  rewrite trace_bindM.
  destruct (use_shading (cfg r)); cbn [emit ret fst snd app]; rewrite Htail;
    reflexivity.
Qed.

(** ** Order of the stages *)

Lemma is_update_rank (e : Event) :
  is_update e = Nat.eqb (phase_rank e) 5 || Nat.eqb (phase_rank e) 6.
Proof. destruct e; reflexivity. Qed.

Lemma filter_update_segment (k : nat) (tr : list Event) :
  Forall (fun e => phase_rank e = k) tr ->
  filter is_update tr = if Nat.eqb k 5 || Nat.eqb k 6 then tr else [].
Proof.
  induction 1 as [|e tr He _ IH]; cbn [filter].
  - destruct (Nat.eqb k 5 || Nat.eqb k 6); reflexivity.
  - rewrite is_update_rank, He, IH.
    destruct (Nat.eqb k 5 || Nat.eqb k 6); reflexivity.
Qed.

Lemma ordered_segment (k : nat) (t1 t2 : list Event) :
  Forall (fun e => phase_rank e = k) t1 ->
  ordered t2 ->
  Forall (fun e => (k <= phase_rank e)%nat) t2 ->
  ordered (t1 ++ t2).
Proof.
  intros H1 H2 Hge. induction H1 as [|e t1 He Ht1 IH]; [exact H2|].
  cbn [app]. constructor; [exact IH|].
  apply Forall_app. split.
  - eapply Forall_impl; [|exact Ht1]. intros x Hx. simpl in Hx. lia.
  - rewrite He. exact Hge.
Qed.

Lemma at_least_segment (k k' : nat) (t1 t2 : list Event) :
  (k <= k')%nat ->
  Forall (fun e => phase_rank e = k') t1 ->
  Forall (fun e => (k' <= phase_rank e)%nat) t2 ->
  Forall (fun e => (k <= phase_rank e)%nat) (t1 ++ t2).
Proof.
  intros Hk H1 H2. apply Forall_app. split.
  - eapply Forall_impl; [|exact H1]. intros e He. simpl in He. lia.
  - eapply Forall_impl; [|exact H2]. intros e He. simpl in He. lia.
Qed.

Lemma ordered_split (pre post : list Event) (ev : Event) :
  ordered (pre ++ ev :: post) ->
  Forall (fun e => (phase_rank ev <= phase_rank e)%nat) post.
Proof.
  unfold ordered. induction pre as [|x pre IH]; cbn [app]; intros H.
  - inversion H; subst. assumption.
  - inversion H; subst. apply IH. assumption.
Qed.

Lemma cfg_basic_step (s s' : BasicScheduler) (r r' : Runner) :
  basic_step s r = Ok (s', r') -> cfg r' = cfg r.
Proof.
  unfold basic_step. destruct (get_lr r (target_of s)); cbn [bind]; [|discriminate].
  intros H. injection H as _ <-. apply cfg_set_lr.
Qed.

Lemma cfg_chained_step :
  forall (ss : list BasicScheduler) (r : Runner) (p : list BasicScheduler * Runner),
    chained_step ss r = Ok p -> cfg (snd p) = cfg r.
Proof.
  induction ss as [|s ss IH]; intros r p H; cbn [chained_step] in H.
  - injection H as <-. reflexivity.
  - apply bind_ok_inv in H as ([s' r1] & Hs & H).
    apply bind_ok_inv in H as (q & Hq & H).
    injection H as <-. cbn [snd] in *.
    rewrite (IH _ _ Hq). eapply cfg_basic_step. exact Hs.
Qed.

Lemma cfg_scheduler_step (s : Scheduler) (r : Runner) (p : Scheduler * Runner) :
  scheduler_step s r = Ok p -> cfg (snd p) = cfg r.
Proof.
  destruct s as [b l|ss l]; cbn [scheduler_step]; intros H.
  - apply bind_ok_inv in H as ([s' r1] & Hs & H).
    apply bind_ok_inv in H as (lr & _ & H).
    injection H as <-. cbn [snd]. eapply cfg_basic_step. exact Hs.
  - apply bind_ok_inv in H as (q & Hq & H).
    apply bind_ok_inv in H as (lr & _ & H).
    injection H as <-. cbn [snd]. eapply cfg_chained_step. exact Hq.
Qed.

Lemma cfg_step_all :
  forall (ss : list Scheduler) (r : Runner) (p : list Scheduler * Runner),
    step_all ss r = Ok p -> cfg (snd p) = cfg r.
Proof.
  induction ss as [|s ss IH]; intros r p H; cbn [step_all] in H.
  - injection H as <-. reflexivity.
  - apply bind_ok_inv in H as (q1 & Hq1 & H).
    apply bind_ok_inv in H as (q & Hq & H).
    injection H as <-. cbn [snd].
    rewrite (IH _ _ Hq). eapply cfg_scheduler_step. exact Hq1.
Qed.

(** After one advance the position schedule reports the decayed rate. *)
Lemma step_all_head (g a l : R) (e : nat) (rest : list Scheduler) (r : Runner)
    (p : list Scheduler * Runner) :
  get_lr r MeansOpt = Ok a ->
  step_all (Plain (ExponentialLR MeansOpt g e) l :: rest) r = Ok p ->
  exists rest', fst p = Plain (ExponentialLR MeansOpt g (S e)) (a * g) :: rest'.
Proof.
  intros Ha H. cbn [step_all] in H.
  destruct (means_schedule_step r g a l e Ha) as (r1 & Hstep & _).
  rewrite Hstep in H. cbn [bind fst snd] in H.
  apply bind_ok_inv in H as (q & _ & H). injection H as <-.
  exists (fst q). reflexivity.
Qed.

(** The trace of an iteration that reached the schedule advance follows the
    order of the stages. *)
Lemma train_step_trace_ordered (env : Collaborators) (step : Z) (scheds : list Scheduler)
    (r r1 r2 : Runner) (rd : Rendered) (mask : option (list bool))
    (p : list Scheduler * Runner) :
  train_render env r step (trainloader env step) = Ok rd ->
  snd (pre_backward env r step rd) = Ok r1 ->
  snd (save_checkpoint r1 step) = Ok tt ->
  snd (sparsify_gradients r1) = Ok tt ->
  visibility_mask r1 (rd_info rd) = Ok mask ->
  snd (optimize env r1 step mask) = Ok r2 ->
  step_all scheds r2 = Ok p ->
  ordered (fst (train_step env step (scheds, r)))
  /\ filter is_update (fst (train_step env step (scheds, r)))
     = update_events r mask scheds.
Proof.
  intros Hrd Hpre Hsave Hsp Hmask Hopt Hp.
  rewrite (train_step_trace env step scheds r r1 r2 rd mask p) by assumption.
  assert (Hfwd : Forall (fun e => phase_rank e = 0%nat)
                   (EvForward Albedo
                    :: (if use_shading (cfg r) then [EvForward Shading] else [])))
    by (destruct (use_shading (cfg r)); repeat constructor).
  assert (Hbwd : Forall (fun e => phase_rank e = 2%nat) [EvBackward step])
    by (repeat constructor).
  assert (Hsched : Forall (fun e => phase_rank e = 6%nat)
                     (repeat EvSchedulerStep (length scheds)))
    by (induction (length scheds); cbn [repeat]; repeat constructor; assumption).
  assert (Heval : Forall (fun e => phase_rank e = 8%nat)
                    match snd (post_backward env (snd p) (fst p) step rd) with
                    | Ok r3 => fst (periodic_eval r3 step)
                    | Err _ => []
                    end)
    by (destruct (snd (post_backward env (snd p) (fst p) step rd));
        [apply periodic_eval_ranks | constructor]).
  pose proof (pre_backward_ranks env r step rd) as Hpre_r.
  pose proof (save_checkpoint_ranks r1 step) as Hsave_r.
  pose proof (sparsify_gradients_ranks r1) as Hsp_r.
  pose proof (optimize_ranks env r1 step mask) as Hopt_r.
  pose proof (post_backward_ranks env (snd p) (fst p) step rd) as Hpost_r.
  split.
  - assert (H8 : ordered match snd (post_backward env (snd p) (fst p) step rd) with
                         | Ok r3 => fst (periodic_eval r3 step)
                         | Err _ => []
                         end
                 /\ Forall (fun e => (8 <= phase_rank e)%nat)
                      match snd (post_backward env (snd p) (fst p) step rd) with
                      | Ok r3 => fst (periodic_eval r3 step)
                      | Err _ => []
                      end).
    { split.
      - rewrite <- (app_nil_r _). apply (ordered_segment 8); [exact Heval| |];
          constructor.
      - eapply Forall_impl; [|exact Heval]. intros e He. simpl in He. lia. }
    destruct H8 as [O8 G8].
    pose proof (ordered_segment 7 _ _ Hpost_r O8
                  (Forall_impl _ (fun e (He : (8 <= phase_rank e)%nat) =>
                                    Nat.le_trans 7 8 _ ltac:(lia) He) G8)) as O7.
    pose proof (at_least_segment 6 7 _ _ ltac:(lia) Hpost_r
                  (Forall_impl _ (fun e (He : (8 <= phase_rank e)%nat) =>
                                    Nat.le_trans 7 8 _ ltac:(lia) He) G8)) as G7.
    pose proof (ordered_segment 6 _ _ Hsched O7 G7) as O6.
    pose proof (at_least_segment 5 6 _ _ ltac:(lia) Hsched G7) as G6.
    pose proof (ordered_segment 5 _ _ Hopt_r O6 G6) as O5.
    pose proof (at_least_segment 4 5 _ _ ltac:(lia) Hopt_r G6) as G5.
    pose proof (ordered_segment 4 _ _ Hsp_r O5 G5) as O4.
    pose proof (at_least_segment 3 4 _ _ ltac:(lia) Hsp_r G5) as G4.
    pose proof (ordered_segment 3 _ _ Hsave_r O4 G4) as O3.
    pose proof (at_least_segment 2 3 _ _ ltac:(lia) Hsave_r G4) as G3.
    pose proof (ordered_segment 2 _ _ Hbwd O3 G3) as O2.
    pose proof (at_least_segment 1 2 _ _ ltac:(lia) Hbwd G3) as G2.
    pose proof (ordered_segment 1 _ _ Hpre_r O2 G2) as O1.
    pose proof (at_least_segment 0 1 _ _ ltac:(lia) Hpre_r G2) as G1.
    exact (ordered_segment 0 _ _ Hfwd O1 G1).
  - rewrite !filter_app.
    rewrite (filter_update_segment 0 _ Hfwd), (filter_update_segment 1 _ Hpre_r),
      (filter_update_segment 2 _ Hbwd), (filter_update_segment 3 _ Hsave_r),
      (filter_update_segment 4 _ Hsp_r), (filter_update_segment 5 _ Hopt_r),
      (filter_update_segment 6 _ Hsched), (filter_update_segment 7 _ Hpost_r),
      (filter_update_segment 8 _ Heval).
    cbn [Nat.eqb orb app]. rewrite app_nil_r.
    rewrite optimize_trace. unfold update_events.
    destruct (pre_backward_preserves env r r1 step rd Hpre)
      as (-> & -> & -> & _ & -> & _ & -> & ->).
    rewrite <- !app_assoc. reflexivity.
Qed.

Lemma filter_update_split (pre post : list Event) (ev : Event) :
  ordered (pre ++ ev :: post) ->
  phase_rank ev = 7%nat ->
  filter is_update post = []
  /\ filter is_update (pre ++ ev :: post) = filter is_update pre.
Proof.
  intros Hord Hrank.
  pose proof (ordered_split pre post ev Hord) as Hpost.
  assert (Hnone : filter is_update post = []).
  { clear Hord. induction Hpost as [|x post Hx _ IH]; [reflexivity|].
    cbn [filter]. rewrite is_update_rank.
    rewrite Hrank in Hx.
    destruct (Nat.eqb_spec (phase_rank x) 5); [lia|].
    destruct (Nat.eqb_spec (phase_rank x) 6); [lia|].
    exact IH. }
  split; [exact Hnone|].
  rewrite filter_app. cbn [filter]. rewrite is_update_rank, Hrank, Hnone.
  cbn [Nat.eqb orb]. apply app_nil_r.
Qed.

(** C5: under the relocation (MCMC) variant, in every training iteration the
    controller's post-backward call comes after all optimizer steps, all
    gradient zeroing and one advance of every learning-rate schedule (these
    are exactly the update events before it, and none follows it), and its
    [lr] argument is the position learning rate the exponential schedule
    reports after that advance, the rate before the iteration times gamma;
    every completed iteration issues the call. *)
Theorem relocation_post_backward_follows_updates_with_live_lr :
  forall (env : Collaborators) (step : Z) (rest : list Scheduler) (r : Runner)
         (g l a : R) (e : nat) (m : MCMCStrategyCfg),
    strategy (cfg r) = MCMCStrategy m ->
    get_lr r MeansOpt = Ok a ->
    (forall (pre post : list Event) (pop : Population) (v : Strategy) (st : Z)
            (arg : PostArg),
        fst (train_step env step (Plain (ExponentialLR MeansOpt g e) l :: rest, r))
        = (pre ++ EvPostBackward pop v st arg :: post)%list ->
        filter is_update post = []
        /\ (exists mask,
               filter is_update pre
               = update_events r mask (Plain (ExponentialLR MeansOpt g e) l :: rest))
        /\ (forall m', v = MCMCStrategy m' -> arg = ArgLr (a * g)))
    /\ (forall out : list Scheduler * Runner,
           snd (train_step env step (Plain (ExponentialLR MeansOpt g e) l :: rest, r))
           = Ok out ->
           In (EvPostBackward Albedo (MCMCStrategy m) step (ArgLr (a * g)))
              (fst (train_step env step (Plain (ExponentialLR MeansOpt g e) l :: rest, r)))
           /\ exists rest',
               fst out = Plain (ExponentialLR MeansOpt g (S e)) (a * g) :: rest'
               /\ live_lr (fst out) = Ok (a * g)).
Proof.
  intros env step rest r g l a e m Hstrat Ha.
  set (scheds := Plain (ExponentialLR MeansOpt g e) l :: rest).
  split.
  - intros pre post pop v st arg Htr.
    assert (Hin : In (EvPostBackward pop v st arg)
                     (fst (train_step env step (scheds, r))))
      by (rewrite Htr; apply in_or_app; right; left; reflexivity).
    destruct (train_step_late_event env step scheds r _ Hin ltac:(simpl; lia))
      as (rd & r1 & mask & Hrd & Hpre & Hsave & Hsp & Hmask & H).
    destruct H as [H|H].
    { apply (rank_in 5 _ _ (optimize_ranks env r1 step mask)) in H. discriminate. }
    destruct H as (r2 & p & Hopt & Hp & H).
    destruct H as [H|[H|H]]; try discriminate.
    destruct (train_step_trace_ordered env step scheds r r1 r2 rd mask p
                Hrd Hpre Hsave Hsp Hmask Hopt Hp) as [Hord Hupd].
    rewrite Htr in Hord, Hupd.
    destruct (filter_update_split pre post _ Hord eq_refl) as [Hpost Hpre_upd].
    split; [exact Hpost|]. split.
    + exists mask. rewrite <- Hpre_upd. exact Hupd.
    + intros m' ->.
      destruct (post_backward_events env (snd p) (fst p) step rd _ H)
        as (pop' & arg' & Hev & Harg & _).
      injection Hev as -> Hv -> ->.
      rewrite <- Hv in Harg. cbn [post_arg] in Harg.
      destruct (pre_backward_preserves env r r1 step rd Hpre) as (_ & Ho1 & _).
      destruct (optimize_preserves env r1 r2 step mask Hopt) as (_ & Ho2 & _).
      assert (Ha2 : get_lr r2 MeansOpt = Ok a).
      { unfold get_lr in *. rewrite Ho2, Ho1. exact Ha. }
      destruct (step_all_head g a l e rest r2 p Ha2 Hp) as (rest' & Hhead).
      rewrite Hhead in Harg. cbn [live_lr get_last_lr bind] in Harg.
      injection Harg as <-. reflexivity.
  - intros out Hout.
    destruct (train_step_ok env step scheds r out Hout)
      as (rd & r1 & mask & r2 & p & r3 & Hrd & Hpre & Hsave & Hsp & Hmask & Hopt
          & Hp & Hpost & _ & ->).
    destruct (pre_backward_preserves env r r1 step rd Hpre) as (Hc1 & Ho1 & _).
    destruct (optimize_preserves env r1 r2 step mask Hopt) as (Hc2 & Ho2 & _).
    assert (Ha2 : get_lr r2 MeansOpt = Ok a).
    { unfold get_lr in *. rewrite Ho2, Ho1. exact Ha. }
    destruct (step_all_head g a l e rest r2 p Ha2 Hp) as (rest' & Hhead).
    assert (Hcfg : cfg (snd p) = cfg r).
    { rewrite (cfg_step_all _ _ _ Hp), Hc2, Hc1. reflexivity. }
    split.
    + rewrite (train_step_trace env step scheds r r1 r2 rd mask p) by assumption.
      do 7 (apply in_or_app; right). apply in_or_app. left.
      rewrite <- Hstrat, <- Hcfg.
      apply post_backward_albedo_event.
      rewrite Hcfg, Hstrat. cbn [post_arg]. rewrite Hhead. reflexivity.
    + exists rest'. cbn [fst]. split; [exact Hhead|].
      rewrite Hhead. reflexivity.
Qed.

(** ** The theorems at concrete inputs *)


Lemma relocation_post_backward_witness :
  exists r : Runner,
    Runner_init demo_sample_init
      (demo_cfg demo_mcmc demo_mcmc false false false false None) = Ok r
    /\ strategy (cfg r) = demo_mcmc
    /\ get_lr r MeansOpt = Ok (16 / 100000 * (11 / 10))
    /\ (forall (pre post : list Event) (pop : Population) (v : Strategy) (st : Z)
               (arg : PostArg),
           fst (train_step demo_env 0
                  (Plain (ExponentialLR MeansOpt (1 / 2) 0) 0 :: [], r))
           = (pre ++ EvPostBackward pop v st arg :: post)%list ->
           filter is_update post = []
           /\ (exists mask,
                  filter is_update pre
                  = update_events r mask (Plain (ExponentialLR MeansOpt (1 / 2) 0) 0 :: []))
           /\ (forall m', v = MCMCStrategy m'
                          -> arg = ArgLr (16 / 100000 * (11 / 10) * (1 / 2))))
    /\ (forall out : list Scheduler * Runner,
           snd (train_step demo_env 0
                  (Plain (ExponentialLR MeansOpt (1 / 2) 0) 0 :: [], r))
           = Ok out ->
           In (EvPostBackward Albedo demo_mcmc 0
                 (ArgLr (16 / 100000 * (11 / 10) * (1 / 2))))
              (fst (train_step demo_env 0
                      (Plain (ExponentialLR MeansOpt (1 / 2) 0) 0 :: [], r)))
           /\ exists rest',
               fst out
               = Plain (ExponentialLR MeansOpt (1 / 2) 1)
                   (16 / 100000 * (11 / 10) * (1 / 2)) :: rest'
               /\ live_lr (fst out) = Ok (16 / 100000 * (11 / 10) * (1 / 2))).
Proof.
  eexists. split; [reflexivity|]. split; [reflexivity|]. split; [reflexivity|].
  eapply (relocation_post_backward_follows_updates_with_live_lr
            demo_env 0 [] _ (1 / 2) 0 (16 / 100000 * (11 / 10)) 0);
    reflexivity.
Defined.

Lemma position_lr_witness :
  exists r : Runner,
    Runner_init demo_sample_init
      (demo_cfg demo_mcmc demo_mcmc false false false true None) = Ok r
    /\ (0 < 2)%Z
    /\ exists scheds r0,
        build_schedulers r = Ok (scheds, r0)
        /\ get_lr r MeansOpt = Ok (16 / 100000 * (11 / 10))
        /\ nth_error scheds 0
           = Some (Plain (ExponentialLR MeansOpt (Rpower (1 / 100) (1 / 2)) 0)
                     (16 / 100000 * (11 / 10)))
        /\ (exists scheds' r',
               advance_schedules (Z.to_nat 2) scheds r0 = Ok (scheds', r')
               /\ get_lr r' MeansOpt = Ok (16 / 100000 * (11 / 10) * (1 / 100)))
        /\ (true = true ->
            tl scheds
            = [ChainedScheduler [LinearLR BilGridOpt (1 / 100) 1000 0;
                                 ExponentialLR BilGridOpt (Rpower (1 / 100) (1 / 2)) 0]
                 (2 / 1000 * (1 / 100))]
            /\ forall k : nat,
                exists sk rk,
                  advance_schedules k scheds r0 = Ok (sk, rk)
                  /\ get_lr rk BilGridOpt
                     = Ok (2 / 1000 * warmup_factor k * Rpower (1 / 100) (1 / 2) ^ k)).
Proof.
  eexists. split; [reflexivity|]. split; [lia|].
  eapply (position_lr_decays_to_one_percent demo_sample_init
            (demo_cfg demo_mcmc demo_mcmc false false false true None));
    [reflexivity | reflexivity].
Defined.

(** ** Sparse gradients and the packed-mode assertion *)

Create HintDb noassert.

Lemma no_assert_bind {A B : Type} (m : result A) (k : A -> result B) :
  raises_assertion m = false ->
  (forall a, raises_assertion (k a) = false) ->
  raises_assertion (bind m k) = false.
Proof. intros Hm Hk. destruct m as [a|e]; [apply Hk | exact Hm]. Qed.

Lemma no_assert_bindM {A B : Type} (m : M A) (k : A -> M B) :
  raises_assertion (snd m) = false ->
  (forall a, raises_assertion (snd (k a)) = false) ->
  raises_assertion (snd (bindM m k)) = false.
Proof.
  intros Hm Hk. rewrite result_bindM.
  destruct (snd m) as [a|e]; [apply Hk | exact Hm].
Qed.

Lemma no_assert_mapM {A B : Type} (f : A -> result B) (l : list A) :
  (forall a, raises_assertion (f a) = false) ->
  raises_assertion (mapM f l) = false.
Proof.
  intros Hf. induction l as [|a l IH]; [reflexivity|].
  cbn [mapM]. apply no_assert_bind; [apply Hf|]. intros b.
  apply no_assert_bind; [exact IH|]. reflexivity.
Qed.

Ltac no_assert :=
  repeat first
    [ reflexivity
    | apply no_assert_bind; [|intros ?]
    | apply no_assert_bindM; [|intros ?]
    | apply no_assert_mapM; intros ?
    | solve [auto with noassert]
    | progress cbn [snd]
    | match goal with
      | |- raises_assertion (snd (if ?b then _ else _)) = false => destruct b
      | |- raises_assertion (if ?b then _ else _) = false => destruct b
      | |- raises_assertion (snd (match ?x with _ => _ end)) = false => destruct x
      | |- raises_assertion (match ?x with _ => _ end) = false => destruct x
      | |- raises_assertion (let (_, _) := ?x in _) = false => destruct x
      end ].

Lemma no_assert_get1 (splats' : ParameterDict) (k : string) :
  raises_assertion (get1 splats' k) = false.
Proof. unfold get1. no_assert. Qed.

Lemma no_assert_get2 (splats' : ParameterDict) (k : string) :
  raises_assertion (get2 splats' k) = false.
Proof. unfold get2. no_assert. Qed.

Lemma no_assert_bcast2 (f : R -> R -> R) (xs ys : list R) :
  raises_assertion (bcast2 f xs ys) = false.
Proof. unfold bcast2. no_assert. Qed.

#[local] Hint Resolve no_assert_get1 no_assert_get2 no_assert_bcast2 : noassert.

Lemma no_assert_bcast_rows (f : R -> R -> R) (A B : list (list R)) :
  raises_assertion (bcast_rows f A B) = false.
Proof. unfold bcast_rows. no_assert. Qed.

#[local] Hint Resolve no_assert_bcast_rows : noassert.

Lemma no_assert_effective_opacities (splats' : ParameterDict) (t : list R) :
  raises_assertion (effective_opacities splats' t) = false.
Proof.
  unfold effective_opacities, time_alpha, normalized_time_delta. no_assert.
Qed.

#[local] Hint Resolve no_assert_effective_opacities : noassert.

Lemma no_assert_rasterize_splats (env : Collaborators) (r : Runner)
    (splats' : ParameterDict) (t : list R) (cam : Camera) (masks : option (list bool))
    (mode : option RasterizeMode) (image_id : Z) (bg : option (list (list R))) :
  raises_assertion (rasterize_splats env r splats' t cam masks mode image_id bg) = false.
Proof. unfold rasterize_splats, rasterizer_args. no_assert. Qed.

#[local] Hint Resolve no_assert_rasterize_splats : noassert.

Lemma no_assert_train_render (env : Collaborators) (r : Runner) (step : Z) (data : Sample) :
  raises_assertion (train_render env r step data) = false.
Proof. unfold train_render, train_compose, shading_of. no_assert. Qed.

Lemma no_assert_get_lr (r : Runner) (o : OptRef) :
  raises_assertion (get_lr r o) = false.
Proof. unfold get_lr. no_assert. Qed.

#[local] Hint Resolve no_assert_train_render no_assert_get_lr : noassert.

Lemma no_assert_chained_step (ss : list BasicScheduler) :
  forall r : Runner, raises_assertion (chained_step ss r) = false.
Proof.
  induction ss as [|s ss IH]; intros r; cbn [chained_step]; [reflexivity|].
  unfold basic_step. no_assert.
Qed.

#[local] Hint Resolve no_assert_chained_step : noassert.

Lemma no_assert_step_all (ss : list Scheduler) :
  forall r : Runner, raises_assertion (step_all ss r) = false.
Proof.
  induction ss as [|s ss IH]; intros r; cbn [step_all]; [reflexivity|].
  apply no_assert_bind.
  - destruct s; unfold scheduler_step, basic_step; no_assert.
  - intros p. apply no_assert_bind; [apply IH | reflexivity].
Qed.

Lemma no_assert_forM_param (env : Collaborators) (pop : Population) (step : Z)
    (mask : option (list bool)) (opts : list (string * Optimizer)) (p : ParameterDict) :
  raises_assertion (snd (forM (step_param env pop step mask) opts p)) = false.
Proof.
  destruct (forM_step_param env pop step mask opts p) as [_ [p' ->]]. reflexivity.
Qed.

Lemma no_assert_forM_aux (owner : Owner) (opts : list Optimizer) :
  raises_assertion (snd (forM (step_aux owner) opts tt)) = false.
Proof. rewrite forM_step_aux. reflexivity. Qed.

#[local] Hint Resolve no_assert_step_all no_assert_forM_param no_assert_forM_aux : noassert.

Lemma no_assert_optimize (env : Collaborators) (r : Runner) (step : Z)
    (mask : option (list bool)) :
  raises_assertion (snd (optimize env r step mask)) = false.
Proof.
  unfold optimize, shading_of, lift, ret. no_assert.
Qed.

Lemma no_assert_sparsify (r : Runner) :
  sparse_grad (cfg r) = false \/ packed (cfg r) = true ->
  raises_assertion (snd (sparsify_gradients r)) = false.
Proof.
  intros H. unfold sparsify_gradients.
  destruct (sparse_grad (cfg r)) eqn:Es; [|reflexivity].
  destruct H as [H|H]; [discriminate|]. rewrite H.
  destruct (forM_emit_ranks EvSparsify 4 (keys (splats r)) (fun _ => eq_refl))
    as (_ & -> & _).
  reflexivity.
Qed.

Lemma no_assert_pre_backward (env : Collaborators) (r : Runner) (step : Z) (rd : Rendered) :
  raises_assertion (snd (pre_backward env r step rd)) = false.
Proof.
  unfold pre_backward, shading_state_of, shading_info_of, lift, emit, ret. no_assert.
Qed.

Lemma no_assert_save_checkpoint (r : Runner) (step : Z) :
  raises_assertion (snd (save_checkpoint r step)) = false.
Proof. unfold save_checkpoint, checkpoint_data, lift, emit, ret. no_assert. Qed.

Lemma no_assert_visibility_mask (r : Runner) (info : Info) :
  raises_assertion (visibility_mask r info) = false.
Proof. unfold visibility_mask, scatter_mask. no_assert. Qed.

Lemma no_assert_post_backward (env : Collaborators) (r : Runner) (scheds : list Scheduler)
    (step : Z) (rd : Rendered) :
  raises_assertion (snd (post_backward env r scheds step rd)) = false.
Proof.
  unfold post_backward, post_arg, live_lr, shading_of, shading_state_of,
    shading_info_of, lift, emit, ret.
  no_assert.
Qed.

Lemma no_assert_periodic_eval (r : Runner) (step : Z) :
  raises_assertion (snd (periodic_eval r step)) = false.
Proof. unfold periodic_eval, lift, emit, ret, raise. no_assert. Qed.

(** With sparse gradients off, or on together with packed mode, no stage of
    an iteration ends in an assertion failure. *)
Lemma no_assert_train_step (env : Collaborators) (step : Z) (scheds : list Scheduler)
    (r : Runner) :
  sparse_grad (cfg r) = false \/ packed (cfg r) = true ->
  raises_assertion (snd (train_step env step (scheds, r))) = false.
Proof.
  intros Hflags. unfold train_step. cbn [fst snd].
  apply no_assert_bindM; [apply no_assert_train_render|]. intros rd.
  apply no_assert_bindM; [reflexivity|]. intros _.
  apply no_assert_bindM; [destruct (use_shading (cfg r)); reflexivity|]. intros _.
  rewrite result_bindM.
  destruct (snd (pre_backward env r step rd)) as [r1|e] eqn:Epre.
  2:{ pose proof (no_assert_pre_backward env r step rd) as H.
      rewrite Epre in H. exact H. }
  destruct (pre_backward_preserves env r r1 step rd Epre) as (Hc & _).
  apply no_assert_bindM; [reflexivity|]. intros _.
  apply no_assert_bindM; [apply no_assert_save_checkpoint|]. intros _.
  apply no_assert_bindM; [apply no_assert_sparsify; rewrite Hc; exact Hflags|].
  intros _.
  apply no_assert_bindM; [apply no_assert_visibility_mask|]. intros mask.
  apply no_assert_bindM; [apply no_assert_optimize|]. intros r2.
  apply no_assert_bindM.
  { destruct (step_schedulers_spec scheds r2) as (-> & _). apply no_assert_step_all. }
  intros p.
  apply no_assert_bindM; [apply no_assert_post_backward|]. intros r3.
  apply no_assert_bindM; [apply no_assert_periodic_eval|]. intros _.
  reflexivity.
Qed.

Lemma set_lr_fields (r : Runner) (o : OptRef) (y : R) :
  cfg (set_lr r o y) = cfg r
  /\ splats (set_lr r o y) = splats r
  /\ shading_splats (set_lr r o y) = shading_splats r
  /\ strategy_state (set_lr r o y) = strategy_state r
  /\ shading_strategy_state (set_lr r o y) = shading_strategy_state r
  /\ app_module (set_lr r o y) = app_module r.
Proof.
  destruct o; unfold set_lr; [repeat split|].
  destruct (bil_grid_optimizers r); repeat split.
Qed.

(** The forward pass reads the configuration and the two populations only. *)
Lemma train_render_congr (env : Collaborators) (r r' : Runner) (step : Z) (data : Sample) :
  cfg r' = cfg r -> splats r' = splats r -> shading_splats r' = shading_splats r ->
  train_render env r' step data = train_render env r step data.
Proof.
  intros Hc Hs Hsh.
  unfold train_render, rasterize_splats, rasterizer_args, shading_of.
  rewrite Hc, Hs, Hsh. reflexivity.
Qed.

Lemma train_render_shading_info (env : Collaborators) (r : Runner) (step : Z)
    (data : Sample) (rd : Rendered) :
  train_render env r step data = Ok rd ->
  use_shading (cfg r) = true ->
  exists si, rd_shading_info rd = Some si.
Proof.
  unfold train_render. intros H Hsh. rewrite Hsh in H.
  apply bind_ok_inv in H as (out & _ & H).
  apply bind_ok_inv in H as (shaded & Hshaded & H).
  apply bind_ok_inv in H as (colors & _ & H).
  injection H as <-. cbn [rd_shading_info].
  apply bind_ok_inv in Hshaded as (sh & _ & Hshaded).
  apply bind_ok_inv in Hshaded as (sout & _ & Hshaded).
  apply bind_ok_inv in Hshaded as (cs & _ & Hshaded).
  injection Hshaded as <-. eexists. reflexivity.
Qed.

Lemma pre_backward_ok (env : Collaborators) (r : Runner) (step : Z) (rd : Rendered) :
  (use_shading (cfg r) = true ->
   (exists st, shading_strategy_state r = Some st)
   /\ (exists si, rd_shading_info rd = Some si)) ->
  exists r1, snd (pre_backward env r step rd) = Ok r1.
Proof.
  intros H. unfold pre_backward. rewrite result_bindM. cbn [emit snd].
  destruct (use_shading (cfg r)); [|eexists; reflexivity].
  destruct (H eq_refl) as [[st Hst] [si Hsi]].
  rewrite result_bindM. unfold shading_state_of, shading_info_of.
  cbn [set_strategy_state shading_strategy_state]. rewrite Hst. cbn [lift snd].
  rewrite result_bindM, Hsi. cbn [lift snd].
  rewrite result_bindM. cbn [emit ret snd]. eexists. reflexivity.
Qed.

Lemma save_checkpoint_ok (r : Runner) (step : Z) :
  app_opt (cfg r) = false -> snd (save_checkpoint r step) = Ok tt.
Proof.
  intros Happ. unfold save_checkpoint, checkpoint_data. rewrite Happ.
  destruct (is_step_of step (save_steps (cfg r)) || Z.eqb step (max_steps (cfg r) - 1));
    reflexivity.
Qed.

(** A constructed runner can build its schedules when the step budget is not
    zero; building them changes learning rates only. *)
Lemma build_schedulers_ok (sample_init : bool -> nat -> InitSample) (c : Config)
    (r : Runner) :
  Runner_init sample_init c = Ok r ->
  max_steps c <> 0%Z ->
  exists scheds r0,
    build_schedulers r = Ok (scheds, r0)
    /\ cfg r0 = cfg r /\ splats r0 = splats r /\ shading_splats r0 = shading_splats r
    /\ shading_strategy_state r0 = shading_strategy_state r
    /\ app_module r0 = app_module r.
Proof.
  intros Hinit Hsteps.
  destruct (Runner_init_inv sample_init c r Hinit)
    as (Hcfg & Hcreate & _ & _ & _ & _ & _ & _ & _ & Hbil).
  assert (Hmeans : get_lr r MeansOpt = Ok (means_lr c * (11 / 10))).
  { unfold get_lr.
    replace (optimizers r) with (snd (splats r, optimizers r)) by reflexivity.
    rewrite Hcreate, created_means_lr. reflexivity. }
  unfold build_schedulers. rewrite Hcfg.
  destruct (Z.eqb_spec (max_steps c) 0) as [|_]; [contradiction|].
  rewrite Hmeans. cbn [bind].
  destruct (use_bilagrid c) eqn:Ebil.
  - assert (Hgrid : get_lr r BilGridOpt = Ok (2 / 1000)).
    { unfold get_lr. rewrite Hbil. unfold init_bil_grid_optimizers.
      rewrite Ebil. reflexivity. }
    rewrite Hgrid. cbn [bind].
    destruct (set_lr_fields r BilGridOpt (2 / 1000 * (1 / 100)))
      as (H1 & H2 & H3 & _ & H5 & H6).
    exists [Plain (ExponentialLR MeansOpt (Rpower (1 / 100) (1 / IZR (max_steps c))) 0)
                    (means_lr c * (11 / 10));
            ChainedScheduler
              [LinearLR BilGridOpt (1 / 100) 1000 0;
               ExponentialLR BilGridOpt (Rpower (1 / 100) (1 / IZR (max_steps c))) 0]
              (2 / 1000 * (1 / 100))],
      (set_lr r BilGridOpt (2 / 1000 * (1 / 100))).
    split; [reflexivity|]. repeat split; congruence.
  - exists [Plain (ExponentialLR MeansOpt (Rpower (1 / 100) (1 / IZR (max_steps c))) 0)
                    (means_lr c * (11 / 10))], r.
    split; [reflexivity|]. repeat split; congruence.
Qed.

Lemma check_sanity_error (s : Strategy) (params : ParameterDict)
    (opts : list (string * Optimizer)) (e : Exn) :
  check_sanity s params opts = Err e -> e = AssertionError "check_sanity".
Proof.
  unfold check_sanity.
  destruct (subset_strings (keys params) (keys opts)
            && subset_strings (keys opts) (keys params)
            && subset_strings ["means"; "scales"; "quats"; "opacities"] (keys params));
    [discriminate|].
  intros H. injection H as <-. reflexivity.
Qed.

(** The only assertion the constructor can fail is the strategies' sanity
    check. *)
Lemma Runner_init_assertion (sample_init : bool -> nat -> InitSample) (c : Config)
    (msg : string) :
  Runner_init sample_init c = Err (AssertionError msg) -> msg = "check_sanity".
Proof.
  unfold Runner_init.
  destruct (create_splats_with_optimizers (sample_init false (init_num_pts c)) (init_opa c)
              (means_lr c) (scales_lr c) (opacities_lr c) (quats_lr c) (sh0_lr c)
              (11 / 10) (sparse_grad c) (visible_adam c) false) as [sp op].
  destruct (check_sanity (strategy c) sp op) as [[]|e] eqn:E1; cbn [bind].
  2:{ intros H. apply check_sanity_error in E1. subst e.
      injection H as <-. reflexivity. }
  destruct (use_shading c).
  - destruct (create_splats_with_optimizers (sample_init true (init_num_pts c)) (init_opa c)
                (means_lr c) (scales_lr c) (opacities_lr c) (quats_lr c) (sh0_lr c)
                (11 / 10) (sparse_grad c) (visible_adam c) true) as [s o].
    destruct (check_sanity (shading_strategy c) s o) as [[]|e] eqn:E2; cbn [bind].
    2:{ intros H. apply check_sanity_error in E2. subst e.
        injection H as <-. reflexivity. }
    unfold init_strategy_state, init_shading_strategy_state, perform_init,
      initialize_state, strategy_init_dispatch, shading_init_dispatch,
      init_compression, init_app_optimizers, init_lpips.
    intros H.
    repeat match type of H with
           | context [match ?x with _ => _ end] => destruct x; cbn in H
           | context [if ?b then _ else _] => destruct b; cbn in H
           end; discriminate.
  - cbn [bind].
    unfold init_strategy_state, init_shading_strategy_state, perform_init,
      initialize_state, strategy_init_dispatch, shading_init_dispatch,
      init_compression, init_app_optimizers, init_lpips.
    intros H.
    repeat match type of H with
           | context [match ?x with _ => _ end] => destruct x; cbn in H
           | context [if ?b then _ else _] => destruct b; cbn in H
           end; discriminate.
Qed.

Lemma steps_of_positive (n : Z) :
  (0 < n)%Z -> exists rest, steps_of n = 0%Z :: rest.
Proof.
  intros Hn. unfold steps_of.
  destruct (Z.to_nat n) as [|k] eqn:E; [lia|].
  cbn [seq map]. eexists. reflexivity.
Qed.

(** An iteration that fails in the sparse-gradient stage stops there. *)
Lemma train_step_sparsify_abort (env : Collaborators) (step : Z)
    (scheds : list Scheduler) (r r1 : Runner) (rd : Rendered) (e : Exn) :
  train_render env r step (trainloader env step) = Ok rd ->
  snd (pre_backward env r step rd) = Ok r1 ->
  snd (save_checkpoint r1 step) = Ok tt ->
  sparsify_gradients r1 = ([], Err e) ->
  train_step env step (scheds, r)
  = (((EvForward Albedo :: (if use_shading (cfg r) then [EvForward Shading] else []))
      ++ fst (pre_backward env r step rd)
      ++ [EvBackward step]
      ++ fst (save_checkpoint r1 step))%list,
     Err e).
Proof.
  intros Hrd Hpre Hsave Hsp.
  assert (Htail :
    (r1 <~ pre_backward env r step rd;;
     _ <~ emit (EvBackward step);;
     _ <~ save_checkpoint r1 step;;
     _ <~ sparsify_gradients r1;;
     mask <~ lift (visibility_mask r1 (rd_info rd));;
     r2 <~ optimize env r1 step mask;;
     p <~ step_schedulers scheds r2;;
     r3 <~ post_backward env (snd p) (fst p) step rd;;
     _ <~ periodic_eval r3 step;; ret (fst p, r3))
    = ((fst (pre_backward env r step rd)
        ++ [EvBackward step]
        ++ fst (save_checkpoint r1 step))%list, Err e)).
  { apply injective_projections; cbn [fst snd].
    - rewrite trace_bindM, Hpre. f_equal.
      rewrite trace_bindM. cbn [emit fst snd app]. f_equal.
      rewrite trace_bindM, Hsave, trace_bindM, Hsp. cbn [fst snd].
      rewrite !app_nil_r. reflexivity.
    - rewrite result_bindM, Hpre, result_bindM. cbn [emit snd].
      rewrite result_bindM, Hsave, result_bindM, Hsp. reflexivity. }
  unfold train_step. cbn [fst snd].
  apply injective_projections; cbn [fst snd].
  - rewrite trace_bindM, Hrd. cbn [lift fst snd app].
    rewrite trace_bindM. cbn [emit fst snd app]. f_equal.
    rewrite trace_bindM.
    destruct (use_shading (cfg r)); cbn [emit ret fst snd app]; rewrite Htail;
      reflexivity.
  - rewrite result_bindM, Hrd. cbn [lift snd].
    rewrite result_bindM. cbn [emit snd]. rewrite result_bindM.
    destruct (use_shading (cfg r)); cbn [emit ret snd]; rewrite Htail;
      reflexivity.
Qed.

(** C7: with sparse gradients on and packed mode off, a runner whose
    construction and first forward pass succeed aborts in the first
    iteration with the packed-mode assertion: the run's trace ends with that
    iteration's backward pass and checkpoint, before any optimizer step.
    The constructor never raises that assertion.  With sparse gradients off,
    or on together with packed mode, no iteration ends in an assertion
    failure. *)
Theorem sparse_without_packed_aborts_at_first_iteration :
  forall (env : Collaborators) (sample_init : bool -> nat -> InitSample)
         (c : Config) (r : Runner) (rd : Rendered),
    Runner_init sample_init c = Ok r ->
    sparse_grad c = true ->
    packed c = false ->
    (0 < max_steps c)%Z ->
    train_render env r 0 (trainloader env 0) = Ok rd ->
    snd (main env sample_init c)
    = Err (AssertionError "Sparse gradients only work with packed mode.")
    /\ In (EvBackward 0) (fst (main env sample_init c))
    /\ Forall (fun e => (phase_rank e <= 3)%nat) (fst (main env sample_init c))
    /\ (forall k, In (EvBackward k) (fst (main env sample_init c)) -> k = 0%Z)
    /\ (forall sample_init' c' msg,
           Runner_init sample_init' c' = Err (AssertionError msg) ->
           msg = "check_sanity")
    /\ (forall env' step scheds r',
           sparse_grad (cfg r') = false \/ packed (cfg r') = true ->
           raises_assertion (snd (train_step env' step (scheds, r'))) = false).
Proof.
  intros env sample_init c r rd Hinit Hsparse Hpacked Hsteps Hrd.
  destruct (Runner_init_inv sample_init c r Hinit)
    as (Hcfg & _ & Hshading & _ & Hsst & _ & Happ & _ & _ & _).
  destruct (build_schedulers_ok sample_init c r Hinit ltac:(lia))
    as (scheds & r0 & Hbuild & Hc0 & Hs0 & Hsh0 & Hst0 & _).
  assert (Hrd0 : train_render env r0 0 (trainloader env 0) = Ok rd).
  { rewrite (train_render_congr env r r0 0 _ Hc0 Hs0 Hsh0). exact Hrd. }
  destruct (pre_backward_ok env r0 0 rd) as [r1 Hpre].
  { rewrite Hc0, Hcfg. intros Hus. split.
    - rewrite Hst0. unfold init_shading_strategy_state, shading_init_dispatch in Hsst.
      rewrite Hus in Hsst.
      apply bind_ok_inv in Hsst as (st & _ & Hsst). injection Hsst as Hsst.
      exists st. symmetry. exact Hsst.
    - apply (train_render_shading_info env r0 0 (trainloader env 0) rd Hrd0).
      rewrite Hc0, Hcfg. exact Hus. }
  destruct (pre_backward_preserves env r0 r1 0 rd Hpre) as (Hc1 & _).
  assert (Hsave : snd (save_checkpoint r1 0) = Ok tt).
  { apply save_checkpoint_ok. rewrite Hc1, Hc0, Hcfg. exact Happ. }
  assert (Hsp : sparsify_gradients r1
                = ([], Err (AssertionError "Sparse gradients only work with packed mode."))).
  { unfold sparsify_gradients. rewrite Hc1, Hc0, Hcfg, Hsparse, Hpacked. reflexivity. }
  destruct (steps_of_positive (max_steps c) Hsteps) as [rest Hrest].
  assert (Hmain :
    main env sample_init c
    = (((EvForward Albedo :: (if use_shading (cfg r0) then [EvForward Shading] else []))
        ++ fst (pre_backward env r0 0 rd)
        ++ [EvBackward 0%Z]
        ++ fst (save_checkpoint r1 0))%list,
       Err (AssertionError "Sparse gradients only work with packed mode."))).
  { unfold main. rewrite Hinit. cbn [lift bindM].
    unfold train. rewrite Hbuild, Hcfg, Hrest. cbn [lift bindM forM].
    rewrite (train_step_sparsify_abort env 0 scheds r0 r1 rd _ Hrd0 Hpre Hsave Hsp).
    cbn [bindM app]. reflexivity. }
  rewrite Hmain. cbn [fst snd].
  assert (Hfwd : Forall (fun e => phase_rank e = 0%nat)
                   (EvForward Albedo
                    :: (if use_shading (cfg r0) then [EvForward Shading] else [])))
    by (destruct (use_shading (cfg r0)); repeat constructor).
  pose proof (pre_backward_ranks env r0 0 rd) as Hpre_r.
  pose proof (save_checkpoint_ranks r1 0) as Hsave_r.
  split; [reflexivity|]. split; [|split; [|split; [|split]]].
  - apply in_or_app. right. apply in_or_app. right. left. reflexivity.
  - repeat (apply Forall_app; split).
    + eapply Forall_impl; [|exact Hfwd]. intros x Hx. simpl in Hx. lia.
    + eapply Forall_impl; [|exact Hpre_r]. intros x Hx. simpl in Hx. lia.
    + repeat constructor.
    + eapply Forall_impl; [|exact Hsave_r]. intros x Hx. simpl in Hx. lia.
  - intros k Hk.
    apply in_app_or in Hk as [Hk|Hk].
    { apply (rank_in 0 _ _ Hfwd) in Hk. discriminate. }
    apply in_app_or in Hk as [Hk|Hk].
    { apply (rank_in 1 _ _ Hpre_r) in Hk. discriminate. }
    apply in_app_or in Hk as [Hk|Hk].
    { destruct Hk as [Hk|[]]. injection Hk as <-. reflexivity. }
    apply (rank_in 3 _ _ Hsave_r) in Hk. discriminate.
  - intros si' c' msg. apply Runner_init_assertion.
  - intros env' step scheds' r'. apply no_assert_train_step.
Qed.

Lemma sparse_without_packed_witness :
  exists (r : Runner) (rd : Rendered),
    Runner_init demo_sample_init
      (demo_cfg demo_mcmc demo_mcmc false true false false None) = Ok r
    /\ train_render demo_env r 0 (trainloader demo_env 0) = Ok rd
    /\ snd (main demo_env demo_sample_init
              (demo_cfg demo_mcmc demo_mcmc false true false false None))
       = Err (AssertionError "Sparse gradients only work with packed mode.")
    /\ In (EvBackward 0)
          (fst (main demo_env demo_sample_init
                  (demo_cfg demo_mcmc demo_mcmc false true false false None)))
    /\ Forall (fun e => (phase_rank e <= 3)%nat)
         (fst (main demo_env demo_sample_init
                 (demo_cfg demo_mcmc demo_mcmc false true false false None)))
    /\ (forall k,
           In (EvBackward k)
              (fst (main demo_env demo_sample_init
                      (demo_cfg demo_mcmc demo_mcmc false true false false None))) ->
           k = 0%Z)
    /\ (forall sample_init' c' msg,
           Runner_init sample_init' c' = Err (AssertionError msg) ->
           msg = "check_sanity")
    /\ (forall env' step scheds r',
           sparse_grad (cfg r') = false \/ packed (cfg r') = true ->
           raises_assertion (snd (train_step env' step (scheds, r'))) = false).
Proof.
  eexists. eexists. split; [reflexivity|]. split; [reflexivity|].
  eapply (sparse_without_packed_aborts_at_first_iteration demo_env demo_sample_init
            (demo_cfg demo_mcmc demo_mcmc false true false false None));
    reflexivity.
Defined.

(** ** The anisotropic time coupling *)

Lemma get2_update_other (splats' : ParameterDict) (k k' : string)
    (f : Tensor -> Tensor) :
  String.eqb k k' = false ->
  get2 (update k' f splats') k = get2 splats' k.
Proof. intros H. unfold get2. rewrite lookup_update_other by exact H. reflexivity. Qed.

Lemma get1_update_other (splats' : ParameterDict) (k k' : string)
    (f : Tensor -> Tensor) :
  String.eqb k k' = false ->
  get1 (update k' f splats') k = get1 splats' k.
Proof. intros H. unfold get1. rewrite lookup_update_other by exact H. reflexivity. Qed.

Lemma normalized_row_nth :
  forall (m t ls : list R) (j : nat),
    length t = length m -> length ls = length m -> (j < length m)%nat ->
    nth j (normalized_row t m ls) 0 = (nth j t 0 - nth j m 0) / exp (nth j ls 0).
Proof.
  induction m as [|b m IH]; intros t ls j Ht Hls Hj; [simpl in Hj; lia|].
  destruct t as [|a t]; [discriminate|].
  destruct ls as [|l ls]; [discriminate|].
  simpl in Ht, Hls, Hj.
  change (normalized_row (a :: t) (b :: m) (l :: ls))
    with ((a - b) / exp l :: normalized_row t m ls).
  destruct j as [|j]; [reflexivity|].
  cbn [nth]. apply IH; lia.
Qed.

Lemma param_events_in (pop : Population) (mask : option (list bool))
    (opts : list (string * Optimizer)) (k : string) :
  In k (keys opts) -> In (EvOptimizerStep (OwnPop pop) k mask) (param_events pop mask opts).
Proof.
  unfold keys, param_events. intros H.
  apply in_map_iff in H as (o & <- & Ho).
  apply in_flat_map. exists o. split; [exact Ho | left; reflexivity].
Qed.

Lemma created_time_anisos (sample : InitSample) (o m s' ops q sh sc : R) (sg va : bool) :
  In "time_anisos"
     (keys (snd (create_splats_with_optimizers sample o m s' ops q sh sc sg va true)))
  /\ exists rows,
      lookup "time_anisos"
        (fst (create_splats_with_optimizers sample o m s' ops q sh sc sg va true))
      = Some (T2 rows)
      /\ length rows = length (init_points sample).
Proof.
  split.
  - cbv [create_splats_with_optimizers keys map app fst snd].
    do 7 right. left. reflexivity.
  - eexists. split; [reflexivity|]. apply repeat_length.
Qed.

(** C4: the shading population carries a [time_anisos] group with its own
    optimizer, stepped in every completed iteration; yet the arguments built
    for the rasterizer do not depend on that group's value, and on a
    well-shaped population the normalized time deltas are the raw
    coordinate-wise deltas divided by [exp(logTimeScale)]. *)
Theorem time_anisos_optimized_but_unused_by_kernel :
  forall (env : Collaborators) (sample_init : bool -> nat -> InitSample)
         (c : Config) (r : Runner) (step : Z) (scheds : list Scheduler)
         (out : list Scheduler * Runner),
    Runner_init sample_init c = Ok r ->
    use_shading c = true ->
    snd (train_step env step (scheds, r)) = Ok out ->
    (exists sh rows,
        shading_splats r = Some sh
        /\ lookup "time_anisos" sh = Some (T2 rows)
        /\ In "time_anisos" (keys (shading_optimizers r)))
    /\ (exists mask,
           In (EvOptimizerStep (OwnPop Shading) "time_anisos" mask)
              (fst (train_step env step (scheds, r))))
    /\ (forall (r' : Runner) (splats' : ParameterDict) (t : list R) (v : Tensor)
               (cam : Camera) (mode : option RasterizeMode) (image_id : Z)
               (bg : option (list (list R))),
           normalized_time_delta (update "time_anisos" (fun _ => v) splats') t
           = normalized_time_delta splats' t
           /\ rasterizer_args env r' (update "time_anisos" (fun _ => v) splats') t cam
                mode image_id bg
              = rasterizer_args env r' splats' t cam mode image_id bg)
    /\ (forall (splats' : ParameterDict) (t : list R) (n d i : nat) (m ls : list R),
           temporal_shape splats' n d = true ->
           length t = d ->
           row_of splats' "times" i = Some m ->
           row_of splats' "time_scales" i = Some ls ->
           exists rows row,
             normalized_time_delta splats' t = Ok rows
             /\ nth_error rows i = Some row
             /\ length row = d
             /\ forall j, (j < d)%nat ->
                          nth j row 0 = (nth j t 0 - nth j m 0) / exp (nth j ls 0)).
Proof.
  intros env sample_init c r step scheds out Hinit Hshading Hout.
  destruct (Runner_init_inv sample_init c r Hinit) as (Hcfg & _ & Hsh & _).
  rewrite Hshading in Hsh. destruct Hsh as (sh & Hsh & Hcreate).
  destruct (created_time_anisos (sample_init true (init_num_pts c)) (init_opa c)
              (means_lr c) (scales_lr c) (opacities_lr c) (quats_lr c) (sh0_lr c)
              (11 / 10) (sparse_grad c) (visible_adam c)) as (Hkey & rows & Hrows & _).
  rewrite <- Hcreate in Hkey, Hrows. cbn [fst snd] in Hkey, Hrows.
  split; [exists sh, rows; repeat split; assumption|].
  split; [|split].
  - destruct (train_step_ok env step scheds r out Hout)
      as (rd & r1 & mask & r2 & p & r3 & Hrd & Hpre & Hsave & Hsp & Hmask & Hopt
          & Hp & _).
    exists mask.
    rewrite (train_step_trace env step scheds r r1 r2 rd mask p) by assumption.
    do 5 (apply in_or_app; right). apply in_or_app. left.
    rewrite optimize_trace.
    destruct (pre_backward_preserves env r r1 step rd Hpre)
      as (-> & _ & _ & _ & -> & _ & -> & _).
    rewrite Hcfg, Hshading, Hsh.
    do 3 (apply in_or_app; right).
    apply param_events_in. exact Hkey.
  - intros r' splats' t v cam mode image_id bg.
    assert (Hdelta : normalized_time_delta (update "time_anisos" (fun _ => v) splats') t
                     = normalized_time_delta splats' t).
    { unfold normalized_time_delta.
      rewrite !get2_update_other by reflexivity. reflexivity. }
    split; [exact Hdelta|].
    unfold rasterizer_args, effective_opacities, time_alpha.
    rewrite Hdelta, !get2_update_other, !get1_update_other by reflexivity.
    reflexivity.
  - intros splats' t n d i m ls Hshape Lt Hm Hls.
    destruct (temporal_shape_inv _ _ _ Hshape)
      as (ops & tm & ts & _ & Etm & Ets & _ & Ltm & Lts & Wtm & Wts).
    unfold row_of in Hm, Hls. rewrite Etm in Hm. rewrite Ets in Hls.
    pose proof (rows_of_width_nth d tm i m Wtm Hm) as Lm.
    pose proof (rows_of_width_nth d ts i ls Wts Hls) as Lls.
    eexists. exists (normalized_row t m ls).
    split; [apply (normalized_time_delta_rows splats' t n d tm ts); assumption|].
    split; [apply normalized_time_delta_nth; assumption|].
    split.
    + unfold normalized_row. rewrite map2_length.
      * rewrite map2_length; lia.
      * rewrite map2_length, length_map; lia.
    + intros j Hj. apply normalized_row_nth; lia.
Qed.

Lemma time_anisos_witness :
  exists (r : Runner) (out : list Scheduler * Runner),
    Runner_init demo_sample_init
      (demo_cfg demo_mcmc demo_mcmc false false false false None) = Ok r
    /\ snd (train_step demo_env 0
              ([Plain (ExponentialLR MeansOpt (1 / 2) 0) 0], r)) = Ok out
    /\ (exists sh rows,
           shading_splats r = Some sh
           /\ lookup "time_anisos" sh = Some (T2 rows)
           /\ In "time_anisos" (keys (shading_optimizers r)))
    /\ (exists mask,
           In (EvOptimizerStep (OwnPop Shading) "time_anisos" mask)
              (fst (train_step demo_env 0
                      ([Plain (ExponentialLR MeansOpt (1 / 2) 0) 0], r))))
    /\ (forall (r' : Runner) (splats' : ParameterDict) (t : list R) (v : Tensor)
               (cam : Camera) (mode : option RasterizeMode) (image_id : Z)
               (bg : option (list (list R))),
           normalized_time_delta (update "time_anisos" (fun _ => v) splats') t
           = normalized_time_delta splats' t
           /\ rasterizer_args demo_env r' (update "time_anisos" (fun _ => v) splats') t
                cam mode image_id bg
              = rasterizer_args demo_env r' splats' t cam mode image_id bg)
    /\ (forall (splats' : ParameterDict) (t : list R) (n d i : nat) (m ls : list R),
           temporal_shape splats' n d = true ->
           length t = d ->
           row_of splats' "times" i = Some m ->
           row_of splats' "time_scales" i = Some ls ->
           exists rows row,
             normalized_time_delta splats' t = Ok rows
             /\ nth_error rows i = Some row
             /\ length row = d
             /\ forall j, (j < d)%nat ->
                          nth j row 0 = (nth j t 0 - nth j m 0) / exp (nth j ls 0)).
Proof.
  eexists. eexists. split; [reflexivity|].
  split; [run_model; reflexivity|].
  eapply (time_anisos_optimized_but_unused_by_kernel demo_env demo_sample_init
            (demo_cfg demo_mcmc demo_mcmc false false false false None) _ 0
            [Plain (ExponentialLR MeansOpt (1 / 2) 0) 0]);
    [reflexivity | reflexivity | run_model; reflexivity].
Defined.

(** ** Checkpoints *)

Lemma save_checkpoint_condition (r : Runner) (step : Z) (ev : Event) :
  In ev (fst (save_checkpoint r step)) ->
  is_step_of step (save_steps (cfg r)) = true \/ step = (max_steps (cfg r) - 1)%Z.
Proof.
  unfold save_checkpoint.
  destruct (is_step_of step (save_steps (cfg r))) eqn:E1; [left; reflexivity|].
  destruct (Z.eqb_spec step (max_steps (cfg r) - 1)) as [E2|E2]; [right; exact E2|].
  cbn [orb ret fst]. intros [].
Qed.

(** A checkpoint event of an iteration carries the dictionary built from the
    runner as it entered the iteration. *)
Lemma train_step_checkpoint_event (env : Collaborators) (step : Z)
    (scheds : list Scheduler) (r : Runner) (data : list (string * CkValue)) :
  In (EvSaveCheckpoint data) (fst (train_step env step (scheds, r))) ->
  checkpoint_data r step = Ok data
  /\ (is_step_of step (save_steps (cfg r)) = true
      \/ step = (max_steps (cfg r) - 1)%Z).
Proof.
  intros Hin.
  destruct (train_step_event env step scheds r _ Hin) as (rd & _ & H).
  destruct H as [H|[H|H]]; [discriminate| |].
  { apply (rank_in 1 _ _ (pre_backward_ranks env r step rd)) in H. discriminate. }
  destruct H as (r1 & Hpre & H).
  destruct (pre_backward_preserves env r r1 step rd Hpre)
    as (Hc & _ & _ & Hs & _ & Ha & _).
  destruct H as [H|[H|H]]; [discriminate| |].
  { split.
    - destruct (save_checkpoint_events r1 step _ H) as (data' & Hev & Hdata).
      injection Hev as <-. unfold checkpoint_data in *.
      rewrite Hc, Hs, Ha in Hdata. exact Hdata.
    - rewrite <- Hc. exact (save_checkpoint_condition r1 step _ H). }
  destruct H as (_ & H). destruct H as [H|H].
  { apply (rank_in 4 _ _ (sparsify_gradients_ranks r1)) in H. discriminate. }
  destruct H as (_ & mask & _ & H). destruct H as [H|H].
  { apply (rank_in 5 _ _ (optimize_ranks env r1 step mask)) in H. discriminate. }
  destruct H as (r2 & _ & H). destruct H as [H|H].
  { destruct (step_schedulers_spec scheds r2) as (_ & Hr & _).
    apply (rank_in 6 _ _ Hr) in H. discriminate. }
  destruct H as (p & _ & H). destruct H as [H|H].
  { apply (rank_in 7 _ _ (post_backward_ranks env (snd p) (fst p) step rd)) in H.
    discriminate. }
  destruct H as (r3 & _ & H).
  apply (rank_in 8 _ _ (periodic_eval_ranks r3 step)) in H. discriminate.
Qed.

(** C3 as stated fails: with shading enabled, the checkpoint written in the
    first iteration of the one-primitive run has the keys "step" and
    "splats" only, and none of its entries is the shading population. *)
Lemma checkpoint_omits_shading_population :
  exists (r : Runner) (sh : ParameterDict) (data : list (string * CkValue)),
    Runner_init demo_sample_init
      (demo_cfg demo_mcmc demo_mcmc false false false false None) = Ok r
    /\ use_shading (cfg r) = true
    /\ shading_splats r = Some sh
    /\ In (EvSaveCheckpoint data)
          (fst (main demo_env demo_sample_init
                  (demo_cfg demo_mcmc demo_mcmc false false false false None)))
    /\ lookup "step" data = Some (CkInt 0)
    /\ checkpoint_holds data (splats r)
    /\ ~ checkpoint_holds data sh.
Proof.
  eexists. eexists. eexists.
  split; [reflexivity|]. split; [reflexivity|]. split; [reflexivity|].
  split.
  { run_model.
    do 5 right. left. reflexivity. }
  split; [reflexivity|]. split.
  - exists "splats". reflexivity.
  - intros [k Hk]. cbn [lookup] in Hk.
    destruct (String.eqb k "step"); [discriminate|].
    destruct (String.eqb k "splats"); [|discriminate].
    run_model_in Hk.
    discriminate.
Qed.

(** C3, amended: every checkpoint written in an iteration is written at a
    save step (one less than a configured save step, or the last step) and
    is a dictionary with the step index under "step", the albedo
    population's parameter dictionary under "splats" and, when appearance
    optimization is on, the appearance module's parameters under
    "app_module"; it has no other key. *)
Theorem checkpoint_holds_step_and_albedo_population :
  forall (env : Collaborators) (step : Z) (scheds : list Scheduler) (r : Runner)
         (data : list (string * CkValue)),
    In (EvSaveCheckpoint data) (fst (train_step env step (scheds, r))) ->
    (is_step_of step (save_steps (cfg r)) = true
     \/ step = (max_steps (cfg r) - 1)%Z)
    /\ lookup "step" data = Some (CkInt step)
    /\ lookup "splats" data = Some (CkStateDict (splats r))
    /\ (app_opt (cfg r) = true ->
        exists m, app_module r = Some m
                  /\ lookup "app_module" data = Some (CkStateDict m))
    /\ keys data
       = ("step" :: "splats" :: (if app_opt (cfg r) then ["app_module"] else [])).
Proof.
  intros env step scheds r data Hin.
  destruct (train_step_checkpoint_event env step scheds r data Hin) as [Hdata Hcond].
  split; [exact Hcond|].
  unfold checkpoint_data in Hdata.
  destruct (app_opt (cfg r)).
  - destruct (app_module r) as [m|]; [|discriminate].
    injection Hdata as <-. repeat split.
    intros _. exists m. split; reflexivity.
  - injection Hdata as <-. repeat split. discriminate.
Qed.

Lemma checkpoint_contents_witness :
  exists (r : Runner) (data : list (string * CkValue)),
    Runner_init demo_sample_init
      (demo_cfg demo_mcmc demo_mcmc false false false false None) = Ok r
    /\ In (EvSaveCheckpoint data)
          (fst (train_step demo_env 0
                  ([Plain (ExponentialLR MeansOpt (1 / 2) 0) 0], r)))
    /\ (is_step_of 0 (save_steps (cfg r)) = true
        \/ 0%Z = (max_steps (cfg r) - 1)%Z)
    /\ lookup "step" data = Some (CkInt 0)
    /\ lookup "splats" data = Some (CkStateDict (splats r))
    /\ (app_opt (cfg r) = true ->
        exists m, app_module r = Some m
                  /\ lookup "app_module" data = Some (CkStateDict m))
    /\ keys data
       = ("step" :: "splats" :: (if app_opt (cfg r) then ["app_module"] else [])).
Proof.
  eexists. eexists. split; [reflexivity|].
  assert (Hin : In (EvSaveCheckpoint
                      [("step", CkInt 0);
                       ("splats",
                        CkStateDict
                          (fst (create_splats_with_optimizers (demo_sample_init false 1)
                                  (1 / 2) (16 / 100000) (5 / 1000) (5 / 100) (1 / 1000)
                                  (25 / 10000) (11 / 10) false false false)))])
                   (fst (train_step demo_env 0
                           ([Plain (ExponentialLR MeansOpt (1 / 2) 0) 0],
                            {| cfg := demo_cfg demo_mcmc demo_mcmc false false false false None;
                               scene_scale := 11 / 10;
                               splats :=
                                 fst (create_splats_with_optimizers (demo_sample_init false 1)
                                        (1 / 2) (16 / 100000) (5 / 1000) (5 / 100) (1 / 1000)
                                        (25 / 10000) (11 / 10) false false false);
                               optimizers :=
                                 snd (create_splats_with_optimizers (demo_sample_init false 1)
                                        (1 / 2) (16 / 100000) (5 / 1000) (5 / 100) (1 / 1000)
                                        (25 / 10000) (11 / 10) false false false);
                               shading_splats :=
                                 Some (fst (create_splats_with_optimizers
                                              (demo_sample_init true 1)
                                              (1 / 2) (16 / 100000) (5 / 1000) (5 / 100)
                                              (1 / 1000) (25 / 10000) (11 / 10)
                                              false false true));
                               shading_optimizers :=
                                 snd (create_splats_with_optimizers
                                        (demo_sample_init true 1)
                                        (1 / 2) (16 / 100000) (5 / 1000) (5 / 100)
                                        (1 / 1000) (25 / 10000) (11 / 10)
                                        false false true);
                               strategy_state := MCMCState;
                               shading_strategy_state := Some MCMCState;
                               compression_method := None;
                               app_module := None;
                               app_optimizers := [];
                               bil_grid_optimizers := [] |})))).
  { run_model.
    do 5 right. left. reflexivity. }
  split; [exact Hin|].
  exact (checkpoint_holds_step_and_albedo_population demo_env 0 _ _ _ Hin).
Defined.

(** ** The visibility mask *)

(** In every iteration the shading population's optimizers are stepped with
    the mask the albedo population's optimizers are stepped with. *)
Lemma shading_steps_share_albedo_mask (env : Collaborators) (step : Z)
    (scheds : list Scheduler) (r : Runner) (name : string) (mask : option (list bool)) :
  In (EvOptimizerStep (OwnPop Shading) name mask) (fst (train_step env step (scheds, r))) ->
  exists rd,
    train_render env r step (trainloader env step) = Ok rd
    /\ visibility_mask r (rd_info rd) = Ok mask.
Proof.
  intros Hin.
  destruct (train_step_late_event env step scheds r _ Hin ltac:(simpl; lia))
    as (rd & r1 & mask' & Hrd & Hpre & _ & _ & Hmask & H).
  exists rd. split; [exact Hrd|].
  destruct (pre_backward_preserves env r r1 step rd Hpre)
    as (Hc & _ & _ & Hs & _).
  assert (Hmask' : visibility_mask r (rd_info rd) = Ok mask').
  { unfold visibility_mask in *. rewrite Hc, Hs in Hmask. exact Hmask. }
  rewrite Hmask'. f_equal.
  destruct H as [H|H].
  - rewrite optimize_trace in H.
    apply in_app_or in H as [H|H].
    { unfold param_events in H. apply in_flat_map in H as (o & _ & [H|[H|[]]]);
        discriminate. }
    apply in_app_or in H as [H|H].
    { unfold aux_events in H. apply in_flat_map in H as (o & _ & [H|[H|[]]]);
        discriminate. }
    apply in_app_or in H as [H|H].
    { unfold aux_events in H. apply in_flat_map in H as (o & _ & [H|[H|[]]]);
        discriminate. }
    destruct (use_shading (cfg r1)); [|destruct H].
    destruct (shading_splats r1); [|destruct H].
    unfold param_events in H. apply in_flat_map in H as (o & _ & [H|[H|[]]]);
      [|discriminate].
    injection H as _ <-. reflexivity.
  - destruct H as (r2 & p & _ & _ & [H|[H|H]]); try discriminate.
    apply (rank_in 7 _ _ (post_backward_ranks env (snd p) (fst p) step rd)) in H.
    discriminate.
Qed.

(** C2 (the code departs from it): in visibility-masked mode on the
    one-primitive scene, whose albedo primitive has screen radius 1 and whose
    shading primitive has screen radius 0, the shading population's
    optimizers are stepped with the mask [true] computed from the albedo
    pass, never with the mask [false] of the shading pass's own radii. *)
Theorem shading_optimizers_receive_albedo_visibility_mask :
  exists (r : Runner) (rd : Rendered) (si : Info),
    Runner_init demo_sample_init
      (demo_cfg demo_mcmc demo_mcmc false false true false None) = Ok r
    /\ train_render demo_env r 0 (trainloader demo_env 0) = Ok rd
    /\ visibility_mask r (rd_info rd) = Ok (Some [true])
    /\ rd_shading_info rd = Some si
    /\ radii_visible (radii si) = [false]
    /\ In (EvOptimizerStep (OwnPop Shading) "means" (Some [true]))
          (fst (main demo_env demo_sample_init
                  (demo_cfg demo_mcmc demo_mcmc false false true false None)))
    /\ (forall (scheds : list Scheduler) (name : string),
           ~ In (EvOptimizerStep (OwnPop Shading) name (Some [false]))
                (fst (train_step demo_env 0 (scheds, r)))).
Proof.
  eexists. eexists. eexists.
  split; [reflexivity|]. split; [reflexivity|]. split; [reflexivity|].
  split; [reflexivity|]. split; [reflexivity|]. split.
  - run_model.
    do 20 right. left. reflexivity.
  - intros scheds name Hin.
    apply shading_steps_share_albedo_mask in Hin as (rd' & Hrd' & Hmask).
    run_model_in Hrd'. injection Hrd' as <-.
    run_model_in Hmask. discriminate.
Qed.

(** * Further properties of the trainer *)

(** ** Initial opacity and the ranges handed to the rasterizer *)


Lemma sigmoid_logit (p : R) : 0 < p < 1 -> sigmoid (logit p) = p.
Proof.
  intros [H0 H1]. unfold sigmoid, logit.
  assert (Hq : 0 < p / (1 - p)) by (apply Rdiv_lt_0_compat; lra).
  rewrite exp_Ropp, exp_ln by exact Hq.
  field. split; lra.
Qed.

Lemma temporal_shape_intro (splats' : ParameterDict) (n d : nat)
    (ops : list R) (tm ts : list (list R)) :
  lookup "opacities" splats' = Some (T1 ops) ->
  lookup "times" splats' = Some (T2 tm) ->
  lookup "time_scales" splats' = Some (T2 ts) ->
  length ops = n -> length tm = n -> length ts = n ->
  rows_of_width d tm = true -> rows_of_width d ts = true ->
  temporal_shape splats' n d = true.
Proof.
  intros Ho Htm Hts Lo Ltm Lts Wtm Wts. unfold temporal_shape.
  rewrite Ho, Htm, Hts, Lo, Ltm, Lts, Wtm, Wts, Nat.eqb_refl. reflexivity.
Qed.

Lemma created_effective_opacity_at_time_mean :
  forall (sample : InitSample) (p lr1 lr2 lr3 lr4 lr5 sc : R) (sg va us : bool)
         (d i : nat) (m : list R),
    0 < p < 1 ->
    length (init_times sample) = length (init_points sample) ->
    length (init_time_scales sample) = length (init_points sample) ->
    rows_of_width d (init_times sample) = true ->
    rows_of_width d (init_time_scales sample) = true ->
    nth_error (init_times sample) i = Some m ->
    exists out,
      effective_opacities
        (fst (create_splats_with_optimizers sample p lr1 lr2 lr3 lr4 lr5 sc sg va us)) m
      = Ok out
      /\ length out = length (init_points sample)
      /\ nth_error out i = Some p.
Proof.
  intros sample p lr1 lr2 lr3 lr4 lr5 sc sg va us d i m Hp Lt Ls Wt Ws Hm.
  set (splats' := fst (create_splats_with_optimizers sample p lr1 lr2 lr3 lr4 lr5 sc sg va us)).
  set (n := length (init_points sample)).
  assert (Hi : (i < n)%nat).
  { unfold n. rewrite <- Lt. apply nth_error_Some. rewrite Hm. discriminate. }
  destruct (nth_error (init_time_scales sample) i) as [ls|] eqn:Hls.
  2:{ apply nth_error_None in Hls. unfold n in Hi. lia. }
  assert (Hshape : temporal_shape splats' n d = true).
  { apply (temporal_shape_intro splats' n d (repeat (logit p) n)
             (init_times sample) (init_time_scales sample));
      try reflexivity; try assumption.
    apply repeat_length. }
  assert (Hlo : entry_of splats' "opacities" i = Some (logit p)).
  { unfold entry_of. change (lookup "opacities" splats')
      with (Some (T1 (repeat (logit p) n))).
    apply nth_error_repeat. exact Hi. }
  assert (Lm : length m = d) by exact (rows_of_width_nth d _ i m Wt Hm).
  destruct (effective_opacities_nth splats' m n d i (logit p) m ls Hshape Lm Hlo Hm Hls)
    as (out & Hout & Hlen & Hnth).
  exists out. split; [exact Hout|]. split; [exact Hlen|].
  rewrite Hnth. f_equal.
  rewrite (proj2 (kernel_spec_one_iff m m ls eq_refl) eq_refl).
  rewrite sigmoid_logit by exact Hp. ring.
Qed.

Lemma created_time_scales_shape (times : list (list R)) (d : nat) :
  times <> [] ->
  rows_of_width d times = true ->
  length (created_time_scales times) = length times
  /\ rows_of_width d (created_time_scales times) = true.
Proof.
  intros Hne Hw. unfold created_time_scales. split; [apply length_map|].
  assert (Hd : length (hd [] times) = d).
  { destruct times as [|row rest]; [contradiction|].
    apply (rows_of_width_In d (row :: rest) row Hw). left. reflexivity. }
  unfold rows_of_width. apply forallb_forall. intros row Hrow.
  apply in_map_iff in Hrow as (row0 & <- & _).
  unfold std_dim0. rewrite !length_map, length_seq, Hd. apply Nat.eqb_refl.
Qed.

(** X1: take a population created with initial opacity [p] in (0,1) from at
    least two primitives whose time labels differ in every column, with the
    time scales lines 227-229 derive from the labels.  It stores [logit p]
    for every primitive, and when [rasterize_splats] is queried at a
    primitive's own time mean, the opacity it hands to the rasterizer for
    that primitive is [p]. *)
Theorem created_population_shows_initial_opacity_at_time_mean :
  forall (env : Collaborators) (r : Runner) (sample : InitSample)
         (p lr1 lr2 lr3 lr4 lr5 sc : R) (sg va us : bool)
         (cam : Camera) (mode : option RasterizeMode) (image_id : Z)
         (bg : option (list (list R))) (args : RasterArgs)
         (d i : nat) (m : list R),
    0 < p < 1 ->
    (2 <= length (init_points sample))%nat ->
    length (init_times sample) = length (init_points sample) ->
    rows_of_width d (init_times sample) = true ->
    init_time_scales sample = created_time_scales (init_times sample) ->
    Forall (fun s => 0 < s) (std_dim0 (init_times sample)) ->
    nth_error (init_times sample) i = Some m ->
    rasterizer_args env r
      (fst (create_splats_with_optimizers sample p lr1 lr2 lr3 lr4 lr5 sc sg va us))
      m cam mode image_id bg = Ok args ->
    entry_of (fst (create_splats_with_optimizers sample p lr1 lr2 lr3 lr4 lr5 sc sg va us))
      "opacities" i = Some (logit p)
    /\ length (ra_opacities args) = length (init_points sample)
    /\ nth_error (ra_opacities args) i = Some p.
Proof.
  intros env r sample p lr1 lr2 lr3 lr4 lr5 sc sg va us cam mode image_id bg args d i m
         Hp HN Lt Wt Hts _ Hm Hargs.
  assert (Hne : init_times sample <> []).
  { intros E. rewrite E in Lt. cbn [length] in Lt. lia. }
  destruct (created_time_scales_shape (init_times sample) d Hne Wt) as [Ls Ws].
  rewrite <- Hts in Ls, Ws. rewrite Lt in Ls.
  destruct (created_effective_opacity_at_time_mean sample p lr1 lr2 lr3 lr4 lr5 sc
              sg va us d i m Hp Lt Ls Wt Ws Hm) as (out & Hout & Hlen & Hnth).
  pose proof (rasterizer_args_opacities _ _ _ _ _ _ _ _ _ Hargs) as Hops.
  rewrite Hout in Hops. injection Hops as Hops. subst out.
  split; [|split; assumption].
  unfold entry_of.
  change (lookup "opacities"
            (fst (create_splats_with_optimizers sample p lr1 lr2 lr3 lr4 lr5 sc sg va us)))
    with (Some (T1 (repeat (logit p) (length (init_points sample))))).
  apply nth_error_repeat. rewrite <- Lt. apply nth_error_Some. rewrite Hm. discriminate.
Qed.

Lemma created_population_witness :
  exists (r : Runner) (args : RasterArgs),
    Runner_init demo_pair_sample_init demo_cfg_pair = Ok r
    /\ rasterizer_args demo_env r
         (fst (create_splats_with_optimizers (demo_pair_sample_init false 2) (1 / 2)
                 1 1 1 1 1 1 false false false))
         [1] demo_camera None 0 None = Ok args
    /\ entry_of (fst (create_splats_with_optimizers (demo_pair_sample_init false 2) (1 / 2)
                        1 1 1 1 1 1 false false false))
         "opacities" 1 = Some (logit (1 / 2))
    /\ length (ra_opacities args) = length (init_points (demo_pair_sample_init false 2))
    /\ nth_error (ra_opacities args) 1 = Some (1 / 2).
Proof.
  eexists. eexists. split; [reflexivity|].
  match goal with
  | |- rasterizer_args _ ?r _ _ _ _ _ _ = _ /\ _ =>
      split;
      [ cbv -[Rplus Rmult Rminus Rdiv Rinv Ropp exp Rpower IZR ln sigmoid
              created_time_scales];
        reflexivity
      | eapply (created_population_shows_initial_opacity_at_time_mean
                  demo_env r (demo_pair_sample_init false 2) (1 / 2) 1 1 1 1 1 1
                  false false false demo_camera None 0 None _ 1 1 [1]);
        [ lra
        | cbn; lia
        | reflexivity
        | reflexivity
        | reflexivity
        | cbv [std_dim0 demo_pair_sample_init demo_pair_times init_times column
               length hd seq map sum_last fold_right nth Nat.sub INR];
          constructor; [apply sqrt_lt_R0; lra | constructor]
        | reflexivity
        | cbv -[Rplus Rmult Rminus Rdiv Rinv Ropp exp Rpower IZR ln sigmoid
                created_time_scales];
          reflexivity ] ]
  end.
Defined.








(** ** Which query vectors a population accepts *)

Lemma mapM_first_err {A B : Type} (f : A -> result B) (a : A) (l : list A) (e : Exn) :
  f a = Err e -> mapM f (a :: l) = Err e.
Proof. intros H. cbn [mapM]. rewrite H. reflexivity. Qed.

Lemma bcast2_ok_iff (f : R -> R -> R) (xs ys : list R) :
  (exists out, bcast2 f xs ys = Ok out)
  <-> (length xs = length ys \/ length xs = 1%nat \/ length ys = 1%nat).
Proof.
  unfold bcast2.
  destruct (Nat.eqb_spec (length xs) (length ys)) as [E|E].
  - split; [left; exact E | eexists; reflexivity].
  - destruct (Nat.eqb_spec (length xs) 1) as [E1|E1].
    + split; [right; left; exact E1 | eexists; reflexivity].
    + destruct (Nat.eqb_spec (length ys) 1) as [E2|E2].
      * split; [right; right; exact E2 | eexists; reflexivity].
      * split; [intros [out H]; discriminate | intros [H|[H|H]]; contradiction].
Qed.

Lemma bcast2_length (f : R -> R -> R) (xs ys out : list R) :
  bcast2 f xs ys = Ok out ->
  length out = if Nat.eqb (length xs) 1 then length ys else length xs.
Proof.
  unfold bcast2.
  destruct (Nat.eqb_spec (length xs) (length ys)) as [E|E].
  - intros H. injection H as <-. rewrite map2_length by exact E.
    destruct (Nat.eqb_spec (length xs) 1); lia.
  - destruct (Nat.eqb_spec (length xs) 1) as [E1|E1].
    + intros H. injection H as <-. apply length_map.
    + destruct (Nat.eqb_spec (length ys) 1) as [E2|E2]; [|discriminate].
      intros H. injection H as <-. apply length_map.
Qed.

Lemma mapM_ok_inv {A B : Type} (f : A -> result B) :
  forall (l : list A) (out : list B),
    mapM f l = Ok out ->
    length out = length l
    /\ forall i a, nth_error l i = Some a ->
                   exists b, f a = Ok b /\ nth_error out i = Some b.
Proof.
  induction l as [|a l IH]; intros out H; cbn [mapM] in H.
  - injection H as <-. split; [reflexivity|]. intros [|i] a' Ha; discriminate.
  - apply bind_ok_inv in H as (b & Hb & H).
    apply bind_ok_inv in H as (bs & Hbs & H). injection H as <-.
    destruct (IH bs Hbs) as [Hlen Hnth]. split; [simpl; lia|].
    intros [|i] a' Ha; simpl in Ha.
    + injection Ha as <-. exists b. split; [exact Hb | reflexivity].
    + apply Hnth. exact Ha.
Qed.

Lemma mapM_all_ok {A B : Type} (f : A -> result B) (l : list A) :
  (forall a, In a l -> exists b, f a = Ok b) -> exists out, mapM f l = Ok out.
Proof.
  induction l as [|a l IH]; intros H; cbn [mapM].
  - eexists. reflexivity.
  - destruct (H a (or_introl eq_refl)) as [b Hb]. rewrite Hb. cbn [bind].
    destruct (IH (fun x Hx => H x (or_intror Hx))) as [bs Hbs].
    rewrite Hbs. eexists. reflexivity.
Qed.

(** The deltas against a query vector: one row per primitive, as wide as the
    wider of the query and the time mean. *)
Lemma query_deltas (t : list R) (tm : list (list R)) (d : nat) :
  rows_of_width d tm = true ->
  (length t = d \/ length t = 1%nat \/ d = 1%nat) ->
  exists rows,
    bcast_rows Rminus [t] tm = Ok rows
    /\ length rows = length tm
    /\ rows_of_width (if Nat.eqb (length t) 1 then d else length t) rows = true.
Proof.
  intros Wtm Hcond.
  assert (Hrow : forall m, In m tm -> exists row, bcast2 Rminus t m = Ok row).
  { intros m Hm. apply bcast2_ok_iff.
    rewrite (rows_of_width_In d tm m Wtm Hm). exact Hcond. }
  destruct (mapM_all_ok (bcast2 Rminus t) tm Hrow) as [rows Hrows].
  exists rows.
  assert (Hbr : bcast_rows Rminus [t] tm = Ok rows).
  { unfold bcast_rows.
    destruct (Nat.eqb_spec (length [t]) (length tm)) as [E|E].
    - destruct tm as [|m [|? ?]]; try discriminate.
      cbn [combine mapM fst snd]. cbn [mapM] in Hrows. exact Hrows.
    - cbn [length Nat.eqb hd]. exact Hrows. }
  split; [exact Hbr|].
  destruct (mapM_ok_inv _ _ _ Hrows) as [Hlen Hnth].
  split; [exact Hlen|].
  unfold rows_of_width. rewrite forallb_forall. intros row Hrow'.
  apply In_nth_error in Hrow' as [i Hi].
  destruct (nth_error tm i) as [m|] eqn:Hm.
  2:{ apply nth_error_None in Hm.
      assert (i < length rows)%nat by (apply nth_error_Some; rewrite Hi; discriminate).
      lia. }
  destruct (Hnth i m Hm) as (b & Hb & Hb').
  rewrite Hi in Hb'. injection Hb' as ->.
  apply Nat.eqb_eq. rewrite (bcast2_length _ _ _ _ Hb).
  rewrite (rows_of_width_nth d tm i m Wtm Hm). reflexivity.
Qed.

(** X3: a population of at least one primitive with [d] temporal columns
    accepts a query vector exactly when the vector has length [d] or length
    1, or when [d] is 1; in the last two cases the shorter side is
    broadcast instead of being rejected, so the three-component shading
    query is accepted by a one-column population.  Any other length raises
    the size-mismatch error. *)
Theorem query_vector_accepted_iff_broadcastable :
  forall (splats' : ParameterDict) (t : list R) (n d : nat),
    temporal_shape splats' n d = true ->
    (1 <= n)%nat ->
    ((exists out, effective_opacities splats' t = Ok out /\ length out = n)
     <-> (length t = d \/ length t = 1%nat \/ d = 1%nat))
    /\ (~ (length t = d \/ length t = 1%nat \/ d = 1%nat) ->
        effective_opacities splats' t
        = Err (RuntimeError "The size of tensor a must match the size of tensor b")).
Proof.
  intros splats' t n d Hshape Hn.
  destruct (temporal_shape_inv _ _ _ Hshape)
    as (ops & tm & ts & Eo & Etm & Ets & Lo & Ltm & Lts & Wtm & Wts).
  assert (Hfail : ~ (length t = d \/ length t = 1%nat \/ d = 1%nat) ->
                  effective_opacities splats' t
                  = Err (RuntimeError "The size of tensor a must match the size of tensor b")).
  { intros Hno.
    unfold effective_opacities, get1, time_alpha, normalized_time_delta, get2.
    rewrite Eo, Etm, Ets. cbn [bind].
    destruct tm as [|m tm']; [simpl in Ltm; lia|].
    assert (Lm : length m = d)
      by (apply (rows_of_width_In d (m :: tm') m Wtm); left; reflexivity).
    assert (Hrow : bcast2 Rminus t m
                   = Err (RuntimeError "The size of tensor a must match the size of tensor b")).
    { unfold bcast2. rewrite Lm.
      destruct (Nat.eqb_spec (length t) d) as [E|_]; [exfalso; apply Hno; auto|].
      destruct (Nat.eqb_spec (length t) 1) as [E|_]; [exfalso; apply Hno; auto|].
      destruct (Nat.eqb_spec d 1) as [E|_]; [exfalso; apply Hno; auto|].
      reflexivity. }
    unfold bcast_rows.
    destruct (Nat.eqb_spec (length [t]) (length (m :: tm'))) as [E|E].
    - destruct tm' as [|? ?]; [|discriminate].
      cbn [combine mapM fst snd]. rewrite Hrow. reflexivity.
    - cbn [length Nat.eqb hd]. rewrite (mapM_first_err _ _ _ _ Hrow). reflexivity. }
  split; [|exact Hfail]. split.
  - intros (out & Hout & _).
    destruct (Nat.eq_dec (length t) d) as [H1|H1]; [left; exact H1|].
    destruct (Nat.eq_dec (length t) 1) as [H2|H2]; [right; left; exact H2|].
    destruct (Nat.eq_dec d 1) as [H3|H3]; [right; right; exact H3|].
    rewrite Hfail in Hout by (intros [H|[H|H]]; contradiction). discriminate.
  - intros Hcond.
    destruct (query_deltas t tm d Wtm Hcond) as (rows & Hrows & Lrows & Wrows).
    unfold effective_opacities, get1, time_alpha, normalized_time_delta, get2.
    rewrite Eo, Etm, Ets. cbn [bind]. rewrite Hrows. cbn [bind].
    assert (Hdiv : forall p, In p (combine rows (map (map exp) ts)) ->
                             exists row, bcast2 Rdiv (fst p) (snd p) = Ok row).
    { intros [a b] Hin. cbn [fst snd]. apply bcast2_ok_iff.
      rewrite (rows_of_width_In _ rows a Wrows (in_combine_l _ _ _ _ Hin)).
      assert (Lb : length b = d).
      { apply in_combine_r in Hin. apply in_map_iff in Hin as (b0 & <- & Hb0).
        rewrite length_map. exact (rows_of_width_In d ts b0 Wts Hb0). }
      rewrite Lb. destruct (Nat.eqb_spec (length t) 1); destruct Hcond as [H|[H|H]]; lia. }
    destruct (mapM_all_ok _ _ Hdiv) as [rows2 Hrows2].
    assert (Hbr : bcast_rows Rdiv rows (map (map exp) ts) = Ok rows2).
    { unfold bcast_rows. rewrite length_map.
      replace (Nat.eqb (length rows) (length ts)) with true
        by (symmetry; apply Nat.eqb_eq; lia).
      exact Hrows2. }
    rewrite Hbr. cbn [bind].
    destruct (mapM_ok_inv _ _ _ Hrows2) as [Lrows2 _].
    rewrite length_combine, length_map in Lrows2.
    rewrite bcast2_same_length by (rewrite !length_map; lia).
    eexists. split; [reflexivity|].
    rewrite map2_length; rewrite !length_map; lia.
Qed.

Lemma query_vector_witness :
  temporal_shape demo_population 2 1 = true
  /\ (1 <= 2)%nat
  /\ ((exists out, effective_opacities demo_population [0; 1; 2] = Ok out
                   /\ length out = 2%nat)
      <-> (length [0; 1; 2] = 1%nat \/ length [0; 1; 2] = 1%nat \/ 1%nat = 1%nat))
  /\ (~ (length [0; 1; 2] = 1%nat \/ length [0; 1; 2] = 1%nat \/ 1%nat = 1%nat) ->
      effective_opacities demo_population [0; 1; 2]
      = Err (RuntimeError "The size of tensor a must match the size of tensor b")).
Proof.
  split; [reflexivity|]. split; [lia|].
  apply (query_vector_accepted_iff_broadcastable demo_population [0; 1; 2] 2 1);
    [reflexivity | lia].
Defined.

(** ** When the runner can be constructed *)

Lemma created_passes_sanity (s : Strategy) (sample : InitSample)
    (p lr1 lr2 lr3 lr4 lr5 sc : R) (sg va us : bool) :
  check_sanity s
    (fst (create_splats_with_optimizers sample p lr1 lr2 lr3 lr4 lr5 sc sg va us))
    (snd (create_splats_with_optimizers sample p lr1 lr2 lr3 lr4 lr5 sc sg va us))
  = Ok tt.
Proof. destruct us; reflexivity. Qed.

Lemma init_compression_ok_iff (c : Config) :
  (exists x, init_compression c = Ok x)
  <-> (compression c = None \/ compression c = Some "png").
Proof.
  unfold init_compression. destruct (compression c) as [name|].
  - destruct (String.eqb_spec name "png") as [->|Hne].
    + split; [right; reflexivity | eexists; reflexivity].
    + split; [intros [x H]; discriminate|].
      intros [H|H]; [discriminate | injection H as ->; contradiction].
  - split; [left; reflexivity | eexists; reflexivity].
Qed.

Lemma init_lpips_ok_iff (c : Config) :
  init_lpips c = Ok tt <-> (lpips_net c = "alex" \/ lpips_net c = "vgg").
Proof.
  unfold init_lpips.
  destruct (String.eqb_spec (lpips_net c) "alex") as [E|E].
  - split; [left; exact E | reflexivity].
  - destruct (String.eqb_spec (lpips_net c) "vgg") as [E'|E'].
    + split; [right; exact E' | reflexivity].
    + split; [discriminate | intros [H|H]; contradiction].
Qed.

Lemma init_shading_state_ok_iff (c : Config) (scale : R) :
  (exists x, init_shading_strategy_state c scale = Ok x)
  <-> (use_shading c = true ->
       forall d m, strategy c = DefaultStrategy d -> shading_strategy c <> MCMCStrategy m).
Proof.
  unfold init_shading_strategy_state, shading_init_dispatch, perform_init.
  destruct (use_shading c).
  - destruct (strategy c) as [d|m]; destruct (shading_strategy c) as [d'|m'];
      cbn [callee scene_scale_kw initialize_state bind]; split;
      try (intros _; eexists; reflexivity);
      try (intros _ _ d0 m0 H; discriminate);
      try (intros _ _ d0 m0 _; discriminate).
    + intros [x H]. discriminate.
    + intros H. exfalso. exact (H eq_refl d m' eq_refl eq_refl).
  - split; [intros _; discriminate | intros _; eexists; reflexivity].
Qed.

(** X4: constructing the runner succeeds exactly when appearance optimization
    is off, the codec is absent or "png", the LPIPS network is "alex" or
    "vgg", and the run does not pair a Default primary strategy with an
    MCMC shading strategy; the strategies' sanity checks never fail on the
    populations the constructor creates. *)
Theorem runner_construction_succeeds_iff :
  forall (sample_init : bool -> nat -> InitSample) (c : Config),
    (exists r, Runner_init sample_init c = Ok r)
    <-> (app_opt c = false
         /\ (compression c = None \/ compression c = Some "png")
         /\ (lpips_net c = "alex" \/ lpips_net c = "vgg")
         /\ (use_shading c = true ->
             forall d m, strategy c = DefaultStrategy d ->
                         shading_strategy c <> MCMCStrategy m)).
Proof.
  intros sample_init c. split.
  - intros [r Hinit].
    destruct (Runner_init_inv sample_init c r Hinit)
      as (_ & _ & _ & _ & Hsst & Hcodec & Happ & _).
    split; [exact Happ|]. split; [|split].
    + apply init_compression_ok_iff. eexists. exact Hcodec.
    + apply init_lpips_ok_iff.
      unfold Runner_init in Hinit.
      destruct (create_splats_with_optimizers _ _ _ _ _ _ _ _ _ _ _) as [sp op] in Hinit.
      apply bind_ok_inv in Hinit as (_ & _ & Hinit).
      apply bind_ok_inv in Hinit as (? & _ & Hinit).
      apply bind_ok_inv in Hinit as (? & _ & Hinit).
      apply bind_ok_inv in Hinit as (? & _ & Hinit).
      apply bind_ok_inv in Hinit as (? & _ & Hinit).
      apply bind_ok_inv in Hinit as (? & _ & Hinit).
      apply bind_ok_inv in Hinit as ([] & Hl & _). exact Hl.
    + apply (init_shading_state_ok_iff c (11 / 10)). eexists. exact Hsst.
  - intros (Happ & Hcomp & Hlpips & Hstrat).
    apply init_compression_ok_iff in Hcomp as [codec Hcodec].
    apply init_lpips_ok_iff in Hlpips.
    apply (init_shading_state_ok_iff c (11 / 10)) in Hstrat as [sst Hsst].
    unfold Runner_init.
    pose proof (created_passes_sanity (strategy c) (sample_init false (init_num_pts c))
                  (init_opa c) (means_lr c) (scales_lr c) (opacities_lr c) (quats_lr c)
                  (sh0_lr c) (11 / 10) (sparse_grad c) (visible_adam c) false) as Hs1.
    pose proof (created_passes_sanity (shading_strategy c)
                  (sample_init true (init_num_pts c))
                  (init_opa c) (means_lr c) (scales_lr c) (opacities_lr c) (quats_lr c)
                  (sh0_lr c) (11 / 10) (sparse_grad c) (visible_adam c) true) as Hs2.
    destruct (create_splats_with_optimizers (sample_init false (init_num_pts c)) _ _ _ _ _ _ _ _ _ _)
      as [sp op].
    destruct (create_splats_with_optimizers (sample_init true (init_num_pts c)) _ _ _ _ _ _ _ _ _ _)
      as [ssp sop].
    cbn [fst snd] in Hs1, Hs2. rewrite Hs1. cbn [bind].
    assert (Hstate : exists st, init_strategy_state c (11 / 10) = Ok st).
    { unfold init_strategy_state, strategy_init_dispatch, perform_init.
      destruct (strategy c); eexists; reflexivity. }
    destruct Hstate as [st Hst].
    unfold init_app_optimizers. rewrite Happ.
    destruct (use_shading c); [rewrite Hs2|]; cbn [bind];
      rewrite Hst, Hsst, Hcodec, Hlpips; cbn [bind]; eexists; reflexivity.
Qed.

(** ** The step budget and the evaluation steps *)

(** X5: a constructed runner with a step budget of zero or less runs no
    iteration and writes no checkpoint.  With a budget of zero, training
    fails with a division by zero while building the position schedule; with
    a negative budget it returns at once with the parameters untouched. *)
Theorem training_without_steps :
  forall (env : Collaborators) (sample_init : bool -> nat -> InitSample)
         (c : Config) (r : Runner),
    Runner_init sample_init c = Ok r ->
    (max_steps c <= 0)%Z ->
    exists res,
      main env sample_init c = ([], res)
      /\ (max_steps c = 0%Z -> res = Err ZeroDivisionError)
      /\ ((max_steps c < 0)%Z ->
          exists scheds r0, res = Ok (scheds, r0) /\ splats r0 = splats r).
Proof.
  intros env sample_init c r Hinit Hle.
  destruct (Runner_init_inv sample_init c r Hinit) as (Hcfg & _).
  destruct (Z.eq_dec (max_steps c) 0) as [H0|Hne].
  - exists (Err ZeroDivisionError). split; [|split; [reflexivity | lia]].
    unfold main. rewrite Hinit. cbn [lift bindM].
    unfold train, build_schedulers. rewrite Hcfg, H0. reflexivity.
  - destruct (build_schedulers_ok sample_init c r Hinit Hne)
      as (scheds & r0 & Hbuild & _ & Hs & _).
    exists (Ok (scheds, r0)). split; [|split; [contradiction|]].
    + unfold main. rewrite Hinit. cbn [lift bindM].
      unfold train. rewrite Hbuild, Hcfg. cbn [lift bindM].
      unfold steps_of. replace (Z.to_nat (max_steps c)) with 0%nat by lia.
      reflexivity.
    + intros _. exists scheds, r0. split; [reflexivity | exact Hs].
Qed.

Lemma training_without_steps_witness :
  exists r : Runner,
    Runner_init demo_sample_init (demo_cfg_steps 0 []) = Ok r
    /\ (max_steps (demo_cfg_steps 0 []) <= 0)%Z
    /\ exists res,
        main demo_env demo_sample_init (demo_cfg_steps 0 []) = ([], res)
        /\ (max_steps (demo_cfg_steps 0 []) = 0%Z -> res = Err ZeroDivisionError)
        /\ ((max_steps (demo_cfg_steps 0 []) < 0)%Z ->
            exists scheds r0, res = Ok (scheds, r0) /\ splats r0 = splats r).
Proof.
  eexists. split; [reflexivity|]. split; [discriminate|].
  eapply (training_without_steps demo_env demo_sample_init (demo_cfg_steps 0 []));
    [reflexivity | discriminate].
Defined.

Lemma periodic_eval_spec (r : Runner) (step : Z) :
  periodic_eval r step
  = if is_step_of step (eval_steps (cfg r))
    then ([EvEval step], Err (AttributeError "disable_video"))
    else ([], Ok tt).
Proof.
  unfold periodic_eval.
  destruct (is_step_of step (eval_steps (cfg r))); [reflexivity|].
  destruct (compression (cfg r)); reflexivity.
Qed.

Lemma post_backward_preserves (env : Collaborators) (r r' : Runner)
    (scheds : list Scheduler) (step : Z) (rd : Rendered) :
  snd (post_backward env r scheds step rd) = Ok r' ->
  cfg r' = cfg r /\ optimizers r' = optimizers r
  /\ shading_optimizers r' = shading_optimizers r
  /\ bil_grid_optimizers r' = bil_grid_optimizers r.
Proof.
  unfold post_backward. rewrite result_bindM. cbn [lift snd].
  destruct (post_arg (strategy (cfg r)) (cfg r) scheds) as [arg|]; [|discriminate].
  intros H.
  rewrite result_bindM in H. cbn [emit snd set_strategy_state set_splats cfg] in H.
  destruct (use_shading (cfg r)).
  - rewrite result_bindM in H. cbn [lift snd] in H.
    destruct (post_arg (shading_strategy (cfg r)) (cfg r) scheds); [|discriminate].
    rewrite result_bindM in H. cbn [lift snd] in H.
    destruct (shading_of _); [|discriminate].
    rewrite result_bindM in H. cbn [lift snd] in H.
    destruct (shading_state_of _); [|discriminate].
    rewrite result_bindM in H. cbn [lift snd] in H.
    destruct (shading_info_of rd); [|discriminate].
    rewrite result_bindM in H. cbn [emit ret snd] in H.
    injection H as <-. repeat split.
  - cbn [ret snd] in H. injection H as <-. repeat split.
Qed.

(** The result of an iteration whose stages up to the schedule advance all
    completed. *)
Lemma train_step_result (env : Collaborators) (step : Z) (scheds : list Scheduler)
    (r r1 r2 : Runner) (rd : Rendered) (mask : option (list bool))
    (p : list Scheduler * Runner) :
  train_render env r step (trainloader env step) = Ok rd ->
  snd (pre_backward env r step rd) = Ok r1 ->
  snd (save_checkpoint r1 step) = Ok tt ->
  snd (sparsify_gradients r1) = Ok tt ->
  visibility_mask r1 (rd_info rd) = Ok mask ->
  snd (optimize env r1 step mask) = Ok r2 ->
  step_all scheds r2 = Ok p ->
  snd (train_step env step (scheds, r))
  = match snd (post_backward env (snd p) (fst p) step rd) with
    | Ok r3 =>
        match snd (periodic_eval r3 step) with
        | Ok _ => Ok (fst p, r3)
        | Err e => Err e
        end
    | Err e => Err e
    end.
Proof.
  intros Hrd Hpre Hsave Hsp Hmask Hopt Hp.
  destruct (step_schedulers_spec scheds r2) as (Hres & _ & _).
  assert (Htail :
    snd (r1 <~ pre_backward env r step rd;;
         _ <~ emit (EvBackward step);;
         _ <~ save_checkpoint r1 step;;
         _ <~ sparsify_gradients r1;;
         mask <~ lift (visibility_mask r1 (rd_info rd));;
         r2 <~ optimize env r1 step mask;;
         p <~ step_schedulers scheds r2;;
         r3 <~ post_backward env (snd p) (fst p) step rd;;
         _ <~ periodic_eval r3 step;; ret (fst p, r3))
    = match snd (post_backward env (snd p) (fst p) step rd) with
      | Ok r3 =>
          match snd (periodic_eval r3 step) with
          | Ok _ => Ok (fst p, r3)
          | Err e => Err e
          end
      | Err e => Err e
      end).
  { rewrite result_bindM, Hpre, result_bindM. cbn [emit snd].
    rewrite result_bindM, Hsave, result_bindM, Hsp, result_bindM, Hmask.
    cbn [lift snd]. rewrite result_bindM, Hopt, result_bindM, Hres, Hp.
    rewrite result_bindM.
    destruct (snd (post_backward env (snd p) (fst p) step rd)) as [r3|]; [|reflexivity].
    rewrite result_bindM.
    destruct (snd (periodic_eval r3 step)); reflexivity. }
  unfold train_step. cbn [fst snd].
  rewrite result_bindM, Hrd. cbn [lift snd].
  rewrite result_bindM. cbn [emit snd]. rewrite result_bindM.
  destruct (use_shading (cfg r)); cbn [emit ret snd]; exact Htail.
Qed.

(** An event of the evaluation stage in the trace of an iteration. *)
Lemma train_step_eval_event (env : Collaborators) (step : Z) (scheds : list Scheduler)
    (r : Runner) (ev : Event) :
  In ev (fst (train_step env step (scheds, r))) ->
  phase_rank ev = 8%nat ->
  exists rd r1 mask r2 p r3,
    train_render env r step (trainloader env step) = Ok rd
    /\ snd (pre_backward env r step rd) = Ok r1
    /\ snd (save_checkpoint r1 step) = Ok tt
    /\ snd (sparsify_gradients r1) = Ok tt
    /\ visibility_mask r1 (rd_info rd) = Ok mask
    /\ snd (optimize env r1 step mask) = Ok r2
    /\ step_all scheds r2 = Ok p
    /\ snd (post_backward env (snd p) (fst p) step rd) = Ok r3
    /\ In ev (fst (periodic_eval r3 step)).
Proof.
  intros Hin Hrank.
  destruct (train_step_event env step scheds r ev Hin) as (rd & Hrd & H).
  destruct H as [H|[H|H]].
  { rewrite Hrank in H. discriminate. }
  { apply (rank_in 1 _ _ (pre_backward_ranks env r step rd)) in H.
    rewrite Hrank in H. discriminate. }
  destruct H as (r1 & Hpre & H).
  destruct H as [H|[H|H]].
  { rewrite H in Hrank. discriminate. }
  { apply (rank_in 3 _ _ (save_checkpoint_ranks r1 step)) in H.
    rewrite Hrank in H. discriminate. }
  destruct H as (Hsave & H). destruct H as [H|H].
  { apply (rank_in 4 _ _ (sparsify_gradients_ranks r1)) in H.
    rewrite Hrank in H. discriminate. }
  destruct H as (Hsp & mask & Hmask & H). destruct H as [H|H].
  { apply (rank_in 5 _ _ (optimize_ranks env r1 step mask)) in H.
    rewrite Hrank in H. discriminate. }
  destruct H as (r2 & Hopt & H). destruct H as [H|H].
  { destruct (step_schedulers_spec scheds r2) as (_ & Hr & _).
    apply (rank_in 6 _ _ Hr) in H. rewrite Hrank in H. discriminate. }
  destruct H as (p & Hp & H). destruct H as [H|H].
  { apply (rank_in 7 _ _ (post_backward_ranks env (snd p) (fst p) step rd)) in H.
    rewrite Hrank in H. discriminate. }
  destruct H as (r3 & Hpost & H).
  exists rd, r1, mask, r2, p, r3. repeat split; assumption.
Qed.

(** The configuration is the same object throughout an iteration. *)
Lemma train_step_stage_cfg (env : Collaborators) (step : Z) (scheds : list Scheduler)
    (r r1 r2 r3 : Runner) (rd : Rendered) (mask : option (list bool))
    (p : list Scheduler * Runner) :
  snd (pre_backward env r step rd) = Ok r1 ->
  snd (optimize env r1 step mask) = Ok r2 ->
  step_all scheds r2 = Ok p ->
  snd (post_backward env (snd p) (fst p) step rd) = Ok r3 ->
  cfg r3 = cfg r.
Proof.
  intros Hpre Hopt Hp Hpost.
  destruct (pre_backward_preserves env r r1 step rd Hpre) as (Hc1 & _).
  destruct (optimize_preserves env r1 r2 step mask Hopt) as (Hc2 & _).
  destruct (post_backward_preserves env _ r3 _ step rd Hpost) as (Hc3 & _).
  rewrite Hc3, (cfg_step_all _ _ _ Hp), Hc2, Hc1. reflexivity.
Qed.

(** X6: an iteration whose step is one less than a configured evaluation
    step never completes: the evaluation is started and the iteration ends
    with an error, raised inside the evaluation or, if that completes, by
    the trajectory renderer, which reads a configuration field that does
    not exist.  An evaluation is only ever started on such a step, and no
    iteration reaches the compression run. *)
Theorem evaluation_step_ends_the_run :
  forall (env : Collaborators) (step : Z) (scheds : list Scheduler) (r : Runner),
    (is_step_of step (eval_steps (cfg r)) = true ->
     forall out, snd (train_step env step (scheds, r)) <> Ok out)
    /\ (forall k, In (EvEval k) (fst (train_step env step (scheds, r))) ->
                  k = step
                  /\ is_step_of step (eval_steps (cfg r)) = true
                  /\ exists e, snd (train_step env step (scheds, r)) = Err e)
    /\ (forall k, ~ In (EvRunCompression k) (fst (train_step env step (scheds, r)))).
Proof.
  intros env step scheds r. split; [|split].
  - intros Heval out Hout.
    destruct (train_step_ok env step scheds r out Hout)
      as (rd & r1 & mask & r2 & p & r3 & _ & Hpre & _ & _ & _ & Hopt & Hp & Hpost
          & Hpe & _).
    rewrite periodic_eval_spec in Hpe.
    rewrite (train_step_stage_cfg env step scheds r r1 r2 r3 rd mask p
               Hpre Hopt Hp Hpost), Heval in Hpe.
    discriminate.
  - intros k Hin.
    destruct (train_step_eval_event env step scheds r _ Hin eq_refl)
      as (rd & r1 & mask & r2 & p & r3 & Hrd & Hpre & Hsave & Hsp & Hmask & Hopt
          & Hp & Hpost & Hev).
    rewrite periodic_eval_spec in Hev.
    pose proof (train_step_stage_cfg env step scheds r r1 r2 r3 rd mask p
                  Hpre Hopt Hp Hpost) as Hcfg.
    rewrite Hcfg in Hev.
    destruct (is_step_of step (eval_steps (cfg r))) eqn:E; [|destruct Hev].
    destruct Hev as [Hev|[]]. injection Hev as <-.
    split; [reflexivity|]. split; [reflexivity|].
    rewrite (train_step_result env step scheds r r1 r2 rd mask p) by assumption.
    rewrite Hpost, periodic_eval_spec, Hcfg, E. eexists. reflexivity.
  - intros k Hin.
    destruct (train_step_eval_event env step scheds r _ Hin eq_refl)
      as (rd & r1 & mask & r2 & p & r3 & _ & _ & _ & _ & _ & _ & _ & _ & Hev).
    rewrite periodic_eval_spec in Hev.
    destruct (is_step_of step (eval_steps (cfg r3))); [|destruct Hev].
    destruct Hev as [Hev|[]]. discriminate.
Qed.

Lemma evaluation_step_witness :
  exists r : Runner,
    Runner_init demo_sample_init (demo_cfg_steps 2 [1%Z]) = Ok r
    /\ is_step_of 0 (eval_steps (cfg r)) = true
    /\ In (EvEval 0)
          (fst (train_step demo_env 0
                  ([Plain (ExponentialLR MeansOpt (1 / 2) 0) 0], r)))
    /\ (forall out,
           snd (train_step demo_env 0
                  ([Plain (ExponentialLR MeansOpt (1 / 2) 0) 0], r)) <> Ok out)
    /\ exists e,
         snd (train_step demo_env 0
                ([Plain (ExponentialLR MeansOpt (1 / 2) 0) 0], r))
         = Err e.
Proof.
  eexists. split; [reflexivity|]. split; [reflexivity|].
  match goal with
  | |- In _ (fst (train_step _ _ (?s, ?r))) /\ _ =>
      assert (Hin : In (EvEval 0) (fst (train_step demo_env 0 (s, r))))
        by (run_model; repeat (first [left; reflexivity | right]));
      split; [exact Hin|]; split;
      [ exact (proj1 (evaluation_step_ends_the_run demo_env 0 s r) eq_refl)
      | exact (proj2 (proj2 (proj1 (proj2 (evaluation_step_ends_the_run demo_env 0 s r))
                                0%Z Hin))) ]
  end.
Defined.

(** ** Stage order of every iteration *)

Lemma staged_nil (k : nat) : staged k [].
Proof. split; constructor. Qed.

Lemma staged_bindM {A B : Type} (k lo : nat) (m : M A) (f : A -> M B) :
  Forall (fun e => phase_rank e = k) (fst m) ->
  (lo <= k)%nat ->
  (forall a, staged k (fst (f a))) ->
  staged lo (fst (bindM m f)).
Proof.
  intros Hm Hlo Hf. rewrite trace_bindM.
  assert (Htail : staged k match snd m with
                           | Ok a => fst (f a)
                           | Err _ => []
                           end)
    by (destruct (snd m); [apply Hf | apply staged_nil]).
  destruct Htail as [Hord Hge]. split.
  - exact (ordered_segment k _ _ Hm Hord Hge).
  - exact (at_least_segment lo k _ _ Hlo Hm Hge).
Qed.

Lemma staged_weaken (lo k : nat) (tr : list Event) :
  (lo <= k)%nat -> staged k tr -> staged lo tr.
Proof.
  intros Hlo [Hord Hge]. split; [exact Hord|].
  eapply Forall_impl; [|exact Hge]. intros e He. simpl in He. lia.
Qed.

Lemma train_step_staged (env : Collaborators) (step : Z) (scheds : list Scheduler)
    (r : Runner) :
  staged 0 (fst (train_step env step (scheds, r))).
Proof.
  unfold train_step. cbn [fst snd].
  apply (staged_bindM 0); [constructor | lia |]. intros rd.
  apply (staged_bindM 0); [repeat constructor | lia |]. intros _.
  apply (staged_bindM 0);
    [destruct (use_shading (cfg r)); repeat constructor | lia |]. intros _.
  apply (staged_bindM 1); [apply pre_backward_ranks | lia |]. intros r1.
  apply (staged_bindM 2); [repeat constructor | lia |]. intros _.
  apply (staged_bindM 3); [apply save_checkpoint_ranks | lia |]. intros _.
  apply (staged_bindM 4); [apply sparsify_gradients_ranks | lia |]. intros _.
  apply (staged_bindM 4); [constructor | lia |]. intros mask.
  apply (staged_bindM 5); [apply optimize_ranks | lia |]. intros r2.
  apply (staged_bindM 6);
    [destruct (step_schedulers_spec scheds r2) as (_ & H & _); exact H | lia |].
  intros p.
  apply (staged_bindM 7); [apply post_backward_ranks | lia |]. intros r3.
  apply (staged_bindM 8); [apply periodic_eval_ranks | lia |]. intros _.
  apply staged_nil.
Qed.

Lemma ordered_split_before (pre post : list Event) (ev : Event) :
  ordered (pre ++ ev :: post) ->
  Forall (fun e => (phase_rank e <= phase_rank ev)%nat) pre.
Proof.
  unfold ordered. induction pre as [|x pre IH]; cbn [app]; intros H; [constructor|].
  inversion H as [|? ? Hrest Hall]; subst. constructor.
  - rewrite Forall_forall in Hall. apply Hall.
    apply in_or_app. right. left. reflexivity.
  - apply IH. exact Hrest.
Qed.

Lemma no_update_before_stage_5 (tr : list Event) :
  Forall (fun e => (phase_rank e < 5)%nat) tr -> filter is_update tr = [].
Proof.
  induction 1 as [|x tr Hx _ IH]; [reflexivity|].
  cbn [filter]. rewrite is_update_rank.
  destruct (Nat.eqb_spec (phase_rank x) 5); [lia|].
  destruct (Nat.eqb_spec (phase_rank x) 6); [lia|].
  exact IH.
Qed.

(** X7: whatever its outcome, an iteration issues its calls in stage order:
    forward passes, pre-backward bookkeeping, backward pass, checkpoint,
    sparse conversion, optimizer steps, schedule advance, post-backward
    calls, evaluation.  In particular a checkpoint is written before any
    optimizer step or schedule advance of its iteration, and nothing but
    such updates, post-backward calls and evaluation follows it. *)
Theorem iteration_calls_follow_stage_order :
  forall (env : Collaborators) (step : Z) (scheds : list Scheduler) (r : Runner),
    ordered (fst (train_step env step (scheds, r)))
    /\ (forall pre post data,
           fst (train_step env step (scheds, r))
           = (pre ++ EvSaveCheckpoint data :: post)%list ->
           filter is_update pre = []
           /\ Forall (fun e => (3 <= phase_rank e)%nat) post).
Proof.
  intros env step scheds r.
  destruct (train_step_staged env step scheds r) as [Hord _].
  split; [exact Hord|].
  intros pre post data Htr. rewrite Htr in Hord. split.
  - apply no_update_before_stage_5.
    pose proof (ordered_split_before pre post _ Hord) as Hpre.
    eapply Forall_impl; [|exact Hpre]. intros e He. simpl in He. lia.
  - exact (ordered_split pre post _ Hord).
Qed.

(** ** A run that completes *)

Lemma is_backward_rank (e : Event) : is_backward e = true -> phase_rank e = 2%nat.
Proof. destruct e; try discriminate. reflexivity. Qed.

Lemma filter_backward_segment (k : nat) (tr : list Event) :
  Forall (fun e => phase_rank e = k) tr -> k <> 2%nat -> filter is_backward tr = [].
Proof.
  intros H Hk. induction H as [|x tr Hx _ IH]; [reflexivity|].
  cbn [filter]. destruct (is_backward x) eqn:E; [|exact IH].
  apply is_backward_rank in E. congruence.
Qed.

Lemma save_checkpoint_written (r : Runner) (step : Z) :
  snd (save_checkpoint r step) = Ok tt ->
  is_step_of step (save_steps (cfg r)) || Z.eqb step (max_steps (cfg r) - 1) = true ->
  exists data,
    fst (save_checkpoint r step) = [EvSaveCheckpoint data]
    /\ lookup "step" data = Some (CkInt step)
    /\ lookup "splats" data = Some (CkStateDict (splats r)).
Proof.
  unfold save_checkpoint. intros H Hcond. rewrite Hcond in *.
  rewrite result_bindM in H. rewrite trace_bindM. cbn [lift fst snd] in *.
  destruct (checkpoint_data r step) as [data|] eqn:Hdata; [|discriminate].
  exists data. split; [reflexivity|].
  unfold checkpoint_data in Hdata.
  destruct (app_opt (cfg r)).
  - destruct (app_module r); [|discriminate]. injection Hdata as <-. split; reflexivity.
  - injection Hdata as <-. split; reflexivity.
Qed.

(** What one completed iteration leaves in the trace. *)
Lemma train_step_ok_facts (env : Collaborators) (step : Z) (scheds : list Scheduler)
    (r : Runner) (out : list Scheduler * Runner) :
  snd (train_step env step (scheds, r)) = Ok out ->
  cfg (snd out) = cfg r
  /\ filter is_backward (fst (train_step env step (scheds, r))) = [EvBackward step]
  /\ is_step_of step (eval_steps (cfg r)) = false
  /\ (is_step_of step (save_steps (cfg r)) || Z.eqb step (max_steps (cfg r) - 1) = true ->
      exists data,
        In (EvSaveCheckpoint data) (fst (train_step env step (scheds, r)))
        /\ lookup "step" data = Some (CkInt step)
        /\ lookup "splats" data = Some (CkStateDict (splats r))).
Proof.
  intros Hout.
  destruct (train_step_ok env step scheds r out Hout)
    as (rd & r1 & mask & r2 & p & r3 & Hrd & Hpre & Hsave & Hsp & Hmask & Hopt
        & Hp & Hpost & Hpe & ->).
  pose proof (train_step_stage_cfg env step scheds r r1 r2 r3 rd mask p
                Hpre Hopt Hp Hpost) as Hcfg.
  destruct (pre_backward_preserves env r r1 step rd Hpre)
    as (Hc1 & _ & _ & Hs1 & _).
  split; [exact Hcfg|]. split; [|split].
  - rewrite (train_step_trace env step scheds r r1 r2 rd mask p) by assumption.
    rewrite Hpost.
    assert (Hfwd : Forall (fun e => phase_rank e = 0%nat)
                     (EvForward Albedo
                      :: (if use_shading (cfg r) then [EvForward Shading] else [])))
      by (destruct (use_shading (cfg r)); repeat constructor).
    assert (Hsched : Forall (fun e => phase_rank e = 6%nat)
                       (repeat EvSchedulerStep (length scheds)))
      by (induction (length scheds); cbn [repeat]; repeat constructor; assumption).
    rewrite !filter_app.
    rewrite (filter_backward_segment 0 _ Hfwd),
      (filter_backward_segment 1 _ (pre_backward_ranks env r step rd)),
      (filter_backward_segment 3 _ (save_checkpoint_ranks r1 step)),
      (filter_backward_segment 4 _ (sparsify_gradients_ranks r1)),
      (filter_backward_segment 5 _ (optimize_ranks env r1 step mask)),
      (filter_backward_segment 6 _ Hsched),
      (filter_backward_segment 7 _ (post_backward_ranks env (snd p) (fst p) step rd)),
      (filter_backward_segment 8 _ (periodic_eval_ranks r3 step)) by discriminate.
    reflexivity.
  - rewrite periodic_eval_spec, Hcfg in Hpe.
    destruct (is_step_of step (eval_steps (cfg r))); [discriminate | reflexivity].
  - intros Hcond. rewrite <- Hc1 in Hcond.
    destruct (save_checkpoint_written r1 step Hsave Hcond) as (data & Htr & Hstep & Hsp').
    exists data. split; [|split; [exact Hstep | rewrite <- Hs1; exact Hsp']].
    rewrite (train_step_trace env step scheds r r1 r2 rd mask p) by assumption.
    do 3 (apply in_or_app; right). apply in_or_app. left.
    rewrite Htr. left. reflexivity.
Qed.

(** The loop over the steps, when it completes. *)
Lemma training_loop_ok_facts (env : Collaborators) :
  forall (steps : list Z) (s out : list Scheduler * Runner),
    snd (forM (train_step env) steps s) = Ok out ->
    cfg (snd out) = cfg (snd s)
    /\ filter is_backward (fst (forM (train_step env) steps s)) = map EvBackward steps
    /\ forall k, In k steps ->
         is_step_of k (eval_steps (cfg (snd s))) = false
         /\ (is_step_of k (save_steps (cfg (snd s)))
             || Z.eqb k (max_steps (cfg (snd s)) - 1) = true ->
             exists data,
               In (EvSaveCheckpoint data) (fst (forM (train_step env) steps s))
               /\ lookup "step" data = Some (CkInt k)).
Proof.
  induction steps as [|k0 steps IH]; intros [scheds r] out H.
  - cbn [forM ret snd] in H. injection H as <-.
    split; [reflexivity|]. split; [reflexivity|]. intros k [].
  - cbn [forM] in *. rewrite result_bindM in H. rewrite trace_bindM.
    destruct (snd (train_step env k0 (scheds, r))) as [s1|] eqn:Hstep; [|discriminate].
    destruct (train_step_ok_facts env k0 scheds r s1 Hstep)
      as (Hcfg1 & Hbwd & Heval & Hsave).
    destruct (IH s1 out H) as (Hcfg & Hbwds & Hrest).
    cbn [snd] in *.
    split; [rewrite Hcfg; exact Hcfg1|]. split.
    + rewrite filter_app, Hbwd, Hbwds. reflexivity.
    + intros k [<-|Hk].
      * split; [exact Heval|]. intros Hcond.
        destruct (Hsave Hcond) as (data & Hin & Hs & _).
        exists data. split; [apply in_or_app; left; exact Hin | exact Hs].
      * destruct (Hrest k Hk) as [He Hs]. rewrite Hcfg1 in He, Hs.
        split; [exact He|]. intros Hcond.
        destruct (Hs Hcond) as (data & Hin & Hstep').
        exists data. split; [apply in_or_app; right; exact Hin | exact Hstep'].
Qed.

Lemma steps_of_last (n : Z) : (0 < n)%Z -> In (n - 1)%Z (steps_of n).
Proof.
  intros Hn. unfold steps_of. apply in_map_iff.
  exists (Z.to_nat (n - 1)). split; [lia|].
  apply in_seq. lia.
Qed.

(** X8: a run that completes had a step budget other than zero, ran the
    backward pass once for every step 0, 1, ..., max_steps - 1 in that
    order and for no other step, met no evaluation step on the way, and,
    when the budget is positive, wrote a checkpoint labelled with the last
    step max_steps - 1. *)
Theorem completed_run_visits_every_step_once :
  forall (env : Collaborators) (sample_init : bool -> nat -> InitSample)
         (c : Config) (out : list Scheduler * Runner),
    snd (main env sample_init c) = Ok out ->
    max_steps c <> 0%Z
    /\ filter is_backward (fst (main env sample_init c))
       = map EvBackward (steps_of (max_steps c))
    /\ (forall k, In k (steps_of (max_steps c)) -> is_step_of k (eval_steps c) = false)
    /\ ((0 < max_steps c)%Z ->
        exists data,
          In (EvSaveCheckpoint data) (fst (main env sample_init c))
          /\ lookup "step" data = Some (CkInt (max_steps c - 1))).
Proof.
  intros env sample_init c out Hout.
  unfold main in *. rewrite result_bindM in Hout. rewrite trace_bindM.
  cbn [lift fst snd app] in *.
  destruct (Runner_init sample_init c) as [r|] eqn:Hinit; [|discriminate].
  destruct (Runner_init_inv sample_init c r Hinit) as (Hcfg & _).
  unfold train in *. rewrite result_bindM in Hout. rewrite trace_bindM.
  cbn [lift fst snd app] in *.
  destruct (build_schedulers r) as [[scheds r0]|] eqn:Hbuild; [|discriminate].
  assert (Hne : max_steps c <> 0%Z).
  { intros H0. unfold build_schedulers in Hbuild. rewrite Hcfg, H0 in Hbuild.
    discriminate. }
  destruct (build_schedulers_ok sample_init c r Hinit Hne)
    as (scheds' & r0' & Hbuild' & Hc0 & _).
  rewrite Hbuild in Hbuild'. injection Hbuild' as <- <-.
  rewrite Hcfg in *.
  destruct (training_loop_ok_facts env (steps_of (max_steps c)) (scheds, r0) out Hout)
    as (_ & Hbwd & Hsteps).
  cbn [snd] in Hsteps. rewrite Hc0 in Hsteps.
  split; [exact Hne|]. split; [exact Hbwd|]. split.
  - intros k Hk. exact (proj1 (Hsteps k Hk)).
  - intros Hpos.
    destruct (Hsteps _ (steps_of_last _ Hpos)) as [_ Hsave].
    apply Hsave. rewrite Z.eqb_refl. apply orb_true_r.
Qed.

Lemma completed_run_witness :
  exists out : list Scheduler * Runner,
    snd (main demo_env demo_sample_init (demo_cfg_steps 2 [])) = Ok out
    /\ max_steps (demo_cfg_steps 2 []) <> 0%Z
    /\ filter is_backward (fst (main demo_env demo_sample_init (demo_cfg_steps 2 [])))
       = map EvBackward (steps_of (max_steps (demo_cfg_steps 2 [])))
    /\ (forall k, In k (steps_of (max_steps (demo_cfg_steps 2 []))) ->
                  is_step_of k (eval_steps (demo_cfg_steps 2 [])) = false)
    /\ ((0 < max_steps (demo_cfg_steps 2 []))%Z ->
        exists data,
          In (EvSaveCheckpoint data)
             (fst (main demo_env demo_sample_init (demo_cfg_steps 2 [])))
          /\ lookup "step" data = Some (CkInt (max_steps (demo_cfg_steps 2 []) - 1))).
Proof.
  eexists. split; [run_model; reflexivity|].
  eapply (completed_run_visits_every_step_once demo_env demo_sample_init
            (demo_cfg_steps 2 [])).
  run_model. reflexivity.
Defined.

(** ** The visibility mask *)

Lemma nth_map_seq (f : nat -> bool) (n i : nat) :
  (i < n)%nat -> nth i (map f (seq 0 n)) false = f i.
Proof.
  intros Hi.
  rewrite (nth_indep _ false (f 0%nat)) by (rewrite length_map, length_seq; exact Hi).
  rewrite map_nth, seq_nth by exact Hi. reflexivity.
Qed.

Lemma existsb_eqb_In (i : nat) (ids : list nat) :
  existsb (Nat.eqb i) ids = true <-> In i ids.
Proof.
  rewrite existsb_exists. split.
  - intros (x & Hin & E). apply Nat.eqb_eq in E. subst. exact Hin.
  - intros Hin. exists i. split; [exact Hin | apply Nat.eqb_refl].
Qed.

Lemma scatter_mask_ok (n : nat) (ids : list nat) :
  Forall (fun i => (i < n)%nat) ids ->
  scatter_mask n ids = Ok (map (fun i => existsb (Nat.eqb i) ids) (seq 0 n)).
Proof.
  intros H. unfold scatter_mask.
  replace (forallb (fun i => Nat.ltb i n) ids) with true; [reflexivity|].
  symmetry. apply forallb_forall. intros i Hi. apply Nat.ltb_lt.
  rewrite Forall_forall in H. apply H. exact Hi.
Qed.

Lemma scatter_mask_err (n : nat) (ids : list nat) :
  ~ Forall (fun i => (i < n)%nat) ids ->
  scatter_mask n ids = Err (RuntimeError "index out of bounds").
Proof.
  intros H. unfold scatter_mask.
  destruct (forallb (fun i => Nat.ltb i n) ids) eqn:E; [|reflexivity].
  exfalso. apply H. apply Forall_forall. intros i Hi.
  apply Nat.ltb_lt. rewrite forallb_forall in E. apply E. exact Hi.
Qed.

(** X9: in packed mode with [visible_adam] the visibility mask has one
    entry per primitive of the albedo population, the entry of primitive
    [i] is set exactly when [i] is among the [gaussian_ids] of the albedo
    pass, and an id outside the population makes the step fail. *)
Theorem packed_visibility_mask_marks_listed_gaussians :
  forall (r : Runner) (info : Info) (ops : list R),
    visible_adam (cfg r) = true ->
    packed (cfg r) = true ->
    get1 (splats r) "opacities" = Ok ops ->
    (Forall (fun i => (i < length ops)%nat) (gaussian_ids info) ->
     exists m,
       visibility_mask r info = Ok (Some m)
       /\ length m = length ops
       /\ forall i, (i < length ops)%nat ->
            (nth i m false = true <-> In i (gaussian_ids info)))
    /\ (~ Forall (fun i => (i < length ops)%nat) (gaussian_ids info) ->
        exists e, visibility_mask r info = Err e).
Proof.
  intros r info ops Hv Hp Hops. unfold visibility_mask. rewrite Hv, Hp, Hops.
  cbn [bind]. split.
  - intros Hids. rewrite (scatter_mask_ok _ _ Hids). cbn [bind].
    eexists. split; [reflexivity|]. split.
    + rewrite length_map, length_seq. reflexivity.
    + intros i Hi. rewrite nth_map_seq by exact Hi. apply existsb_eqb_In.
  - intros Hids. rewrite (scatter_mask_err _ _ Hids). cbn [bind].
    eexists. reflexivity.
Qed.

Lemma packed_visibility_mask_witness :
  exists r : Runner,
    Runner_init demo_sample_init
      (demo_cfg demo_mcmc demo_mcmc true false true false None) = Ok r
    /\ (Forall (fun i => (i < length [logit (1 / 2)])%nat)
               (gaussian_ids {| radii := []; gaussian_ids := [0%nat] |}) ->
        exists m,
          visibility_mask r {| radii := []; gaussian_ids := [0%nat] |} = Ok (Some m)
          /\ length m = length [logit (1 / 2)]
          /\ forall i, (i < length [logit (1 / 2)])%nat ->
               (nth i m false = true
                <-> In i (gaussian_ids {| radii := []; gaussian_ids := [0%nat] |})))
    /\ (~ Forall (fun i => (i < length [logit (1 / 2)])%nat)
                 (gaussian_ids {| radii := []; gaussian_ids := [0%nat] |}) ->
        exists e,
          visibility_mask r {| radii := []; gaussian_ids := [0%nat] |} = Err e).
Proof.
  eexists. split; [reflexivity|].
  match goal with
  | |- (_ -> exists m, visibility_mask ?r _ = _ /\ _) /\ _ =>
      eapply (packed_visibility_mask_marks_listed_gaussians r
                {| radii := []; gaussian_ids := [0%nat] |} [logit (1 / 2)]);
      [ reflexivity | reflexivity | ]
  end.
  run_model. reflexivity.
Defined.

Lemma nth_map2_orb (n : nat) (xs ys : list bool) (i : nat) :
  length xs = n -> length ys = n -> (i < n)%nat ->
  nth i (map2 orb xs ys) false = nth i xs false || nth i ys false.
Proof.
  intros Hx Hy Hi.
  destruct (nth_error xs i) as [x|] eqn:Ex;
    [|apply nth_error_None in Ex; lia].
  destruct (nth_error ys i) as [y|] eqn:Ey;
    [|apply nth_error_None in Ey; lia].
  rewrite (nth_error_nth _ _ false (nth_error_map2 orb xs ys i x y Ex Ey)).
  rewrite (nth_error_nth _ _ false Ex), (nth_error_nth _ _ false Ey). reflexivity.
Qed.

Lemma fold_map2_orb (n : nat) :
  forall (rest : list (list bool)) (acc : list bool),
    length acc = n ->
    Forall (fun row => length row = n) rest ->
    length (fold_left (map2 orb) rest acc) = n
    /\ forall i, (i < n)%nat ->
         (nth i (fold_left (map2 orb) rest acc) false = true
          <-> nth i acc false = true
              \/ exists row, In row rest /\ nth i row false = true).
Proof.
  induction rest as [|row rest IH]; intros acc Hacc Hrest.
  - split; [exact Hacc|]. intros i Hi. cbn [fold_left]. split.
    + intros H. left. exact H.
    + intros [H|(row & [] & _)]. exact H.
  - inversion Hrest as [|? ? Hrow Hrest']; subst.
    assert (Hlen : length (map2 orb acc row) = length acc)
      by (apply map2_length; congruence).
    destruct (IH (map2 orb acc row) Hlen Hrest') as [HL Hnth].
    cbn [fold_left]. split; [exact HL|]. intros i Hi.
    rewrite (Hnth i Hi).
    rewrite (nth_map2_orb (length acc) acc row i eq_refl Hrow Hi).
    rewrite orb_true_iff. split.
    + intros [[H|H]|(row' & Hin & H)].
      * left. exact H.
      * right. exists row. split; [left; reflexivity | exact H].
      * right. exists row'. split; [right; exact Hin | exact H].
    + intros [H|(row' & [<-|Hin] & H)].
      * left. left. exact H.
      * left. right. exact H.
      * right. exists row'. split; assumption.
Qed.

Lemma nth_map_forallb (i : nat) (cam : list (list Z)) :
  (i < length cam)%nat ->
  (nth i (map (forallb (fun x => Z.ltb 0 x)) cam) false = true
   <-> Forall (fun x => (0 < x)%Z) (nth i cam [])).
Proof.
  intros Hi.
  rewrite (nth_indep _ false (forallb (fun x => Z.ltb 0 x) []))
    by (rewrite length_map; exact Hi).
  rewrite map_nth, forallb_forall, Forall_forall.
  split; intros H x Hx; apply Z.ltb_lt; apply H; exact Hx.
Qed.

(** X10: outside packed mode, with [visible_adam], at least one camera
    and [n] primitives per camera, the visibility mask has [n] entries and
    the entry of primitive [i] is set exactly when some camera projects it
    to radii that are all positive. *)
Theorem unpacked_visibility_mask_needs_one_camera_with_positive_radii :
  forall (r : Runner) (info : Info) (n : nat),
    visible_adam (cfg r) = true ->
    packed (cfg r) = false ->
    radii info <> [] ->
    Forall (fun cam => length cam = n) (radii info) ->
    exists m,
      visibility_mask r info = Ok (Some m)
      /\ length m = n
      /\ forall i, (i < n)%nat ->
           (nth i m false = true
            <-> exists cam, In cam (radii info)
                            /\ Forall (fun x => (0 < x)%Z) (nth i cam [])).
Proof.
  intros r info n Hv Hp Hne Hshape. unfold visibility_mask. rewrite Hv, Hp.
  eexists. split; [reflexivity|]. unfold radii_visible.
  destruct (radii info) as [|cam0 cams]; [contradiction|]. cbn [map].
  inversion Hshape as [|? ? Hcam0 Hcams]; subst.
  assert (Hrest : Forall (fun row : list bool => length row = length cam0)
                    (map (map (forallb (fun x => Z.ltb 0 x))) cams)).
  { apply Forall_forall. intros row Hin.
    apply in_map_iff in Hin as (cam & <- & Hin). rewrite length_map.
    rewrite Forall_forall in Hcams. apply Hcams. exact Hin. }
  destruct (fold_map2_orb (length cam0) _ (map (forallb (fun x => Z.ltb 0 x)) cam0)
              (length_map _ _) Hrest) as [HL Hnth].
  split; [exact HL|]. intros i Hi. rewrite (Hnth i Hi). split.
  - intros [H|(row & Hin & H)].
    + exists cam0. split; [left; reflexivity|].
      apply nth_map_forallb; assumption.
    + apply in_map_iff in Hin as (cam & <- & Hin).
      exists cam. split; [right; exact Hin|].
      apply nth_map_forallb; [|exact H].
      rewrite Forall_forall in Hcams. rewrite (Hcams cam Hin). exact Hi.
  - intros (cam & [<-|Hin] & H).
    + left. apply nth_map_forallb; assumption.
    + right. exists (map (forallb (fun x => Z.ltb 0 x)) cam).
      split; [apply in_map; exact Hin|].
      apply nth_map_forallb; [|exact H].
      rewrite Forall_forall in Hcams. rewrite (Hcams cam Hin). exact Hi.
Qed.

Lemma unpacked_visibility_mask_witness :
  exists r : Runner,
    Runner_init demo_sample_init
      (demo_cfg demo_mcmc demo_mcmc false false true false None) = Ok r
    /\ exists m,
         visibility_mask r {| radii := [[[1%Z; 1%Z]; [0%Z; 3%Z]]; [[0%Z; 0%Z]; [0%Z; 0%Z]]];
                              gaussian_ids := [] |} = Ok (Some m)
         /\ length m = 2%nat
         /\ forall i, (i < 2)%nat ->
              (nth i m false = true
               <-> exists cam,
                     In cam (radii {| radii := [[[1%Z; 1%Z]; [0%Z; 3%Z]];
                                              [[0%Z; 0%Z]; [0%Z; 0%Z]]];
                                      gaussian_ids := [] |})
                     /\ Forall (fun x => (0 < x)%Z) (nth i cam [])).
Proof.
  eexists. split; [reflexivity|].
  match goal with
  | |- exists m, visibility_mask ?r ?info = _ /\ _ =>
      apply (unpacked_visibility_mask_needs_one_camera_with_positive_radii r info 2)
  end.
  - reflexivity.
  - reflexivity.
  - discriminate.
  - repeat constructor.
Defined.

(** ** The unit lower-triangular factor *)

Lemma index_of_from (p : nat * nat) (l : list (nat * nat)) :
  index_of p l = index_from p l 0.
Proof. reflexivity. Qed.

Lemma pair_eqb_iff (p q : nat * nat) :
  Nat.eqb (fst p) (fst q) && Nat.eqb (snd p) (snd q) = true <-> p = q.
Proof.
  destruct p as [a b], q as [c d]. cbn [fst snd].
  rewrite andb_true_iff, !Nat.eqb_eq. split.
  - intros [-> ->]. reflexivity.
  - intros E. injection E as -> ->. split; reflexivity.
Qed.

Lemma index_from_absent (p : nat * nat) :
  forall (l : list (nat * nat)) (n : nat), ~ In p l -> index_from p l n = None.
Proof.
  induction l as [|q l IH]; intros n Hin; [reflexivity|].
  cbn [index_from].
  destruct (Nat.eqb (fst p) (fst q) && Nat.eqb (snd p) (snd q)) eqn:E.
  - apply pair_eqb_iff in E. exfalso. apply Hin. left. symmetry. exact E.
  - apply IH. intros H. apply Hin. right. exact H.
Qed.

Lemma index_from_app (p : nat * nat) :
  forall (l1 l2 : list (nat * nat)) (n : nat),
    index_from p (l1 ++ l2)%list n
    = match index_from p l1 n with
      | Some k => Some k
      | None => index_from p l2 (n + length l1)
      end.
Proof.
  induction l1 as [|q l1 IH]; intros l2 n.
  - cbn [app index_from length]. rewrite Nat.add_0_r. reflexivity.
  - cbn [app index_from length].
    destruct (Nat.eqb (fst p) (fst q) && Nat.eqb (snd p) (snd q)); [reflexivity|].
    rewrite IH. replace (S n + length l1)%nat with (n + S (length l1))%nat by lia.
    reflexivity.
Qed.

Lemma index_from_row (i j : nat) :
  forall (len s n : nat),
    (s <= j < s + len)%nat ->
    index_from (i, j) (map (fun j' => (i, j')) (seq s len)) n = Some (n + (j - s))%nat.
Proof.
  induction len as [|len IH]; intros s n Hj; [lia|].
  cbn [seq map index_from fst snd]. rewrite Nat.eqb_refl. cbn [andb].
  destruct (Nat.eqb_spec j s) as [->|Hne].
  - f_equal. lia.
  - rewrite IH by lia. f_equal. lia.
Qed.

Lemma tril_indices_S (d : nat) :
  tril_indices (S d)
  = (tril_indices d ++ map (fun j => (d, j)) (seq 0 d))%list.
Proof.
  unfold tril_indices. rewrite seq_S, flat_map_app. cbn [flat_map plus].
  rewrite app_nil_r. reflexivity.
Qed.

Lemma triangular_S (d : nat) :
  (S d * (S d - 1) / 2 = d * (d - 1) / 2 + d)%nat.
Proof.
  replace (S d * (S d - 1))%nat with (d * (d - 1) + d * 2)%nat
    by (destruct d; cbn [Nat.sub]; nia).
  apply Nat.div_add. discriminate.
Qed.

Lemma length_tril_indices (d : nat) :
  length (tril_indices d) = (d * (d - 1) / 2)%nat.
Proof.
  induction d as [|d IH]; [reflexivity|].
  rewrite tril_indices_S, length_app, length_map, length_seq, IH, triangular_S.
  reflexivity.
Qed.

Lemma In_tril_indices (d i j : nat) :
  In (i, j) (tril_indices d) <-> (j < i < d)%nat.
Proof.
  unfold tril_indices. rewrite in_flat_map. split.
  - intros (i' & Hi' & Hin). apply in_map_iff in Hin as (j' & E & Hj').
    injection E as -> ->. apply in_seq in Hi', Hj'. lia.
  - intros H. exists i. split; [apply in_seq; lia|].
    apply in_map_iff. exists j. split; [reflexivity | apply in_seq; lia].
Qed.

(** [torch.tril_indices(d, d, offset=-1)] lists the entries below the
    diagonal row by row. *)
Lemma index_of_tril (d i j : nat) :
  (j < i < d)%nat ->
  index_of (i, j) (tril_indices d) = Some (i * (i - 1) / 2 + j)%nat.
Proof.
  rewrite index_of_from. induction d as [|d IH]; intros H; [lia|].
  rewrite tril_indices_S, index_from_app.
  destruct (Nat.eq_dec i d) as [->|Hne].
  - rewrite index_from_absent by (rewrite In_tril_indices; lia).
    rewrite index_from_row by lia. rewrite length_tril_indices. f_equal. lia.
  - rewrite IH by lia. reflexivity.
Qed.

Lemma index_of_not_below (d i j : nat) :
  (i <= j)%nat -> index_of (i, j) (tril_indices d) = None.
Proof.
  intros H. rewrite index_of_from. apply index_from_absent.
  rewrite In_tril_indices. lia.
Qed.

Lemma nth_map_seq_R {A : Type} (f : nat -> A) (n i : nat) (dflt : A) :
  (i < n)%nat -> nth i (map f (seq 0 n)) dflt = f i.
Proof.
  intros Hi.
  rewrite (nth_indep _ dflt (f 0%nat)) by (rewrite length_map, length_seq; exact Hi).
  rewrite map_nth, seq_nth by exact Hi. reflexivity.
Qed.

Lemma cholesky_row_matrix_entry (d : nat) (aniso : list R) (i j : nat) :
  (i < d)%nat -> (j < d)%nat ->
  nth j (nth i (cholesky_row_matrix d aniso) []) 0
  = if Nat.ltb j i then nth (i * (i - 1) / 2 + j) aniso 0
    else if Nat.eqb i j then 1 else 0.
Proof.
  intros Hi Hj. unfold cholesky_row_matrix.
  rewrite (nth_map_seq_R _ d i []) by exact Hi.
  rewrite (nth_map_seq_R _ d j 0) by exact Hj.
  destruct (Nat.ltb_spec j i) as [Hlt|Hge].
  - destruct (Nat.eqb_spec i j) as [E|_]; [lia|].
    rewrite index_of_tril by lia. reflexivity.
  - destruct (Nat.eqb_spec i j) as [_|_]; [reflexivity|].
    rewrite index_of_not_below by exact Hge. reflexivity.
Qed.

(** X11: for a population with [d > 1] temporal dimensions whose
    [time_anisos] hold [d (d - 1) / 2] values for each of its primitives,
    [splat_cholesky] returns one [d] by [d] matrix per primitive; it has
    ones on the diagonal, zeros above it, and below it, row by row, the
    primitive's [time_anisos]: entry [(i, j)] with [j < i] is value number
    [i (i - 1) / 2 + j]. *)
Theorem splat_cholesky_is_unit_lower_triangular :
  forall (splats : ParameterDict) (times anisos : list (list R)) (d : nat),
    get2 splats "times" = Ok times ->
    d = length (hd [] times) ->
    (1 < d)%nat ->
    get2 splats "time_anisos" = Ok anisos ->
    length anisos = length times ->
    rows_of_width (d * (d - 1) / 2) anisos = true ->
    exists Ls,
      splat_cholesky splats = Ok Ls
      /\ length Ls = length times
      /\ forall (k : nat) (a : list R),
           nth_error anisos k = Some a ->
           exists L,
             nth_error Ls k = Some L
             /\ length L = d
             /\ (forall i, (i < d)%nat -> length (nth i L []) = d)
             /\ forall i j, (i < d)%nat -> (j < d)%nat ->
                  nth j (nth i L []) 0
                  = if Nat.ltb j i then nth (i * (i - 1) / 2 + j) a 0
                    else if Nat.eqb i j then 1 else 0.
Proof.
  intros splats times anisos d Ht Hd Hd1 Ha Hlen _.
  unfold splat_cholesky. rewrite Ht. cbn [bind]. rewrite <- Hd.
  replace (Nat.ltb 1 d) with true by (symmetry; apply Nat.ltb_lt; exact Hd1).
  rewrite Ha. cbn [bind]. eexists. split; [reflexivity|]. split.
  - rewrite length_map. exact Hlen.
  - intros k a Hk. exists (cholesky_row_matrix d a). split.
    + rewrite nth_error_map, Hk. reflexivity.
    + split; [unfold cholesky_row_matrix; rewrite length_map, length_seq; reflexivity|].
      split.
      * intros i Hi. unfold cholesky_row_matrix.
        rewrite (nth_map_seq_R _ d i []) by exact Hi.
        rewrite length_map, length_seq. reflexivity.
      * intros i j Hi Hj. apply cholesky_row_matrix_entry; assumption.
Qed.

Lemma splat_cholesky_witness :
  exists Ls,
    splat_cholesky [ ("times", T2 [[0; 0; 0]]); ("time_anisos", T2 [[2; 3; 4]]) ] = Ok Ls
    /\ length Ls = length [[0; 0; 0]]
    /\ forall (k : nat) (a : list R),
         nth_error [[2; 3; 4]] k = Some a ->
         exists L,
           nth_error Ls k = Some L
           /\ length L = 3%nat
           /\ (forall i, (i < 3)%nat -> length (nth i L []) = 3%nat)
           /\ forall i j, (i < 3)%nat -> (j < 3)%nat ->
                nth j (nth i L []) 0
                = if Nat.ltb j i then nth (i * (i - 1) / 2 + j) a 0
                  else if Nat.eqb i j then 1 else 0.
Proof.
  apply (splat_cholesky_is_unit_lower_triangular
           [ ("times", T2 [[0; 0; 0]]); ("time_anisos", T2 [[2; 3; 4]]) ]
           [[0; 0; 0]] [[2; 3; 4]] 3);
    first [ reflexivity | simpl; lia ].
Defined.

(** ** The range of an evaluation render *)

Lemma clamp01_range (x : R) : 0 <= clamp01 x <= 1.
Proof.
  unfold clamp01. split.
  - apply Rmax_l.
  - apply Rmax_lub; [lra | apply Rmin_r].
Qed.

(** X12: every channel of every pixel that the evaluation render of a
    validation sample returns lies in [0, 1], with or without the shading
    population and whatever the rasterizer produced. *)
Theorem evaluation_render_lies_in_unit_interval :
  forall (env : Collaborators) (r : Runner) (data : ValSample) (img : list (list R)),
    eval_render env r data = Ok img ->
    Forall (Forall (fun c => 0 <= c <= 1)) img.
Proof.
  intros env r data img H. unfold eval_render in H.
  apply bind_ok_inv in H as (out & _ & H).
  apply bind_ok_inv in H as (colors & _ & H).
  injection H as <-.
  apply Forall_forall. intros px Hpx.
  apply in_map_iff in Hpx as (px0 & <- & _).
  apply Forall_forall. intros c Hc.
  apply in_map_iff in Hc as (c0 & <- & _).
  apply clamp01_range.
Qed.

Lemma evaluation_render_witness :
  exists (r : Runner) (img : list (list R)),
    Runner_init demo_sample_init
      (demo_cfg demo_mcmc demo_mcmc false false false false None) = Ok r
    /\ eval_render demo_env r demo_val_sample = Ok img
    /\ Forall (Forall (fun c => 0 <= c <= 1)) img.
Proof.
  eexists. eexists. split; [reflexivity|].
  match goal with
  | |- eval_render _ ?r _ = _ /\ _ =>
      split;
      [ run_model; reflexivity
      | eapply (evaluation_render_lies_in_unit_interval demo_env r demo_val_sample);
        run_model; reflexivity ]
  end.
Defined.

(** ** What the schedules leave alone *)

(** The optimizers no schedule is attached to: the shading population's, and
    the albedo population's other than the position optimizer. *)
Lemma set_lr_frame (r : Runner) (o : OptRef) (y : R) :
  shading_optimizers (set_lr r o y) = shading_optimizers r
  /\ forall k, k <> "means" ->
       lookup k (optimizers (set_lr r o y)) = lookup k (optimizers r).
Proof.
  destruct o; unfold set_lr.
  - split; [reflexivity|]. intros k Hk. cbn [set_optimizers optimizers].
    apply lookup_update_other. apply String.eqb_neq. exact Hk.
  - destruct (bil_grid_optimizers r); split; reflexivity.
Qed.

Lemma basic_step_frame (s s' : BasicScheduler) (r r' : Runner) :
  basic_step s r = Ok (s', r') ->
  shading_optimizers r' = shading_optimizers r
  /\ forall k, k <> "means" -> lookup k (optimizers r') = lookup k (optimizers r).
Proof.
  unfold basic_step. destruct (get_lr r (target_of s)); cbn [bind]; [|discriminate].
  intros H. injection H as _ <-. apply set_lr_frame.
Qed.

Lemma chained_step_frame :
  forall (ss : list BasicScheduler) (r : Runner) (p : list BasicScheduler * Runner),
    chained_step ss r = Ok p ->
    shading_optimizers (snd p) = shading_optimizers r
    /\ forall k, k <> "means" ->
         lookup k (optimizers (snd p)) = lookup k (optimizers r).
Proof.
  induction ss as [|s ss IH]; intros r p H; cbn [chained_step] in H.
  - injection H as <-. split; reflexivity.
  - apply bind_ok_inv in H as ([s' r1] & Hs & H).
    apply bind_ok_inv in H as (q & Hq & H).
    injection H as <-. cbn [snd] in *.
    destruct (basic_step_frame _ _ _ _ Hs) as [H1 H2].
    destruct (IH _ _ Hq) as [H3 H4].
    split; [congruence|]. intros k Hk. rewrite (H4 k Hk). apply H2. exact Hk.
Qed.

Lemma scheduler_step_frame (s : Scheduler) (r : Runner) (p : Scheduler * Runner) :
  scheduler_step s r = Ok p ->
  shading_optimizers (snd p) = shading_optimizers r
  /\ forall k, k <> "means" ->
       lookup k (optimizers (snd p)) = lookup k (optimizers r).
Proof.
  destruct s as [b l|ss l]; cbn [scheduler_step]; intros H.
  - apply bind_ok_inv in H as ([s' r1] & Hs & H).
    apply bind_ok_inv in H as (lr & _ & H).
    injection H as <-. cbn [snd]. eapply basic_step_frame. exact Hs.
  - apply bind_ok_inv in H as (q & Hq & H).
    apply bind_ok_inv in H as (lr & _ & H).
    injection H as <-. cbn [snd]. eapply chained_step_frame. exact Hq.
Qed.

Lemma step_all_frame :
  forall (ss : list Scheduler) (r : Runner) (p : list Scheduler * Runner),
    step_all ss r = Ok p ->
    shading_optimizers (snd p) = shading_optimizers r
    /\ forall k, k <> "means" ->
         lookup k (optimizers (snd p)) = lookup k (optimizers r).
Proof.
  induction ss as [|s ss IH]; intros r p H; cbn [step_all] in H.
  - injection H as <-. split; reflexivity.
  - apply bind_ok_inv in H as (q1 & Hq1 & H).
    apply bind_ok_inv in H as (q & Hq & H).
    injection H as <-. cbn [snd].
    destruct (scheduler_step_frame _ _ _ Hq1) as [H1 H2].
    destruct (IH _ _ Hq) as [H3 H4].
    split; [congruence|]. intros k Hk. rewrite (H4 k Hk). apply H2. exact Hk.
Qed.

Lemma build_schedulers_frame (r : Runner) (p : list Scheduler * Runner) :
  build_schedulers r = Ok p ->
  shading_optimizers (snd p) = shading_optimizers r
  /\ forall k, k <> "means" ->
       lookup k (optimizers (snd p)) = lookup k (optimizers r).
Proof.
  unfold build_schedulers.
  destruct (Z.eqb (max_steps (cfg r)) 0); [discriminate|].
  destruct (get_lr r MeansOpt); cbn [bind]; [|discriminate].
  destruct (use_bilagrid (cfg r)).
  - destruct (get_lr r BilGridOpt); cbn [bind]; [|discriminate].
    intros H. injection H as <-. cbn [snd]. apply (set_lr_frame r BilGridOpt).
  - intros H. injection H as <-. split; reflexivity.
Qed.

Lemma optimize_keeps_shading_optimizers (env : Collaborators) (r r2 : Runner)
    (step : Z) (mask : option (list bool)) :
  snd (optimize env r step mask) = Ok r2 ->
  shading_optimizers r2 = shading_optimizers r.
Proof.
  unfold optimize. rewrite result_bindM.
  destruct (forM_step_param env Albedo step mask (optimizers r) (splats r))
    as [_ [p Hres]].
  rewrite Hres. rewrite result_bindM, forM_step_aux. cbn [snd].
  rewrite result_bindM, forM_step_aux. cbn [snd set_splats cfg].
  destruct (use_shading (cfg r)).
  - rewrite result_bindM. unfold shading_of.
    cbn [set_splats shading_splats shading_optimizers].
    destruct (shading_splats r) as [sh|]; cbn [lift snd]; [|discriminate].
    rewrite result_bindM.
    destruct (forM_step_param env Shading step mask (shading_optimizers r) sh)
      as [_ [p' Hres']].
    cbn [set_splats shading_optimizers]. rewrite Hres'. cbn [ret snd].
    intros H. injection H as <-. reflexivity.
  - cbn [ret snd]. intros H. injection H as <-. reflexivity.
Qed.

Lemma train_step_frame (env : Collaborators) (step : Z) (scheds : list Scheduler)
    (r : Runner) (out : list Scheduler * Runner) :
  snd (train_step env step (scheds, r)) = Ok out ->
  shading_optimizers (snd out) = shading_optimizers r
  /\ forall k, k <> "means" ->
       lookup k (optimizers (snd out)) = lookup k (optimizers r).
Proof.
  intros Hout.
  destruct (train_step_ok env step scheds r out Hout)
    as (rd & r1 & mask & r2 & p & r3 & _ & Hpre & _ & _ & _ & Hopt
        & Hp & Hpost & _ & ->).
  destruct (pre_backward_preserves env r r1 step rd Hpre)
    as (_ & Ho1 & _ & _ & _ & _ & Hs1 & _).
  destruct (optimize_preserves env r1 r2 step mask Hopt) as (_ & Ho2 & _).
  pose proof (optimize_keeps_shading_optimizers env r1 r2 step mask Hopt) as Hs2.
  destruct (step_all_frame _ _ _ Hp) as [Hs3 Ho3].
  destruct (post_backward_preserves env _ r3 _ step rd Hpost) as (_ & Ho4 & Hs4 & _).
  cbn [snd]. split; [congruence|].
  intros k Hk. rewrite Ho4, (Ho3 k Hk), Ho2, Ho1. reflexivity.
Qed.

Lemma training_loop_frame (env : Collaborators) :
  forall (steps : list Z) (s out : list Scheduler * Runner),
    snd (forM (train_step env) steps s) = Ok out ->
    shading_optimizers (snd out) = shading_optimizers (snd s)
    /\ forall k, k <> "means" ->
         lookup k (optimizers (snd out)) = lookup k (optimizers (snd s)).
Proof.
  induction steps as [|k0 steps IH]; intros [scheds r] out H.
  - cbn [forM ret snd] in H. injection H as <-. split; reflexivity.
  - cbn [forM] in H. rewrite result_bindM in H.
    destruct (snd (train_step env k0 (scheds, r))) as [s1|] eqn:Hstep; [|discriminate].
    destruct (train_step_frame env k0 scheds r s1 Hstep) as [H1 H2].
    destruct (IH s1 out H) as [H3 H4]. cbn [snd] in *.
    split; [congruence|]. intros k Hk. rewrite (H4 k Hk). apply H2. exact Hk.
Qed.

(** X13: no schedule is attached to the shading optimizers or to an albedo
    optimizer other than the position ("means") one: at the end of a run
    that completes, every shading optimizer and every albedo optimizer
    other than "means" is as the constructor made it, learning rate
    included. *)
Theorem only_position_learning_rate_is_scheduled :
  forall (env : Collaborators) (sample_init : bool -> nat -> InitSample)
         (c : Config) (r0 : Runner) (out : list Scheduler * Runner),
    Runner_init sample_init c = Ok r0 ->
    snd (main env sample_init c) = Ok out ->
    shading_optimizers (snd out) = shading_optimizers r0
    /\ forall k, k <> "means" ->
         lookup k (optimizers (snd out)) = lookup k (optimizers r0).
Proof.
  intros env sample_init c r0 out Hinit Hout.
  unfold main in Hout. rewrite result_bindM in Hout. rewrite Hinit in Hout.
  cbn [lift snd] in Hout.
  unfold train in Hout. rewrite result_bindM in Hout. cbn [lift snd] in Hout.
  destruct (build_schedulers r0) as [s|] eqn:Hbuild; [|discriminate].
  destruct (build_schedulers_frame r0 s Hbuild) as [H1 H2].
  destruct (training_loop_frame env _ s out Hout) as [H3 H4].
  split; [congruence|]. intros k Hk. rewrite (H4 k Hk). apply H2. exact Hk.
Qed.

Lemma only_position_learning_rate_witness :
  exists (r0 : Runner) (out : list Scheduler * Runner),
    Runner_init demo_sample_init (demo_cfg_steps 2 []) = Ok r0
    /\ snd (main demo_env demo_sample_init (demo_cfg_steps 2 [])) = Ok out
    /\ shading_optimizers (snd out) = shading_optimizers r0
    /\ forall k, k <> "means" ->
         lookup k (optimizers (snd out)) = lookup k (optimizers r0).
Proof.
  eexists. eexists. split; [reflexivity|].
  match goal with
  | |- snd (main _ _ _) = Ok ?out /\ shading_optimizers _ = shading_optimizers ?r0 /\ _ =>
      split;
      [ run_model; reflexivity
      | eapply (only_position_learning_rate_is_scheduled demo_env demo_sample_init
                  (demo_cfg_steps 2 []) r0);
        [ reflexivity | run_model; reflexivity ] ]
  end.
Defined.

(** ** Evaluation from checkpoints *)

Lemma lookup_In_NoDup {V : Type} (d : list (string * V)) (k : string) (v : V) :
  NoDup (keys d) -> In (k, v) d -> lookup k d = Some v.
Proof.
  induction d as [|[k0 v0] d IH]; intros Hnd Hin; [contradiction|].
  cbn [keys map fst] in Hnd. inversion Hnd as [|? ? Hnotin Hnd']; subst.
  cbn [lookup]. destruct Hin as [E|Hin].
  - injection E as -> ->. rewrite String.eqb_refl. reflexivity.
  - destruct (String.eqb_spec k k0) as [->|_].
    + exfalso. apply Hnotin. change k0 with (fst (k0, v)).
      apply in_map. exact Hin.
    + apply IH; assumption.
Qed.

(** Reading every group of [d'] out of a dictionary that has the same keys
    gives that dictionary. *)
Lemma mapM_lookup_same_keys (f : string * Tensor -> result (string * Tensor))
    (d : ParameterDict) :
  (forall k t t', In (k, t) d -> f (k, t') = Ok (k, t)) ->
  forall d0 d' : ParameterDict,
    (forall kv, In kv d0 -> In kv d) ->
    keys d' = keys d0 ->
    mapM f d' = Ok d0.
Proof.
  intros Hf. induction d0 as [|[k t] d0 IH]; intros d' Hsub Hkeys.
  - destruct d'; [reflexivity | discriminate].
  - destruct d' as [|[k' t'] d']; [discriminate|].
    cbn [keys map fst] in Hkeys. injection Hkeys as -> Hkeys.
    cbn [mapM]. rewrite (Hf k t t') by (apply Hsub; left; reflexivity).
    cbn [bind]. rewrite (IH d') by (auto using in_cons).
    reflexivity.
Qed.

(** X14: a checkpoint written for a runner restores that runner's albedo
    population and step when it is the only checkpoint loaded into a runner
    whose albedo population has the same parameter groups; the shading
    population of the loading runner stays as it was. *)
Theorem single_checkpoint_round_trip :
  forall (r r' : Runner) (step : Z) (data : Checkpoint),
    checkpoint_data r step = Ok data ->
    keys (splats r') = keys (splats r) ->
    NoDup (keys (splats r)) ->
    forall cat_empty : Exn,
      load_checkpoints cat_empty r' [data] = Ok (set_splats r' (splats r), step)
      /\ shading_splats (set_splats r' (splats r)) = shading_splats r'.
Proof.
  intros r r' step data Hdata Hkeys Hnd cat_empty. split; [|reflexivity].
  assert (Hsplats : lookup "splats" data = Some (CkStateDict (splats r))
                    /\ lookup "step" data = Some (CkInt step)).
  { unfold checkpoint_data in Hdata. destruct (app_opt (cfg r)).
    - destruct (app_module r); [|discriminate]. injection Hdata as <-.
      split; reflexivity.
    - injection Hdata as <-. split; reflexivity. }
  destruct Hsplats as [Hsp Hst].
  unfold load_checkpoints.
  rewrite (mapM_lookup_same_keys _ (splats r)) with (d0 := splats r).
  - cbn [bind ckpt_step]. rewrite Hst. reflexivity.
  - intros k t t' Hin. cbn [fst mapM]. unfold ckpt_tensor. rewrite Hsp.
    rewrite (lookup_In_NoDup _ k t Hnd Hin). reflexivity.
  - intros kv H. exact H.
  - exact Hkeys.
Qed.

Lemma single_checkpoint_witness :
  exists (r r' : Runner) (data : Checkpoint),
    Runner_init demo_sample_init
      (demo_cfg demo_mcmc demo_mcmc false false false false None) = Ok r
    /\ Runner_init (fun sh n => demo_sample_init sh (S n))
         (demo_cfg demo_mcmc demo_mcmc false false false false None) = Ok r'
    /\ checkpoint_data r 7 = Ok data
    /\ load_checkpoints (RuntimeError "expected a non-empty list of Tensors") r' [data]
       = Ok (set_splats r' (splats r), 7%Z)
    /\ shading_splats (set_splats r' (splats r)) = shading_splats r'.
Proof.
  eexists. eexists. eexists.
  split; [reflexivity|]. split; [reflexivity|]. split; [reflexivity|].
  match goal with
  | |- load_checkpoints _ ?r' _ = Ok (set_splats _ (splats ?r), _) /\ _ =>
      apply (single_checkpoint_round_trip r r' 7);
      [ reflexivity | reflexivity | ]
  end.
  cbn [keys map fst splats].
  repeat (constructor; [cbn [In]; intuition discriminate|]). constructor.
Defined.

Lemma load_checkpoints_step (cat_empty : Exn) (r : Runner) (ckpts : list Checkpoint)
    (p : Runner * Z) :
  load_checkpoints cat_empty r ckpts = Ok p ->
  cfg (fst p) = cfg r
  /\ shading_splats (fst p) = shading_splats r
  /\ shading_optimizers (fst p) = shading_optimizers r
  /\ keys (splats (fst p)) = keys (splats r)
  /\ exists ckpt rest,
       ckpts = ckpt :: rest /\ lookup "step" ckpt = Some (CkInt (snd p)).
Proof.
  unfold load_checkpoints. intros H.
  apply bind_ok_inv in H as (loaded & Hloaded & H).
  apply bind_ok_inv in H as (step & Hstep & H).
  injection H as <-. cbn [fst snd set_splats cfg shading_splats shading_optimizers splats].
  split; [reflexivity|]. split; [reflexivity|]. split; [reflexivity|]. split.
  - clear Hstep. revert loaded Hloaded.
    induction (splats r) as [|[k t] d IH]; intros loaded Hloaded.
    + injection Hloaded as <-. reflexivity.
    + cbn [mapM fst] in Hloaded.
      apply bind_ok_inv in Hloaded as (kv & Hkv & Hloaded).
      apply bind_ok_inv in Hloaded as (rest & Hrest & Hloaded).
      injection Hloaded as <-.
      apply bind_ok_inv in Hkv as (ts & _ & Hkv).
      apply bind_ok_inv in Hkv as (t0 & _ & Hkv).
      injection Hkv as <-. cbn [keys map fst]. f_equal. apply IH. exact Hrest.
  - unfold ckpt_step in Hstep. destruct ckpts as [|ckpt rest]; [discriminate|].
    exists ckpt, rest. split; [reflexivity|].
    destruct (lookup "step" ckpt) as [[n|d]|]; try discriminate.
    injection Hstep as <-. reflexivity.
Qed.

(** With shading, the render of a batch of one fails at [sun_angles[1]]
    once the albedo pass is through. *)
Lemma eval_render_batch_of_one (env : Collaborators) (r : Runner) (v : ValSample)
    (out : RasterOut) :
  use_shading (cfg r) = true ->
  length (v_sun_angles v) = 1%nat ->
  rasterize_splats env r (splats r) (v_time v) (v_camera v) (v_mask v) None 0%Z None
  = Ok out ->
  eval_render env r v = Err (IndexError "index out of range").
Proof.
  intros Hsh Hlen Hrast. unfold eval_render. rewrite Hrast, Hsh. cbn [bind].
  destruct (v_sun_angles v) as [|a [|b rest]]; try discriminate. reflexivity.
Qed.

(** X15: on the evaluation-only branch, once the checkpoints are loaded
    the program starts one evaluation, at the step stored in the first
    checkpoint, and never completes: it ends with the error raised inside
    the evaluation or, if the evaluation completes, with the attribute error
    of [render_traj]; compression is not reached.  With shading, a first
    validation batch of one sample whose albedo pass goes through makes the
    evaluation fail with an index error at [sun_angles[1]].  Loading
    replaced the albedo population only, so the shading population that is
    evaluated is the one the constructor initialised. *)
Theorem evaluation_only_run_evaluates_then_fails :
  forall (env : Collaborators) (cat_empty : Exn)
         (sample_init : bool -> nat -> InitSample) (c : Config)
         (ckpts : list Checkpoint) (valset : list ValSample)
         (r : Runner) (p : Runner * Z),
    Runner_init sample_init c = Ok r ->
    load_checkpoints cat_empty r ckpts = Ok p ->
    exists e,
      main_from_checkpoints env cat_empty sample_init c ckpts valset
      = ([EvEval (snd p)], Err e)
      /\ (Runner_eval env (fst p) valset = Ok tt -> e = AttributeError "disable_video")
      /\ (forall e', Runner_eval env (fst p) valset = Err e' -> e = e')
      /\ (use_shading c = true ->
          forall v rest out,
            valset = v :: rest ->
            length (v_sun_angles v) = 1%nat ->
            rasterize_splats env (fst p) (splats (fst p)) (v_time v) (v_camera v)
              (v_mask v) None 0%Z None = Ok out ->
            e = IndexError "index out of range")
      /\ shading_splats (fst p) = shading_splats r
      /\ exists ckpt rest,
           ckpts = ckpt :: rest /\ lookup "step" ckpt = Some (CkInt (snd p)).
Proof.
  intros env cat_empty sample_init c ckpts valset r p Hinit Hload.
  destruct (load_checkpoints_step cat_empty r ckpts p Hload)
    as (Hcfg & Hsh & _ & _ & Hstep).
  destruct (Runner_init_inv sample_init c r Hinit) as (Hc & _).
  assert (Hbatch : use_shading c = true ->
                   forall v rest out,
                     valset = v :: rest ->
                     length (v_sun_angles v) = 1%nat ->
                     rasterize_splats env (fst p) (splats (fst p)) (v_time v)
                       (v_camera v) (v_mask v) None 0%Z None = Ok out ->
                     Runner_eval env (fst p) valset
                     = Err (IndexError "index out of range")).
  { intros Hus v rest out -> Hlen Hrast. unfold Runner_eval.
    rewrite (mapM_first_err _ v rest (IndexError "index out of range")); [reflexivity|].
    apply (eval_render_batch_of_one env (fst p) v out); [|assumption|assumption].
    rewrite Hcfg, Hc. exact Hus. }
  unfold main_from_checkpoints. rewrite Hinit. cbn [lift bindM].
  rewrite Hload. cbn [bindM emit app].
  destruct (Runner_eval env (fst p) valset) as [[]|e'] eqn:E.
  - exists (AttributeError "disable_video").
    split; [reflexivity|]. split; [reflexivity|]. split; [discriminate|].
    split; [|split; assumption].
    intros Hus v rest out Hv Hlen Hrast.
    pose proof (Hbatch Hus v rest out Hv Hlen Hrast) as X. rewrite ?E in X.
    discriminate X.
  - exists e'.
    split; [reflexivity|]. split; [discriminate|].
    split; [intros e'' H; injection H as <-; reflexivity|].
    split; [|split; assumption].
    intros Hus v rest out Hv Hlen Hrast.
    pose proof (Hbatch Hus v rest out Hv Hlen Hrast) as X. rewrite ?E in X.
    injection X as X. exact X.
Qed.

Lemma evaluation_only_run_witness :
  exists (r : Runner) (p : Runner * Z),
    Runner_init demo_sample_init
      (demo_cfg demo_mcmc demo_mcmc false false false false (Some "png")) = Ok r
    /\ load_checkpoints (RuntimeError "expected a non-empty list of Tensors") r
         [[("step", CkInt 7); ("splats", CkStateDict (splats r))]] = Ok p
    /\ exists e,
         main_from_checkpoints demo_env
           (RuntimeError "expected a non-empty list of Tensors") demo_sample_init
           (demo_cfg demo_mcmc demo_mcmc false false false false (Some "png"))
           [[("step", CkInt 7); ("splats", CkStateDict (splats r))]] [demo_val_batch]
         = ([EvEval (snd p)], Err e)
         /\ (Runner_eval demo_env (fst p) [demo_val_batch] = Ok tt ->
             e = AttributeError "disable_video")
         /\ (forall e', Runner_eval demo_env (fst p) [demo_val_batch] = Err e' -> e = e')
         /\ (use_shading (demo_cfg demo_mcmc demo_mcmc false false false false (Some "png"))
             = true ->
             forall v rest out,
               [demo_val_batch] = v :: rest ->
               length (v_sun_angles v) = 1%nat ->
               rasterize_splats demo_env (fst p) (splats (fst p)) (v_time v) (v_camera v)
                 (v_mask v) None 0%Z None = Ok out ->
               e = IndexError "index out of range")
         /\ shading_splats (fst p) = shading_splats r
         /\ exists ckpt rest,
              [[("step", CkInt 7); ("splats", CkStateDict (splats r))]] = ckpt :: rest
              /\ lookup "step" ckpt = Some (CkInt (snd p)).
Proof.
  eexists. eexists. split; [reflexivity|].
  match goal with
  | |- load_checkpoints _ ?r ?ck = Ok ?p /\ _ =>
      split;
      [ run_model; reflexivity
      | eapply (evaluation_only_run_evaluates_then_fails demo_env _ demo_sample_init _
                  ck [demo_val_batch] r);
        [ reflexivity | run_model; reflexivity ] ]
  end.
Defined.

(** X16: with an empty list of checkpoint files the evaluation-only
    branch fails with the exception [torch.cat] raises on an empty list, at
    the first parameter group and before any evaluation is started. *)
Theorem evaluation_without_checkpoints_fails_before_evaluating :
  forall (env : Collaborators) (cat_empty : Exn)
         (sample_init : bool -> nat -> InitSample) (c : Config)
         (valset : list ValSample) (r : Runner),
    Runner_init sample_init c = Ok r ->
    main_from_checkpoints env cat_empty sample_init c [] valset = ([], Err cat_empty).
Proof.
  intros env cat_empty sample_init c valset r Hinit.
  destruct (Runner_init_inv sample_init c r Hinit) as (_ & Hcreate & _).
  assert (Hs : exists kv rest, splats r = kv :: rest).
  { replace (splats r) with (fst (splats r, optimizers r)) by reflexivity.
    rewrite Hcreate. unfold create_splats_with_optimizers. cbn [fst app map].
    eexists. eexists. reflexivity. }
  destruct Hs as (kv & rest & Hs).
  unfold main_from_checkpoints. rewrite Hinit. cbn [lift bindM].
  unfold load_checkpoints. rewrite Hs.
  rewrite (mapM_first_err _ kv rest cat_empty) by reflexivity.
  reflexivity.
Qed.

Lemma evaluation_without_checkpoints_witness :
  main_from_checkpoints demo_env (ValueError "no tensors") demo_sample_init
    (demo_cfg demo_mcmc demo_mcmc false false false false None) [] [demo_val_batch]
  = ([], Err (ValueError "no tensors")).
Proof.
  eapply (evaluation_without_checkpoints_fails_before_evaluating demo_env
            (ValueError "no tensors") demo_sample_init
            (demo_cfg demo_mcmc demo_mcmc false false false false None)).
  reflexivity.
Defined.

(** ** The viewer's query time *)

Lemma bisect_left_below (a : list Z) (x : Z) :
  forall i, (i < bisect_left a x)%nat -> (nth i a 0 < x)%Z.
Proof.
  induction a as [|y a IH]; intros i Hi; cbn [bisect_left] in Hi; [lia|].
  destruct (Z.ltb_spec y x) as [Hlt|Hge]; [|lia].
  destruct i as [|i]; cbn [nth]; [exact Hlt | apply IH; lia].
Qed.

Lemma bisect_left_le_length (a : list Z) (x : Z) :
  (bisect_left a x <= length a)%nat.
Proof.
  induction a as [|y a IH]; cbn [bisect_left length]; [lia|].
  destruct (Z.ltb y x); lia.
Qed.

Lemma bisect_left_at (a : list Z) (x : Z) :
  (bisect_left a x < length a)%nat -> (x <= nth (bisect_left a x) a 0)%Z.
Proof.
  induction a as [|y a IH]; cbn [bisect_left length]; [lia|].
  destruct (Z.ltb_spec y x) as [Hlt|Hge]; intros H; cbn [nth].
  - apply IH. lia.
  - exact Hge.
Qed.

Lemma sorted_nth_lt (a : list Z) :
  StronglySorted Z.lt a ->
  forall i j, (i < j < length a)%nat -> (nth i a 0 < nth j a 0)%Z.
Proof.
  induction 1 as [|y a Hs IH Hall]; intros i j Hij; cbn [length] in Hij; [lia|].
  destruct j as [|j]; [lia|]. cbn [nth].
  destruct i as [|i].
  - rewrite Forall_forall in Hall. apply Hall. apply nth_In. lia.
  - apply IH. lia.
Qed.

Lemma sorted_nth_le (a : list Z) :
  StronglySorted Z.lt a ->
  forall i j, (i <= j < length a)%nat -> (nth i a 0 <= nth j a 0)%Z.
Proof.
  intros Hs i j Hij. destruct (Nat.eq_dec i j) as [->|Hne]; [lia|].
  apply Z.lt_le_incl. apply sorted_nth_lt; [exact Hs | lia].
Qed.

Lemma index_nth {A : Type} (l : list A) (i : nat) (d : A) :
  (i < length l)%nat -> index l i = Ok (nth i l d) /\ nth_error l i = Some (nth i l d).
Proof.
  intros Hi. unfold index. rewrite (nth_error_nth' l d Hi). split; reflexivity.
Qed.

Lemma convex_between (l r t : R) :
  0 <= t <= 1 -> Rmin l r <= l * (1 - t) + r * t <= Rmax l r.
Proof.
  intros Ht. unfold Rmin, Rmax. destruct (Rle_dec l r); nra.
Qed.

(** X17: when the recorded days are strictly increasing, each has its
    normalized time, and the requested day lies between two recorded days,
    the viewer finds two recorded days around the requested one, the same
    day or neighbours in the list, and renders at a time between their
    normalized times. *)
Theorem viewer_time_lies_between_neighbouring_days :
  forall (unique_days : list Z) (days_linspace : list R) (days_elapsed lo hi : Z),
    StronglySorted Z.lt unique_days ->
    length days_linspace = length unique_days ->
    In lo unique_days -> In hi unique_days ->
    (lo <= days_elapsed <= hi)%Z ->
    exists (i j : nat) (dl dr : Z) (l r v : R),
      (j = i \/ j = S i)
      /\ nth_error unique_days i = Some dl
      /\ nth_error unique_days j = Some dr
      /\ (dl <= days_elapsed <= dr)%Z
      /\ nth_error days_linspace i = Some l
      /\ nth_error days_linspace j = Some r
      /\ viewer_time unique_days days_linspace days_elapsed = Ok v
      /\ Rmin l r <= v <= Rmax l r.
Proof.
  intros days lin x lo hi Hs Hlen Hlo Hhi Hx.
  destruct (In_nth _ _ 0%Z Hhi) as (k & Hk & Ehi).
  destruct (In_nth _ _ 0%Z Hlo) as (m & Hm & Elo).
  assert (Hb : (bisect_left days x < length days)%nat).
  { destruct (Nat.lt_ge_cases k (bisect_left days x)) as [Hlt|Hge]; [|lia].
    pose proof (bisect_left_below days x k Hlt). lia. }
  pose proof (bisect_left_at days x Hb) as Hat.
  set (i := Nat.max (bisect_left days x - 1) 0).
  set (j := if Nat.ltb (i + 1) (length days) then (i + 1)%nat else i).
  assert (Hi : (i < length days)%nat) by (unfold i; lia).
  assert (Hj : (j < length days)%nat)
    by (unfold j; destruct (Nat.ltb_spec (i + 1) (length days)); lia).
  assert (Hij : j = i \/ j = S i)
    by (unfold j; destruct (Nat.ltb (i + 1) (length days)); [right; lia | left; reflexivity]).
  assert (Hdl : (nth i days 0 <= x)%Z).
  { destruct (bisect_left days x) as [|b] eqn:Eb.
    - unfold i. cbn [Nat.sub Nat.max].
      pose proof (sorted_nth_le days Hs 0 m). lia.
    - pose proof (bisect_left_below days x b). rewrite Eb in H.
      unfold i. replace (Nat.max (S b - 1) 0) with b by lia.
      apply Z.lt_le_incl. apply H. lia. }
  assert (Hdr : (x <= nth j days 0)%Z).
  { destruct (bisect_left days x) as [|b] eqn:Eb.
    - pose proof (sorted_nth_le days Hs 0 j). lia.
    - assert (Ei : i = b) by (unfold i; lia).
      assert (Ej : j = S b).
      { unfold j. rewrite Ei.
        destruct (Nat.ltb_spec (b + 1) (length days)); lia. }
      rewrite Ej. exact Hat. }
  destruct (index_nth days i 0%Z Hi) as [Hidx_i Hnth_i].
  destruct (index_nth days j 0%Z Hj) as [Hidx_j Hnth_j].
  destruct (index_nth lin i 0 ltac:(lia)) as [Hlin_i Hlnth_i].
  destruct (index_nth lin j 0 ltac:(lia)) as [Hlin_j Hlnth_j].
  exists i, j, (nth i days 0%Z), (nth j days 0%Z), (nth i lin 0), (nth j lin 0).
  eexists.
  split; [exact Hij|]. split; [exact Hnth_i|]. split; [exact Hnth_j|].
  split; [lia|]. split; [exact Hlnth_i|]. split; [exact Hlnth_j|].
  split.
  - unfold viewer_time. fold i. fold j.
    rewrite Hidx_i, Hidx_j, Hlin_i, Hlin_j. cbn [bind]. reflexivity.
  - apply convex_between.
    apply IZR_le in Hdl, Hdr.
    assert (Hden : 0 < IZR (nth j days 0%Z) - IZR (nth i days 0%Z) + 1 / 100000000) by lra.
    split.
    + apply Rmult_le_pos; [lra|]. apply Rlt_le. apply Rinv_0_lt_compat. exact Hden.
    + apply Rmult_le_reg_r with (r := IZR (nth j days 0%Z) - IZR (nth i days 0%Z) + 1 / 100000000);
        [exact Hden|].
      unfold Rdiv at 1. rewrite Rmult_assoc, Rinv_l by lra. lra.
Qed.

Lemma viewer_time_witness :
  exists (i j : nat) (dl dr : Z) (l r v : R),
    (j = i \/ j = S i)
    /\ nth_error [0; 10; 30]%Z i = Some dl
    /\ nth_error [0; 10; 30]%Z j = Some dr
    /\ (dl <= 12 <= dr)%Z
    /\ nth_error [0; 1 / 2; 1] i = Some l
    /\ nth_error [0; 1 / 2; 1] j = Some r
    /\ viewer_time [0; 10; 30]%Z [0; 1 / 2; 1] 12 = Ok v
    /\ Rmin l r <= v <= Rmax l r.
Proof.
  apply (viewer_time_lies_between_neighbouring_days
           [0; 10; 30]%Z [0; 1 / 2; 1] 12 0 30).
  - repeat constructor.
  - reflexivity.
  - simpl. left. reflexivity.
  - simpl. right. right. left. reflexivity.
  - lia.
Defined.

(** ** The noise on the query *)

Lemma map_add_zero_scale (x sd scale : R) (l : list R) :
  scale = 0 -> map (fun t => t + x * sd * scale) l = l.
Proof.
  intros ->. rewrite <- (map_id l) at 2. apply map_ext. intros t. lra.
Qed.

(** X18: with [time_noise_scale] and [angle_noise_scale] at zero the
    forward pass of a training step does not depend on the random draws,
    on the dataset's time gap or on its sun-angle deviations: two sets of
    collaborators with the same rasterizer, appearance module and bilateral
    grid give the same result. *)
Theorem forward_pass_without_noise_ignores_random_draws :
  forall (env env' : Collaborators) (r : Runner) (step : Z) (data : Sample),
    time_noise_scale (cfg r) = 0 ->
    angle_noise_scale (cfg r) = 0 ->
    rasterization env' = rasterization env ->
    app_module_forward env' = app_module_forward env ->
    bilagrid_slice env' = bilagrid_slice env ->
    train_render env' r step data = train_render env r step data.
Proof.
  intros env env' r step data Ht Ha Hrast Happ Hbil.
  unfold train_render.
  rewrite !(map_add_zero_scale _ _ _ _ Ht), !(map_add_zero_scale _ _ _ _ Ha).
  unfold rasterize_splats, rasterizer_args.
  rewrite Hrast, Happ, Hbil. reflexivity.
Qed.

Lemma forward_pass_without_noise_witness :
  exists r : Runner,
    Runner_init demo_sample_init demo_cfg_quiet = Ok r
    /\ train_render demo_env_noisy r 0 demo_sample
       = train_render demo_env r 0 demo_sample.
Proof.
  eexists. split; [reflexivity|].
  match goal with
  | |- train_render _ ?r _ _ = _ =>
      apply (forward_pass_without_noise_ignores_random_draws
               demo_env demo_env_noisy r 0 demo_sample);
      reflexivity
  end.
Defined.

(** ** The regularizers of the loss *)

Lemma sum_abs_pos (f : R -> R) (l : list R) :
  (forall x, 0 < f x) -> l <> [] ->
  0 < fold_right Rplus 0 (map (fun x => Rabs (f x)) l).
Proof.
  intros Hf. induction l as [|x l IH]; intros Hne; [contradiction|].
  cbn [map fold_right].
  assert (0 < Rabs (f x)) by (apply Rabs_pos_lt; apply Rgt_not_eq; apply Hf).
  destruct l as [|y l]; [cbn [map fold_right]; lra|].
  assert (0 < fold_right Rplus 0 (map (fun x => Rabs (f x)) (y :: l)))
    by (apply IH; discriminate).
  lra.
Qed.

Lemma mean_abs_pos (f : R -> R) (t : Tensor) :
  (forall x, 0 < f x) -> entries t <> [] -> 0 < mean_abs f t.
Proof.
  intros Hf Hne. unfold mean_abs. apply Rdiv_lt_0_compat.
  - apply sum_abs_pos; assumption.
  - apply lt_0_INR. destruct (entries t); [contradiction | cbn [length]; lia].
Qed.

Lemma exp_positive (x : R) : 0 < exp x.
Proof. apply exp_pos. Qed.

Lemma group_populated (d : ParameterDict) (k : string) (t : Tensor) :
  populated d = true -> group d k = Ok t -> entries t <> [].
Proof.
  unfold group. induction d as [|[k0 t0] d IH]; intros Hp H; [discriminate|].
  cbn [populated forallb snd] in Hp. apply andb_true_iff in Hp as [Hp0 Hp].
  cbn [lookup] in H. destruct (String.eqb k k0).
  - injection H as <-. destruct (entries t0); [discriminate | discriminate].
  - apply IH; assumption.
Qed.

Lemma shading_of_some (r : Runner) (sh : ParameterDict) :
  shading_of r = Ok sh -> shading_splats r = Some sh.
Proof.
  unfold shading_of. destruct (shading_splats r); [|discriminate].
  intros H. injection H as <-. reflexivity.
Qed.

(** X19: on populations whose parameter groups are not empty, the
    regularizers never lower the loss, whatever their coefficients are: a
    coefficient that is zero or negative switches its regularizer off, so
    with both off the loss is the photometric loss (plus ten times the
    total variation of the bilateral grids when they are used), and with
    one of them on the loss is strictly larger than that. *)
Theorem regularizers_never_lower_the_loss :
  forall (lc : LossConfig) (r : Runner) (l1loss ssimloss tv loss : R),
    populated (splats r) = true ->
    (forall sh, shading_splats r = Some sh -> populated sh = true) ->
    training_loss lc r l1loss ssimloss tv = Ok loss ->
    let base :=
      l1loss * (1 - ssim_lambda lc) + ssimloss * ssim_lambda lc
      + (if use_bilagrid (cfg r) then 10 * tv else 0) in
    base <= loss
    /\ (opacity_reg lc <= 0 -> scale_reg lc <= 0 -> loss = base)
    /\ (0 < opacity_reg lc \/ 0 < scale_reg lc -> base < loss).
Proof.
  intros lc r l1loss ssimloss tv loss Hpop Hshpop Hloss base.
  unfold training_loss in Hloss.
  set (loss1 := if use_bilagrid (cfg r)
                then l1loss * (1 - ssim_lambda lc) + ssimloss * ssim_lambda lc + 10 * tv
                else l1loss * (1 - ssim_lambda lc) + ssimloss * ssim_lambda lc) in Hloss.
  assert (Hbase : loss1 = base)
    by (unfold loss1, base; destruct (use_bilagrid (cfg r)); lra).
  apply bind_ok_inv in Hloss as (loss2 & Hloss2 & Hloss).
  assert (H2 : loss1 <= loss2
               /\ (opacity_reg lc <= 0 -> loss2 = loss1)
               /\ (0 < opacity_reg lc -> loss1 < loss2)).
  { destruct (Rlt_dec 0 (opacity_reg lc)) as [Hop|Hop].
    - apply bind_ok_inv in Hloss2 as (o & Ho & Hloss2).
      pose proof (mean_abs_pos sigmoid o sigmoid_pos (group_populated _ _ _ Hpop Ho)) as Hmo.
      assert (0 < opacity_reg lc * mean_abs sigmoid o) by (apply Rmult_lt_0_compat; assumption).
      destruct (use_shading (cfg r)).
      + apply bind_ok_inv in Hloss2 as (sh & Hsh & Hloss2).
        apply bind_ok_inv in Hloss2 as (so & Hso & Hloss2).
        injection Hloss2 as <-.
        pose proof (mean_abs_pos sigmoid so sigmoid_pos
                      (group_populated _ _ _ (Hshpop sh (shading_of_some r sh Hsh)) Hso))
          as Hmso.
        assert (0 < opacity_reg lc * mean_abs sigmoid so)
          by (apply Rmult_lt_0_compat; assumption).
        repeat split; intros; lra.
      + injection Hloss2 as <-. repeat split; intros; lra.
    - injection Hloss2 as <-. repeat split; intros; lra. }
  destruct H2 as (H2le & H2eq & H2lt).
  assert (H3 : loss2 <= loss
               /\ (scale_reg lc <= 0 -> loss = loss2)
               /\ (0 < scale_reg lc -> loss2 < loss)).
  { destruct (Rlt_dec 0 (scale_reg lc)) as [Hsc|Hsc].
    - apply bind_ok_inv in Hloss as (s & Hs & Hloss).
      apply bind_ok_inv in Hloss as (ts & Hts & Hloss).
      pose proof (mean_abs_pos exp s exp_positive (group_populated _ _ _ Hpop Hs)) as Hms.
      pose proof (mean_abs_pos exp ts exp_positive (group_populated _ _ _ Hpop Hts)) as Hmts.
      assert (0 < scale_reg lc * mean_abs exp s) by (apply Rmult_lt_0_compat; assumption).
      assert (0 < scale_reg lc * mean_abs exp ts) by (apply Rmult_lt_0_compat; assumption).
      destruct (use_shading (cfg r)).
      + apply bind_ok_inv in Hloss as (sh & Hsh & Hloss).
        apply bind_ok_inv in Hloss as (ss & Hss & Hloss).
        apply bind_ok_inv in Hloss as (sts & Hsts & Hloss).
        injection Hloss as <-.
        pose proof (Hshpop sh (shading_of_some r sh Hsh)) as Hp'.
        pose proof (mean_abs_pos exp ss exp_positive (group_populated _ _ _ Hp' Hss)) as Hmss.
        pose proof (mean_abs_pos exp sts exp_positive (group_populated _ _ _ Hp' Hsts)) as Hmsts.
        assert (0 < scale_reg lc * mean_abs exp ss) by (apply Rmult_lt_0_compat; assumption).
        assert (0 < scale_reg lc * mean_abs exp sts) by (apply Rmult_lt_0_compat; assumption).
        repeat split; intros; lra.
      + injection Hloss as <-. repeat split; intros; lra.
    - injection Hloss as <-. repeat split; intros; lra. }
  destruct H3 as (H3le & H3eq & H3lt).
  rewrite <- Hbase. split; [lra|]. split.
  - intros Ho Hs. rewrite (H3eq Hs), (H2eq Ho). reflexivity.
  - intros [Ho|Hs].
    + specialize (H2lt Ho). lra.
    + specialize (H3lt Hs). lra.
Qed.

Lemma regularizers_witness :
  exists (r : Runner) (loss : R),
    Runner_init demo_sample_init
      (demo_cfg demo_mcmc demo_mcmc false false false false None) = Ok r
    /\ training_loss {| ssim_lambda := 2 / 10; opacity_reg := 1 / 100;
                        scale_reg := 0 |} r 1 1 0 = Ok loss
    /\ 1 * (1 - 2 / 10) + 1 * (2 / 10) + 0 <= loss
    /\ (1 / 100 <= 0 -> 0 <= 0 -> loss = 1 * (1 - 2 / 10) + 1 * (2 / 10) + 0)
    /\ (0 < 1 / 100 \/ 0 < 0 -> 1 * (1 - 2 / 10) + 1 * (2 / 10) + 0 < loss).
Proof.
  eexists. eexists. split; [reflexivity|].
  match goal with
  | |- training_loss ?lc ?r _ _ _ = _ /\ _ =>
      split;
      [ unfold training_loss; cbn [opacity_reg scale_reg];
        destruct (Rlt_dec 0 (1 / 100)) as [_|Hn]; [|exfalso; apply Hn; lra];
        destruct (Rlt_dec 0 0) as [Hp|_]; [exfalso; lra|];
        run_model; reflexivity
      | apply (regularizers_never_lower_the_loss lc r 1 1 0);
        [ reflexivity
        | intros sh Hsh; run_model_in Hsh; injection Hsh as <-; reflexivity
        | unfold training_loss; cbn [opacity_reg scale_reg];
          destruct (Rlt_dec 0 (1 / 100)) as [_|Hn]; [|exfalso; apply Hn; lra];
          destruct (Rlt_dec 0 0) as [Hp|_]; [exfalso; lra|];
          run_model; reflexivity ] ]
  end.
Defined.
